(* ===== verification/_CoqProject ===== *)
-Q . S2P
Prelude.v
ScalarR.v
ScalarFloat.v
Vec.v
Color.v
Scene.v
Sphere.v
Shading.v
Pack.v
FrameBuffer.v
Bmp.v
Render.v
Main.v
