(* ===== verification/Prelude.v ===== *)
(** * A verified model of the lab-3 ray tracer (src/lib.py, src/ray.py)

    The program is a recursive ray tracer written in Python.  It casts one
    primary ray per pixel from two eye points, shades the nearest hit with
    a Phong-like local model and a hard shadow, follows reflection and
    refraction rays up to [MAX_RECURSION_DEPTH], stores the colour in a
    frame buffer and serialises that buffer as a 24-bit BMP file.

    ** Parts of the program and how they interact

    - src/lib.py, vector helpers ([V3], [V2], [sum], [sub], [mul], [dot],
      [length], [norm], [bbox], [cross], [barycentric], [multMatriz],
      [reflect], [refract]).  They are pure functions on records.
    - src/lib.py, the [color] class ([__add__], [__mul__], [__truediv__],
      [__eq__], [toBytes], and the aliases [__rmul__], [__rtruediv__]),
      and the module-level function [color(r, g, b)] that the class
      shadows.  [toBytes] clamps the channels and writes the
      clamped values back into the object.
    - src/lib.py, byte packing ([char], [word], [dword]) on top of
      [struct.pack], plus the record classes [Light] and [Intersect].
    - src/ray.py, [Material] and [Raycaster]: [glClear] and [point] on the
      frame buffer, [scene_intersect] (a linear scan for the nearest hit),
      [cast_ray] (the recursive shader), [render] (the per-pixel loop with
      two eye points) and [finish] (the BMP writer).
    - The scene objects (the [Sphere] of sphere.py) are not part of the
      sources.  The shader reaches them only through the method
      [ray_intersect] and the field [material]; that contract is the
      interface [Scene.Intersectable].

    Data flow: [render] calls [cast_ray]; [cast_ray] calls
    [scene_intersect], which calls [ray_intersect] on every object, and
    [cast_ray] recurses on the reflected and refracted rays; [render]
    writes [pixels]; [finish] calls [toBytes] on every pixel and packs the
    header with [char], [word] and [dword].  The module-level script of
    ray.py builds one raycaster, assigns its [light] and [scene], and calls
    [render] then [finish].

    ** Files and what they model

    - [Prelude] (this file) holds the numeric interface [Scalar] (the
      operations of Python's [float] that the code uses), the Python
      exceptions the code can raise ([exn]), the error monad [res] with its
      [let*] notation in [py_scope], Python's builtins [min], [max], [abs]
      and [**] on scalars, and Python list indexing ([py_getitem],
      [py_setitem]) with negative indices and [IndexError].  The hint
      database [pyrt] and the tactic [res_simpl] serve all components.
    - [ScalarR] instantiates [Scalar] with the real numbers of the Standard
      Library.  The algebraic theorems (unit length of [norm], the
      involution of [reflect], barycentric reconstruction, clamping bounds)
      are proved there, since floating point has none of these laws
      exactly.
    - [ScalarFloat] instantiates [Scalar] with the kernel's primitive
      binary64 floats, which are the floats of CPython.  The models run on
      this instance by [vm_compute]; the examples of that file show the
      code's actual outputs.
    - [Vec] ([Module Vec]) models the vector helpers of lib.py lines
      5-118; [Color] ([Module Color]) the [color] class, lines 132-169.
    - [Scene] ([Module Scene]) holds [Light], [Intersect], [Material], the
      colour constants, the object interface [Intersectable] and
      [scene_intersect] (ray.py lines 78-92) with its abstract
      specification [nearest_ref].
    - [Sphere] ([Module Sphere]) models the [Sphere] of sphere.py from
      the spec, since that file is not among the sources; it implements
      [Scene.Intersectable] and discharges the contract
      [Scene.IntersectableLaws].
    - [Shading] ([Module Shading]) holds the [Raycaster] record and
      [cast_ray] (ray.py lines 94-138): [cast_ray_body] is the method body
      with the recursive call as a parameter, [cast_ray_fuel] ties the
      knot.
    - [Pack] ([Module Pack]) models [char], [word], [dword] (lib.py lines
      120-127) with coqutil's little-endian [le_split].
    - [FrameBuffer] ([Module FrameBuffer]) models [__init__], [glClear],
      [point] (ray.py lines 25-36, 72-76) and the frame-buffer invariant
      [wf]; [alloc] creates a colour object in the store.
    - [Bmp] ([Module Bmp]) models [finish] (ray.py lines 38-69) in the
      state monad [st] over (file bytes, raycaster).
    - [Render] ([Module Render]) models [render] (ray.py lines 140-156) in
      [st] over the raycaster.
    - [Main] ([Module Main]) models the script (ray.py lines 158-173):
      [set_light] and [set_scene] are the attribute assignments,
      [main_raycaster] the configured raycaster, [main] runs [render] and,
      unless it raised, [finish].

    ** Object identity

    [glClear] fills the buffer with the one object [BLACK], and [toBytes]
    assigns the clamped channels back to the object it is called on, so
    the identity of colour objects matters.  The raycaster carries a store
    [objects : gmap loc color] and the buffer holds identities ([loc]);
    [alloc] returns a fresh identity above every key ([next_loc]).  Only
    the objects the buffer can reach are stored: intermediate colours of
    [cast_ray] are values.

    ** Theorems, by group

    - Termination and depth: [cast_ray] with fuel
      [MAX_RECURSION_DEPTH - recursion + 1] never runs out and any more
      fuel gives the same result; the bound is exact: on a scene where
      every ray hits a reflective material, one level less runs out.
      This fuel is enough because each recursive call increases
      [recursion] and a call at [MAX_RECURSION_DEPTH] returns at once.
    - Nearest hit: [scene_intersect] refines [nearest_ref], the first hit
      of least distance; on objects honouring the contract of the
      Intersection Protocol its hit honours it too; on the one-sphere
      scene of ray.py a head-on ray hits at distance [d - r]; every hit of
      a sphere lies on it, with the outward unit normal.
    - Shading outcomes and error paths of [cast_ray]: on a scene of
      [Material] objects its only exception is [AttributeError], raised
      at any hit on a refractive material (no [refractive_index]) or when
      [light] was never assigned.  Its safety: with
      a light set and materials of four albedo weights and no refractive
      weight, [cast_ray] never raises.  The shadow test of the spec: an
      object between the hit and the light darkens an opaque hit, by 0.9
      of the diffuse term only, so a pure highlight is not darkened.
    - The whole program: on the reals the script of ray.py runs to
      completion and writes the 2000 x 2000 image, [54 + 3 * 2000 * 2000]
      bytes, the composition of the safety of [cast_ray], the totality of
      [render] and the square case of [finish].
    - Colour serialisation: clamping, idempotence, [toBytes] as the
      function [color(r, g, b)] on the clamped channels, the defects of
      [__eq__] and [__rtruediv__].
    - Frame buffer: [wf] holds after [__init__] and is kept by [glClear],
      [point] and [render]; [point]'s negative subscripts wrap.
    - Byte packing: [word] and [dword] round trips and their ranges; the
      argument type of [char] (one ASCII character) and its errors.
    - BMP file: the header layout read back with [le_combine]; on square
      buffers the exact file despite shared mutated objects; on others an
      [IndexError] and a truncated file; no row padding.
    - Render: [fov] is one radian, so the primary rays stay within a
      half-angle of half a radian; each pixel gets a fresh object holding
      its colour; an empty scene renders to the background.
    - Vector algebra on the reals: unit [norm], [reflect] as the mirror
      image about the normal,
      Snell's law for [refract], barycentric reconstruction.

    ** Modelling conventions

    - Every Python function is one Rocq definition of the same name, with
      the arguments in the same order.  Exceptions become [Err e] in [res]:
      [IndexError] for a subscript out of range, [AttributeError] for a
      missing attribute, [ZeroDivisionError], [ValueError] (for [int] of a
      NaN and [bytes] of a value outside [0, 256)) and [StructError] (for
      [struct.pack] out of range).  [OutOfFuel] is not a Python exception:
      it marks fuel exhaustion of the model, and a theorem shows it never
      occurs with the chosen fuel.
    - [x ** 2] is [x *. x]; [x ** 0.5] and [x ** (1/2)] are [s_sqrt x];
      [x ** n] for the integer exponent [spec] is [py_pow x n], repeated
      multiplication.  On the float instance these agree with CPython up to
      the last bit of [pow]; on [R] they are exact.
    - Python's [min(a, b)] returns [a] unless [b < a]; [max(a, b)] returns
      [a] unless [a < b].  Both are written with the scalar comparison, so
      the model keeps Python's behaviour on ties and NaN.

    ** Status and what is left

    Modelled: every function and method of src/lib.py and src/ray.py and
    the module-level script of ray.py.  Not modelled: the imports, the
    commented-out [allbarycentric] of lib.py, and [color.__repr__], which
    formats the channels with Python's [str] of a float (the shortest
    decimal that reads back to the same double) and is called nowhere;
    a faithful model would need that float-to-decimal algorithm.  The file
    name and the [open]/[close] of [finish] are I/O: the file is the byte
    list in the state, empty at the start.  [sphere.py] is not among the
    sources; its [Sphere] is modelled from the spec.  The shading
    theorems are proved on the reals; relating the binary64 instance to
    them (rounding-error bounds) is left open, and the binary64 runs are
    evaluations of the model, not theorems about all floats.
*)

From Stdlib Require Export ZArith List Lia Bool.
From stdpp Require Export base list gmap.
From Stdlib Require Export Strings.Byte.

Declare Scope py_scope.
Delimit Scope py_scope with py.

(** ** Python exceptions and the error monad *)

Inductive exn :=
  | AttributeError
  | IndexError
  | ZeroDivisionError
  | ValueError
  | StructError
  | UnicodeEncodeError
  | OutOfFuel.

#[export] Instance exn_eq_dec : EqDecision exn.
Proof. solve_decision. Defined.

(** The outcome of a Python call: a value or a raised exception. *)
Inductive res (A : Type) : Type :=
  | Ok (a : A)
  | Err (e : exn).
Arguments Ok {A} a.
Arguments Err {A} e.

Definition res_bind {A B : Type} (m : res A) (f : A -> res B) : res B :=
  match m with
  | Ok a => f a
  | Err e => Err e
  end.

Definition res_map {A B : Type} (f : A -> B) (m : res A) : res B :=
  res_bind m (fun a => Ok (f a)).

Notation "'let*' x ':=' c 'in' k" := (res_bind c (fun x => k))
  (at level 10, x name, c at level 100, k at level 200) : py_scope.

Open Scope py_scope.

(** [try: body except: pass]: any exception leaves the state [s]. *)
Definition py_try_pass {A : Type} (m : res A) (s : A) : A :=
  match m with
  | Ok a => a
  | Err _ => s
  end.

(** ** The scalar domain: the operations of Python's [float] used by the code *)

Class Scalar (F : Type) := {
  s_of_Z : Z -> F;
  s_add : F -> F -> F;
  s_sub : F -> F -> F;
  s_mul : F -> F -> F;
  s_div : F -> F -> F;
  s_opp : F -> F;
  s_ltb : F -> F -> bool;
  s_eqb : F -> F -> bool;
  s_sqrt : F -> F;
  s_tan : F -> F;
  s_pi : F;
  (** [int(x)]: truncation toward zero, [None] when Python raises
      (NaN, infinities). *)
  s_trunc : F -> option Z;
  (** [x < float('inf')] *)
  s_lt_inf : F -> bool
}.

Infix "+." := s_add (at level 50, left associativity) : py_scope.
Infix "-." := s_sub (at level 50, left associativity) : py_scope.
Infix "*." := s_mul (at level 40, left associativity) : py_scope.
Infix "/." := s_div (at level 40, left associativity) : py_scope.
Infix "<." := s_ltb (at level 70, no associativity) : py_scope.
Infix "==." := s_eqb (at level 70, no associativity) : py_scope.
Notation "'sZ' n" := (s_of_Z n%Z) (at level 9, n at level 0) : py_scope.

Section PyScalar.
Context {F : Type} `{Scalar F}.

(** Python's [min(a, b)] keeps [a] unless [b < a]. *)
Definition py_min (a b : F) : F := if b <. a then b else a.

(** Python's [max(a, b)] keeps [a] unless [a < b]. *)
Definition py_max (a b : F) : F := if a <. b then b else a.

(** Python's [abs]. *)
Definition py_abs (a : F) : F := if a <. sZ 0 then s_opp a else a.

(** A decimal literal [n / d] of the source, e.g. [1.1] is [lit 11 10]. *)
Definition lit (n d : Z) : F := sZ n /. sZ d.

(** [x ** n] for a natural exponent. *)
Fixpoint py_pow (x : F) (n : nat) : F :=
  match n with
  | O => sZ 1
  | S n' => py_pow x n' *. x
  end.

(** [x / y] raises [ZeroDivisionError] when [y == 0]. *)
Definition py_div (x y : F) : res F :=
  if y ==. sZ 0 then Err ZeroDivisionError else Ok (x /. y).
End PyScalar.

(** ** Python lists: subscripts with negative indices and [IndexError] *)

(** The position a Python subscript [i] denotes in a list of length [n]. *)
Definition py_index (n : nat) (i : Z) : option nat :=
  if (0 <=? i)%Z && (i <? Z.of_nat n)%Z then Some (Z.to_nat i)
  else if (- Z.of_nat n <=? i)%Z && (i <? 0)%Z then Some (Z.to_nat (Z.of_nat n + i))
  else None.

(** [l[i]] *)
Definition py_getitem {A : Type} (l : list A) (i : Z) : res A :=
  match py_index (length l) i with
  | Some k => match l !! k with Some a => Ok a | None => Err IndexError end
  | None => Err IndexError
  end.

(** [l[i] = v] *)
Definition py_setitem {A : Type} (l : list A) (i : Z) (v : A) : res (list A) :=
  match py_index (length l) i with
  | Some k => Ok (<[k := v]> l)
  | None => Err IndexError
  end.

(** [bytes([v])] for one value. *)
Definition py_byte (v : Z) : res byte :=
  if (0 <=? v)%Z && (v <? 256)%Z then
    match Byte.of_N (Z.to_N v) with Some b => Ok b | None => Err ValueError end
  else Err ValueError.

(** ** Generic lemmas *)

Create HintDb pyrt.
Create Rewrite HintDb pyrt.

Lemma res_bind_Ok {A B : Type} (a : A) (f : A -> res B) : res_bind (Ok a) f = f a.
Proof. reflexivity. Qed.

Lemma res_bind_Err {A B : Type} (e : exn) (f : A -> res B) : res_bind (Err e) f = Err e.
Proof. reflexivity. Qed.

Lemma res_bind_Ok_inv {A B : Type} (m : res A) (f : A -> res B) (b : B) :
  res_bind m f = Ok b -> exists a, m = Ok a /\ f a = Ok b.
Proof. destruct m; simpl; [eauto | discriminate]. Qed.

Lemma res_bind_ext {A B : Type} (m : res A) (f g : A -> res B) :
  (forall a, m = Ok a -> f a = g a) -> res_bind m f = res_bind m g.
Proof. destruct m; simpl; auto. Qed.

#[export] Hint Rewrite @res_bind_Ok @res_bind_Err : pyrt.

Lemma res_bind_Err_inv {A B : Type} (m : res A) (f : A -> res B) (e : exn) :
  res_bind m f = Err e -> m = Err e \/ exists a, m = Ok a /\ f a = Err e.
Proof. destruct m as [a|e']; simpl; [right; eauto | intros [= ->]; left; reflexivity]. Qed.

Ltac res_simpl := repeat (autorewrite with pyrt in *; simpl in *).

Lemma py_index_in_range (n : nat) (i : Z) :
  (0 <= i < Z.of_nat n)%Z -> py_index n i = Some (Z.to_nat i).
Proof.
  intros Hi. unfold py_index.
  destruct (Z.leb_spec 0 i), (Z.ltb_spec i (Z.of_nat n)); simpl; lia || reflexivity.
Qed.

Lemma py_index_negative (n : nat) (i : Z) :
  (- Z.of_nat n <= i < 0)%Z -> py_index n i = Some (Z.to_nat (Z.of_nat n + i)).
Proof.
  intros Hi. unfold py_index.
  destruct (Z.leb_spec 0 i); simpl; [lia|].
  destruct (Z.leb_spec (- Z.of_nat n) i), (Z.ltb_spec i 0); simpl; lia || reflexivity.
Qed.

Lemma py_index_out (n : nat) (i : Z) :
  (i < - Z.of_nat n \/ Z.of_nat n <= i)%Z -> py_index n i = None.
Proof.
  intros Hi. unfold py_index.
  destruct (Z.leb_spec 0 i), (Z.ltb_spec i (Z.of_nat n)),
    (Z.leb_spec (- Z.of_nat n) i), (Z.ltb_spec i 0); simpl; lia || reflexivity.
Qed.

Lemma py_index_lt (n : nat) (i : Z) (k : nat) : py_index n i = Some k -> (k < n)%nat.
Proof.
  unfold py_index. intros Hk.
  destruct (Z.leb_spec 0 i), (Z.ltb_spec i (Z.of_nat n)),
    (Z.leb_spec (- Z.of_nat n) i), (Z.ltb_spec i 0); simpl in Hk; simplify_eq; lia.
Qed.

Lemma py_getitem_nat {A : Type} (l : list A) (k : nat) (a : A) :
  l !! k = Some a -> py_getitem l (Z.of_nat k) = Ok a.
Proof.
  intros Hk. unfold py_getitem.
  rewrite py_index_in_range, Nat2Z.id, Hk; [reflexivity|].
  apply lookup_lt_Some in Hk. lia.
Qed.

Lemma py_getitem_Ok {A : Type} (l : list A) (i : Z) (a : A) :
  py_getitem l i = Ok a -> exists k, py_index (length l) i = Some k /\ l !! k = Some a.
Proof.
  unfold py_getitem. destruct (py_index _ _) as [k|]; [|discriminate].
  destruct (l !! k) eqn:E; [intros [= <-]; eauto | discriminate].
Qed.

Lemma py_setitem_length {A : Type} (l l' : list A) (i : Z) (v : A) :
  py_setitem l i v = Ok l' -> length l' = length l.
Proof.
  unfold py_setitem. destruct (py_index _ _); [|discriminate].
  intros [= <-]. apply length_insert.
Qed.

(** The first four albedo weights of a material, read by literal
    indices. *)
Lemma py_getitem_four {A : Type} (a0 a1 a2 a3 : A) (rest : list A) :
  py_getitem (a0 :: a1 :: a2 :: a3 :: rest) 0 = Ok a0 /\ py_getitem (a0 :: a1 :: a2 :: a3 :: rest) 1 = Ok a1 /\
  py_getitem (a0 :: a1 :: a2 :: a3 :: rest) 2 = Ok a2 /\ py_getitem (a0 :: a1 :: a2 :: a3 :: rest) 3 = Ok a3.
Proof.
  split_and!; [exact (py_getitem_nat (a0 :: a1 :: a2 :: a3 :: rest) 0 a0 eq_refl)
              | exact (py_getitem_nat (a0 :: a1 :: a2 :: a3 :: rest) 1 a1 eq_refl)
              | exact (py_getitem_nat (a0 :: a1 :: a2 :: a3 :: rest) 2 a2 eq_refl)
              | exact (py_getitem_nat (a0 :: a1 :: a2 :: a3 :: rest) 3 a3 eq_refl)].
Qed.

#[export] Hint Resolve py_getitem_nat py_setitem_length : pyrt.

(** ** Loops in the error monad *)

(** [for a in l: body(a)] collecting the results, stopping at the first
    exception. *)
Fixpoint res_mapM {A B : Type} (f : A -> res B) (l : list A) : res (list B) :=
  match l with
  | [] => Ok []
  | a :: l' => let* b := f a in let* bs := res_mapM f l' in Ok (b :: bs)
  end.

(** [for a in l: acc = body(acc, a)], stopping at the first exception. *)
Fixpoint res_foldM {A B : Type} (f : B -> A -> res B) (acc : B) (l : list A) : res B :=
  match l with
  | [] => Ok acc
  | a :: l' => let* acc' := f acc a in res_foldM f acc' l'
  end.

Lemma res_mapM_Ok {A B : Type} (f : A -> B) (l : list A) :
  res_mapM (fun a => Ok (f a)) l = Ok (map f l).
Proof. induction l as [|a l IH]; simpl; [reflexivity|]. rewrite IH. reflexivity. Qed.

Lemma res_mapM_ext {A B : Type} (f g : A -> res B) (l : list A) :
  (forall a, In a l -> f a = g a) -> res_mapM f l = res_mapM g l.
Proof.
  induction l as [|a l IH]; intros Hfg; simpl; [reflexivity|].
  rewrite Hfg by (left; reflexivity). rewrite IH by (intros; apply Hfg; right; assumption).
  reflexivity.
Qed.

Lemma res_foldM_Ok {A B : Type} (f : B -> A -> B) (acc : B) (l : list A) :
  res_foldM (fun b a => Ok (f b a)) acc l = Ok (fold_left f l acc).
Proof. revert acc. induction l as [|a l IH]; intros acc; simpl; [reflexivity|]. apply IH. Qed.

#[export] Hint Rewrite @res_mapM_Ok @res_foldM_Ok : pyrt.

(** ** [bytes([v])] *)

Lemma py_byte_ok (v : Z) :
  (0 <= v <= 255)%Z -> exists bt, py_byte v = Ok bt /\ Byte.to_N bt = Z.to_N v.
Proof.
  intros Hv. unfold py_byte.
  destruct (Z.leb_spec 0 v), (Z.ltb_spec v 256); simpl; try lia.
  destruct (Byte.of_N (Z.to_N v)) as [bt|] eqn:E.
  - exists bt. split; [reflexivity | apply Byte.to_of_N, E].
  - apply Byte.of_N_None_iff in E. lia.
Qed.

Lemma py_byte_range (v : Z) :
  (v < 0 \/ 255 < v)%Z -> py_byte v = Err ValueError.
Proof.
  intros Hv. unfold py_byte.
  destruct (Z.leb_spec 0 v), (Z.ltb_spec v 256); simpl; reflexivity || lia.
Qed.

(** The integer value of a byte, as Python's [b[i]] reads it. *)
Definition byte_value (bt : byte) : Z := Z.of_N (Byte.to_N bt).

Lemma byte_value_range (bt : byte) : (0 <= byte_value bt <= 255)%Z.
Proof. unfold byte_value. pose proof (Byte.to_N_bounded bt). lia. Qed.

Lemma byte_value_inj (l1 l2 : list byte) : map byte_value l1 = map byte_value l2 -> l1 = l2.
Proof.
  revert l2. induction l1 as [|x l IH]; intros [|y l'] Hm; simpl in Hm; try discriminate;
    [reflexivity|]. injection Hm as Hxy Hl. f_equal; [|auto].
  unfold byte_value in Hxy. apply N2Z.inj, (f_equal Byte.of_N) in Hxy.
  rewrite !Byte.of_to_N in Hxy. congruence.
Qed.

Lemma py_byte_value (v : Z) (bt : byte) : py_byte v = Ok bt -> byte_value bt = v.
Proof.
  unfold py_byte, byte_value.
  destruct (Z.leb_spec 0 v), (Z.ltb_spec v 256); simpl; try discriminate.
  destruct (Byte.of_N (Z.to_N v)) as [bt'|] eqn:E; [|discriminate].
  intros [= <-]. apply Byte.to_of_N in E. rewrite E. lia.
Qed.

(** ** Lists *)

Lemma lookup_In {A : Type} (l : list A) (j : nat) (a : A) : l !! j = Some a -> In a l.
Proof.
  revert j. induction l as [|x l IH]; intros [|j] Hj; simpl in Hj; try discriminate.
  - injection Hj as ->. left. reflexivity.
  - right. eapply IH. exact Hj.
Qed.

#[export] Hint Resolve lookup_In : pyrt.

(** [obj.attr] for an attribute that may be missing. *)
Definition py_attr {A : Type} (o : option A) : res A :=
  match o with Some a => Ok a | None => Err AttributeError end.

(** [OutOfFuel] travels through a bind only from one of its parts. *)
Lemma no_oof_bind {A B : Type} (m : res A) (f : A -> res B) :
  m <> Err OutOfFuel -> (forall a, m = Ok a -> f a <> Err OutOfFuel) ->
  res_bind m f <> Err OutOfFuel.
Proof. destruct m as [a|e]; simpl; [intros _ Hf; apply Hf; reflexivity | congruence]. Qed.

Lemma py_getitem_no_oof {A : Type} (l : list A) (i : Z) : py_getitem l i <> Err OutOfFuel.
Proof. unfold py_getitem. repeat case_match; discriminate. Qed.

Lemma py_attr_no_oof {A : Type} (o : option A) : py_attr o <> Err OutOfFuel.
Proof. destruct o; discriminate. Qed.

Lemma py_div_no_oof {F : Type} `{Scalar F} (x y : F) : py_div x y <> Err OutOfFuel.
Proof. unfold py_div. case_match; discriminate. Qed.

#[export] Hint Resolve py_getitem_no_oof py_attr_no_oof py_div_no_oof : pyrt.

Lemma py_getitem_out {A : Type} (l : list A) (i : Z) :
  (Z.of_nat (length l) <= i)%Z -> py_getitem l i = Err IndexError.
Proof. intros Hi. unfold py_getitem. rewrite py_index_out by lia. reflexivity. Qed.

(** ** State with exceptions

    A method that mutates objects or writes a file keeps its effects when
    a later statement raises: [st S A] returns the outcome together with
    the state reached. *)

Definition st (S A : Type) : Type := S -> res A * S.

Definition st_ret {S A : Type} (a : A) : st S A := fun s => (Ok a, s).

Definition st_bind {S A B : Type} (m : st S A) (f : A -> st S B) : st S B :=
  fun s => match m s with
           | (Ok a, s') => f a s'
           | (Err e, s') => (Err e, s')
           end.

(** An expression that does not touch the state. *)
Definition st_lift {S A : Type} (r : res A) : st S A := fun s => (r, s).

Definition st_get {S : Type} : st S S := fun s => (Ok s, s).
Definition st_put {S : Type} (s : S) : st S unit := fun _ => (Ok tt, s).
Definition st_modify {S : Type} (f : S -> S) : st S unit := fun s => (Ok tt, f s).

Notation "'let!' x ':=' c 'in' k" := (st_bind c (fun x => k))
  (at level 10, x name, c at level 100, k at level 200) : py_scope.

(** [for a in l: body(a)] *)
Fixpoint st_for {S A : Type} (l : list A) (body : A -> st S unit) : st S unit :=
  match l with
  | [] => st_ret tt
  | a :: l' => st_bind (body a) (fun _ => st_for l' body)
  end.

(** [range(n)] for a Python int [n] (empty when [n <= 0]). *)
Definition py_range (n : Z) : list Z := map Z.of_nat (seq 0 (Z.to_nat n)).

Lemma st_bind_ret {S A B : Type} (a : A) (f : A -> st S B) (s : S) :
  st_bind (st_ret a) f s = f a s.
Proof. reflexivity. Qed.

Lemma st_bind_lift_Ok {S A B : Type} (a : A) (f : A -> st S B) (s : S) :
  st_bind (st_lift (Ok a)) f s = f a s.
Proof. reflexivity. Qed.

Lemma st_bind_lift_Err {S A B : Type} (e : exn) (f : A -> st S B) (s : S) :
  st_bind (st_lift (Err e)) f s = (Err e, s).
Proof. reflexivity. Qed.

Lemma st_bind_assoc {S A B C : Type} (m : st S A) (f : A -> st S B) (g : B -> st S C) (s : S) :
  st_bind (st_bind m f) g s = st_bind m (fun a => st_bind (f a) g) s.
Proof. unfold st_bind. destruct (m s) as [[a|e] s']; reflexivity. Qed.

(** A loop whose every iteration succeeds and transforms the state by
    [step] runs them all. *)
Lemma st_for_Ok {S A : Type} (l : list A) (body : A -> st S unit) (step : A -> S -> S) (s : S) :
  (forall a s', In a l -> body a s' = (Ok tt, step a s')) ->
  st_for l body s = (Ok tt, fold_left (fun s' a => step a s') l s).
Proof.
  revert s. induction l as [|a l IH]; intros s Hb; simpl; [reflexivity|].
  unfold st_bind. rewrite Hb by (left; reflexivity). apply IH. intros; apply Hb; right; assumption.
Qed.

Lemma st_for_app {S A : Type} (l1 l2 : list A) (body : A -> st S unit) (s : S) :
  st_for (l1 ++ l2) body s = st_bind (st_for l1 body) (fun _ => st_for l2 body) s.
Proof.
  revert s. induction l1 as [|a l1 IH]; intros s; simpl; [reflexivity|].
  unfold st_bind. destruct (body a s) as [[[]|e] s']; [|reflexivity].
  rewrite IH. reflexivity.
Qed.

Lemma length_py_range (n : Z) : length (py_range n) = Z.to_nat n.
Proof. unfold py_range. rewrite length_map, length_seq. reflexivity. Qed.

#[export] Hint Rewrite @st_bind_ret @st_bind_lift_Ok @st_bind_lift_Err : pyrt.

(** ** Object identities and nested subscripts *)

(** The identity of a Python object whose mutation or sharing matters. *)
Definition loc := positive.

(** [grid[y][x] = v]: the row is fetched with [grid[y]] and updated in
    place. *)
Definition py_setitem2 {A : Type} (grid : list (list A)) (y x : Z) (v : A) : res (list (list A)) :=
  match py_index (length grid) y with
  | Some k =>
      match grid !! k with
      | Some row => let* row' := py_setitem row x v in Ok (<[k := row']> grid)
      | None => Err IndexError
      end
  | None => Err IndexError
  end.

(** [grid[y][x]] *)
Definition py_getitem2 {A : Type} (grid : list (list A)) (y x : Z) : res A :=
  let* row := py_getitem grid y in py_getitem row x.

(** [cell g i j] is [g[i][j]] at non-negative positions. *)
Definition cell {A : Type} (g : list (list A)) (i j : nat) : option A :=
  match g !! i with Some row => row !! j | None => None end.

Lemma py_setitem2_Ok {A : Type} (grid g' : list (list A)) (y x : Z) (v : A) :
  py_setitem2 grid y x v = Ok g' <->
  exists k row j, py_index (length grid) y = Some k /\ grid !! k = Some row /\
    py_index (length row) x = Some j /\ g' = <[k := <[j := v]> row]> grid.
Proof.
  unfold py_setitem2, py_setitem. split.
  - destruct (py_index (length grid) y) as [k|] eqn:Ek; [|discriminate].
    destruct (grid !! k) as [row|] eqn:Er; [|discriminate].
    destruct (py_index (length row) x) as [j|] eqn:Ej; [|discriminate].
    simpl. intros [= <-]. eauto 10.
  - intros (k & row & j & -> & -> & -> & ->). reflexivity.
Qed.

Lemma cell_insert2 {A : Type} (grid : list (list A)) (k j : nat) (row : list A) (v : A) (i j' : nat) :
  grid !! k = Some row -> (j < length row)%nat ->
  cell (<[k := <[j := v]> row]> grid) i j' =
  if decide (i = k /\ j' = j) then Some v else cell grid i j'.
Proof.
  intros Hk Hj. unfold cell.
  assert (k < length grid)%nat by (apply lookup_lt_Some in Hk; exact Hk).
  destruct (decide (i = k)) as [->|Hik].
  - rewrite list_lookup_insert_eq by assumption. rewrite Hk.
    destruct (decide (j' = j)) as [->|Hjj].
    + rewrite list_lookup_insert_eq by assumption. case_decide; [reflexivity | tauto].
    + rewrite list_lookup_insert_ne by congruence. case_decide; [tauto | reflexivity].
  - rewrite list_lookup_insert_ne by congruence. case_decide; [tauto | reflexivity].
Qed.

Lemma length_insert2 {A : Type} (grid : list (list A)) (k j : nat) (row : list A) (v : A) :
  length (<[k := <[j := v]> row]> grid) = length grid.
Proof. apply length_insert. Qed.

(** A property of all cells survives storing a value that has it. *)
Lemma Forall2_insert2 {A : Type} (P : A -> Prop) (grid : list (list A)) (k j : nat) (row : list A) (v : A) :
  Forall (Forall P) grid -> grid !! k = Some row -> P v ->
  Forall (Forall P) (<[k := <[j := v]> row]> grid).
Proof.
  intros Hg Hk Hv. apply Forall_insert; [exact Hg|].
  apply Forall_insert; [|exact Hv]. rewrite Forall_lookup in Hg. eapply Hg, Hk.
Qed.

Lemma Forall_length_insert2 {A : Type} (n : nat) (grid : list (list A)) (k j : nat) (row : list A) (v : A) :
  Forall (fun r => length r = n) grid -> grid !! k = Some row ->
  Forall (fun r => length r = n) (<[k := <[j := v]> row]> grid).
Proof.
  intros Hg Hk. apply Forall_insert; [exact Hg|]. rewrite length_insert.
  rewrite Forall_lookup in Hg. eapply Hg, Hk.
Qed.

Lemma lookup_map_option {A B : Type} (f : A -> B) (l : list A) (i : nat) :
  map f l !! i = option_map f (l !! i).
Proof. revert i. induction l as [|a l IH]; intros [|i]; simpl; auto. Qed.

Lemma lookup_py_range (n : Z) (i : nat) :
  (i < Z.to_nat n)%nat -> py_range n !! i = Some (Z.of_nat i).
Proof. intros Hi. unfold py_range. rewrite lookup_map_option, lookup_seq_lt by exact Hi. reflexivity. Qed.

(** [[f(l[i]) for i in range(n)]] is [map f l] when [n] is [len(l)]. *)
Lemma map_py_range_lookup {A B : Type} (f : A -> B) (d : B) (l : list A) (n : Z) :
  length l = Z.to_nat n ->
  map (fun i => match l !! Z.to_nat i with Some a => f a | None => d end) (py_range n) = map f l.
Proof.
  intros Hn. apply list_eq. intros i. rewrite !lookup_map_option.
  destruct (decide (i < Z.to_nat n)%nat) as [Hi|Hi].
  - rewrite lookup_py_range by exact Hi. simpl. rewrite Nat2Z.id.
    destruct (l !! i) eqn:E; [reflexivity|]. apply lookup_ge_None in E. lia.
  - rewrite (lookup_ge_None_2 (py_range n)), (lookup_ge_None_2 l) by (rewrite ?length_py_range; lia).
    reflexivity.
Qed.

Lemma py_getitem_Err {A : Type} (l : list A) (i : Z) (e : exn) : py_getitem l i = Err e -> e = IndexError.
Proof. unfold py_getitem. repeat case_match; congruence. Qed.

Lemma py_getitem2_Err {A : Type} (g : list (list A)) (y x : Z) (e : exn) :
  py_getitem2 g y x = Err e -> e = IndexError.
Proof.
  unfold py_getitem2. destruct (py_getitem g y) eqn:E; simpl; [apply py_getitem_Err|].
  intros [= <-]. eapply py_getitem_Err; eauto.
Qed.

(** ** Loops that write *)

(** A loop whose iterations each append [out a] to an output and keep
    [P] appends the outputs of all iterations, in order. *)
Lemma st_for_append {A B T : Type} (l : list A) (P : T -> Prop) (out : A -> list B)
    (body' : A -> st (list B * T) unit) :
  (forall a file t, In a l -> P t -> exists t', body' a (file, t) = (Ok tt, (file ++ out a, t')) /\ P t') ->
  forall file t, P t -> exists t', st_for l body' (file, t) = (Ok tt, (file ++ concat (map out l), t')) /\ P t'.
Proof.
  intros Hb. induction l as [|a l IH]; intros file t Ht; simpl.
  - exists t. rewrite app_nil_r. auto.
  - destruct (Hb a file t (or_introl eq_refl) Ht) as (t1 & E1 & H1). unfold st_bind. rewrite E1.
    destruct (IH (fun a' f t' Hin => Hb a' f t' (or_intror Hin)) (file ++ out a) t1 H1) as (t2 & E2 & H2).
    exists t2. rewrite E2, app_assoc. auto.
Qed.

Section Loops.
Context {S A : Type} (body : A -> st S unit) (P : S -> Prop).
Hypothesis body_P : forall a s r s', P s -> body a s = (r, s') -> P s'.

Lemma st_for_P (l : list A) (s : S) : P s -> P (snd (st_for l body s)).
Proof.
  revert s. induction l as [|a l IH]; intros s Hs; simpl; [exact Hs|].
  unfold st_bind. destruct (body a s) as [[[]|e] s'] eqn:E; eauto.
Qed.

(** A loop over a list holding an iteration that fails from every state
    of [P] fails, with an exception that some iteration raised from a
    state of [P]. *)
Lemma st_for_stuck (l : list A) (a0 : A) (Q : exn -> Prop) (s : S) :
  In a0 l -> (forall s, P s -> fst (body a0 s) <> Ok tt) ->
  (forall a s e s', P s -> body a s = (Err e, s') -> Q e) ->
  P s -> exists e s', st_for l body s = (Err e, s') /\ Q e.
Proof.
  intros Hin Hstuck HQ. revert s. induction l as [|a l IH]; intros s Hs; [destruct Hin|]. simpl.
  unfold st_bind. destruct (body a s) as [[[]|e] s'] eqn:E.
  - destruct Hin as [<-|Hin]; [apply Hstuck in Hs; rewrite E in Hs; simpl in Hs; congruence|].
    eapply IH; eauto.
  - eauto.
Qed.

(** An iteration that grows the measure [m] by at most [k], and by less
    than [k] when it raises, bounds the growth of the loop. *)
Lemma st_for_bound (m : S -> nat) (k : nat) (l : list A) (s s' : S) (r : res unit) :
  (forall a s s' r, P s -> body a s = (r, s') -> m s' <= m s + k /\ (r <> Ok tt -> m s' < m s + k))%nat ->
  P s -> st_for l body s = (r, s') ->
  (m s' <= m s + k * length l /\ (r <> Ok tt -> m s' < m s + k * length l))%nat.
Proof.
  intros Hb. revert s. induction l as [|a l IH]; intros s Hs E; simpl in * .
  - injection E as <- <-. split; [lia | congruence].
  - unfold st_bind in E. destruct (body a s) as [[[]|e] s1] eqn:E1.
    + destruct (Hb _ _ _ _ Hs E1) as [H1 _]. destruct (IH s1 (body_P _ _ _ _ Hs E1) E) as [H2 H3].
      split; [lia|]. intros Hr. specialize (H3 Hr). lia.
    + injection E as <- <-. destruct (Hb _ _ _ _ Hs E1) as [_ H1].
      specialize (H1 ltac:(congruence)). split; [lia|]. intros _. lia.
Qed.
(** Every exception the loop raises is one an iteration raised from a
    state of [P]. *)
Lemma st_for_Err (l : list A) (Q : exn -> Prop) (s s' : S) (e : exn) :
  (forall a s e s', P s -> body a s = (Err e, s') -> Q e) ->
  P s -> st_for l body s = (Err e, s') -> Q e.
Proof.
  intros HQ. revert s. induction l as [|a l IH]; intros s Hs E; simpl in E; [discriminate|].
  unfold st_bind in E. destruct (body a s) as [[[]|e'] s1] eqn:E1.
  - exact (IH s1 (body_P _ _ _ _ Hs E1) E).
  - injection E as <- <-. eauto.
Qed.
End Loops.

Lemma In_py_range (n x : Z) : In x (py_range n) -> exists i, (i < Z.to_nat n)%nat /\ x = Z.of_nat i.
Proof. unfold py_range. intros (i & <- & Hi)%in_map_iff. apply in_seq in Hi. exists i. split; [lia | reflexivity]. Qed.

Lemma In_py_range_2 (n x : Z) : (0 <= x < n)%Z -> In x (py_range n).
Proof.
  intros Hx. unfold py_range. apply in_map_iff. exists (Z.to_nat x).
  split; [lia|]. apply in_seq. lia.
Qed.

Lemma length_concat_map_const {A B : Type} (f : A -> list B) (l : list A) (k : nat) :
  (forall a, In a l -> length (f a) = k) -> length (concat (map f l)) = (k * length l)%nat.
Proof.
  induction l as [|a l IH]; intros Hf; simpl; [lia|].
  rewrite length_app, Hf by (left; reflexivity). rewrite IH by (intros; apply Hf; right; assumption). lia.
Qed.

(** ** Loop invariants indexed by the iterations done *)

Section Hoare.
Context {S A : Type} (body : A -> st S unit) (I : list A -> S -> Prop).

(** A loop that returns has run every iteration. *)
Lemma st_for_hoare (l : list A) :
  (forall done a s s', In a l -> I done s -> body a s = (Ok tt, s') -> I (done ++ [a]) s') ->
  forall done s s', I done s -> st_for l body s = (Ok tt, s') -> I (done ++ l) s'.
Proof.
  induction l as [|a l IH]; intros Hb done s s' Hs E; simpl in E.
  - injection E as <-. rewrite app_nil_r. exact Hs.
  - unfold st_bind in E. destruct (body a s) as [[[]|e] s1] eqn:E1; [|discriminate].
    rewrite cons_middle, app_assoc.
    apply (IH (fun d a' t t' Hin => Hb d a' t t' (or_intror Hin)) (done ++ [a]) s1); [|exact E].
    exact (Hb done a s s1 (or_introl eq_refl) Hs E1).
Qed.

(** A loop whose every iteration can run from the invariant returns. *)
Lemma st_for_total (l : list A) :
  (forall done a s, In a l -> I done s -> exists s', body a s = (Ok tt, s') /\ I (done ++ [a]) s') ->
  forall done s, I done s -> exists s', st_for l body s = (Ok tt, s') /\ I (done ++ l) s'.
Proof.
  induction l as [|a l IH]; intros Hb done s Hs; simpl.
  - exists s. rewrite app_nil_r. auto.
  - destruct (Hb done a s (or_introl eq_refl) Hs) as (s1 & E1 & H1). unfold st_bind. rewrite E1.
    rewrite cons_middle, app_assoc. exact (IH (fun d a' t Hin => Hb d a' t (or_intror Hin)) (done ++ [a]) s1 H1).
Qed.
End Hoare.
