(* ===== verification/ScalarR.v ===== *)
(** The real-number instance of [Scalar].

    Python's float operations are read as the exact operations of the
    Standard Library's reals: the algebraic laws the code relies on
    (field identities, [sqrt x * sqrt x = x]) hold here, and the theorems
    of the components that need them are stated at this instance.
    [int(x)] is truncation toward zero, [x < float('inf')] always holds.
    This file also holds the bridge lemmas that turn the Python builtins
    into [Rmin], [Rmax], [Rabs] and [pow], and the tactics [rsimpl] and
    [rcase] used by the proofs on reals. *)

From S2P Require Import Prelude.
From Stdlib Require Export Reals Lra.

Open Scope R_scope.

(** The comparisons are kept folded so that [simpl] leaves them for
    [rcase]. *)
Definition Rltb (a b : R) : bool := if Rlt_dec a b then true else false.
Definition Reqb (a b : R) : bool := if Req_EM_T a b then true else false.
Arguments Rltb : simpl never.
Arguments Reqb : simpl never.

(** Python's [int] on a real: truncation toward zero. *)
Definition R_trunc (x : R) : Z :=
  if Rle_dec 0 x then Int_part x else (- Int_part (- x))%Z.

#[export] Instance R_scalar : Scalar R := {|
  s_of_Z := IZR;
  s_add := Rplus;
  s_sub := Rminus;
  s_mul := Rmult;
  s_div := Rdiv;
  s_opp := Ropp;
  s_ltb := Rltb;
  s_eqb := Reqb;
  s_sqrt := sqrt;
  s_tan := tan;
  s_pi := PI;
  s_trunc := fun x => Some (R_trunc x);
  s_lt_inf := fun _ => true
|}.

Lemma Rltb_spec (a b : R) : Bool.reflect (a < b) (Rltb a b).
Proof. unfold Rltb. destruct (Rlt_dec a b); constructor; assumption. Qed.

Lemma Reqb_spec (a b : R) : Bool.reflect (a = b) (Reqb a b).
Proof. unfold Reqb. destruct (Req_EM_T a b); constructor; assumption. Qed.

(** Case analysis on the first comparison of the goal or of a hypothesis. *)
Ltac rcase :=
  match goal with
  | |- context [Rltb ?a ?b] => destruct (Rltb_spec a b)
  | |- context [Reqb ?a ?b] => destruct (Reqb_spec a b)
  | H : context [Rltb ?a ?b] |- _ => destruct (Rltb_spec a b)
  | H : context [Reqb ?a ?b] |- _ => destruct (Reqb_spec a b)
  end.

Lemma R_py_min (a b : R) : py_min a b = Rmin a b.
Proof.
  unfold py_min; simpl. destruct (Rltb_spec b a);
    [rewrite Rmin_right | rewrite Rmin_left]; lra.
Qed.

Lemma R_py_max (a b : R) : py_max a b = Rmax a b.
Proof.
  unfold py_max; simpl. destruct (Rltb_spec a b);
    [rewrite Rmax_right | rewrite Rmax_left]; lra.
Qed.

Lemma R_py_abs (a : R) : py_abs a = Rabs a.
Proof.
  unfold py_abs; simpl. destruct (Rltb_spec a 0);
    [rewrite Rabs_left | rewrite Rabs_right]; lra.
Qed.

Lemma R_py_pow (x : R) (n : nat) : py_pow x n = x ^ n.
Proof. induction n as [|n IH]; simpl; [reflexivity|]. rewrite IH. ring. Qed.

Lemma R_lit (n d : Z) : lit n d = IZR n / IZR d.
Proof. reflexivity. Qed.

Lemma R_py_div (x y : R) : y <> 0 -> py_div x y = Ok (x / y).
Proof. intros Hy. unfold py_div. cbn [s_eqb s_of_Z R_scalar]. destruct (Reqb_spec y 0); [contradiction | reflexivity]. Qed.

Create HintDb rsimpl.
Create Rewrite HintDb rsimpl.
#[export] Hint Rewrite R_py_min R_py_max R_py_abs R_py_pow R_lit : rsimpl.

(** Unfold the instance: Python's operations become the reals'. *)
Ltac rsimpl :=
  cbn [s_of_Z s_add s_sub s_mul s_div s_opp s_ltb s_eqb s_sqrt s_tan s_pi
       s_trunc s_lt_inf R_scalar] in * ;
  autorewrite with rsimpl in * .

(** ** Python's [int] on reals *)

Lemma Int_part_spec (x : R) : IZR (Int_part x) <= x < IZR (Int_part x) + 1.
Proof.
  unfold Int_part. rewrite minus_IZR. destruct (archimed x) as [H1 H2]. lra.
Qed.

Lemma Int_part_IZR (n : Z) : Int_part (IZR n) = n.
Proof.
  pose proof (Int_part_spec (IZR n)) as [H1 H2].
  apply le_IZR in H1. rewrite <- plus_IZR in H2. apply lt_IZR in H2. lia.
Qed.

(** On a non-negative real, [int] is the floor. *)
Lemma R_trunc_nonneg (x : R) :
  0 <= x -> IZR (R_trunc x) <= x < IZR (R_trunc x) + 1.
Proof.
  intros Hx. unfold R_trunc. destruct (Rle_dec 0 x); [apply Int_part_spec | lra].
Qed.

Lemma R_trunc_IZR (n : Z) : R_trunc (IZR n) = n.
Proof.
  unfold R_trunc. destruct (Rle_dec 0 (IZR n)).
  - apply Int_part_IZR.
  - rewrite <- opp_IZR, Int_part_IZR. lia.
Qed.

Lemma R_trunc_bounds (x : R) (lo hi : Z) :
  IZR lo <= x <= IZR hi -> (0 <= lo)%Z -> (lo <= R_trunc x <= hi)%Z.
Proof.
  intros [Hlo Hhi] H0. apply IZR_le in H0.
  pose proof (R_trunc_nonneg x ltac:(lra)) as [H1 H2].
  split.
  - rewrite <- plus_IZR in H2.
    assert (IZR lo < IZR (R_trunc x + 1)) as Hl by lra. apply lt_IZR in Hl. lia.
  - assert (IZR (R_trunc x) <= IZR hi) as Hh by lra. apply le_IZR in Hh. lia.
Qed.

(** ** Square roots *)

Lemma sqrt_sqr_id (a : R) : 0 <= a -> sqrt (a * a) = a.
Proof. apply sqrt_square. Qed.

Lemma sqrt_pos_of_pos (a : R) : 0 < a -> 0 < sqrt a.
Proof. apply sqrt_lt_R0. Qed.

Lemma sqrt_eq_0_iff (a : R) : 0 <= a -> sqrt a = 0 <-> a = 0.
Proof.
  intros Ha. split; [apply sqrt_eq_0; assumption | intros ->; apply sqrt_0].
Qed.

#[export] Hint Resolve sqrt_pos sqrt_pos_of_pos : rsimpl.
