(* ===== verification/ScalarFloat.v ===== *)
(** The binary64 instance of [Scalar].

    CPython's [float] is IEEE 754 binary64 with round-to-nearest, which is
    what the kernel's primitive floats implement: [+], [-], [*], [/],
    [sqrt], [<] and [==] agree bit for bit.  The models therefore run on
    this instance with [vm_compute], and the examples of the component
    files show the outputs of the code.  Three operations are not
    primitive:
    - [int(x)] is computed exactly from the binary representation
      ([Prim2SF]) and fails on NaN and infinities, as Python does;
    - integer literals go through [of_uint63], which is exact for the
      magnitudes in the source (below 2^53);
    - [math.tan] has no primitive: [float_tan] sums the Taylor series of
      [sin] and [cos], good to the last bits on the one argument the code
      uses ([tan(0.5)]) but not claimed to be correctly rounded. *)

From S2P Require Import Prelude.
From Stdlib Require Import Floats.

(** The type of CPython's floats, for the files that do not import the
    float notations. *)
Abbreviation binary64 := PrimFloat.float.

Definition float_of_Z (n : Z) : float :=
  if (n <? 0)%Z then PrimFloat.opp (PrimFloat.of_uint63 (Uint63.of_Z (- n)))
  else PrimFloat.of_uint63 (Uint63.of_Z n).

(** [int(f)]: truncation toward zero of the exact binary value. *)
Definition float_trunc (f : float) : option Z :=
  match Prim2SF f with
  | S754_zero _ => Some 0%Z
  | S754_finite s m e =>
      let a := if (0 <=? e)%Z then Z.shiftl (Zpos m) e else Z.shiftr (Zpos m) (- e) in
      Some (if s then (- a)%Z else a)
  | _ => None
  end.

(** Taylor sums for [sin] and [cos], [n] terms; [k] is twice the index
    of the current term. *)
Fixpoint float_sin_cos_terms (n : nat) (x2 term_s term_c sum_s sum_c : float) (k : float)
  : float * float :=
  match n with
  | O => (sum_s, sum_c)
  | S n' =>
      let term_s' := PrimFloat.opp (term_s * x2 / ((k + 2) * (k + 3)))%float in
      let term_c' := PrimFloat.opp (term_c * x2 / ((k + 1) * (k + 2)))%float in
      float_sin_cos_terms n' x2 term_s' term_c' (sum_s + term_s')%float (sum_c + term_c')%float
        (k + 2)%float
  end.

Definition float_tan (x : float) : float :=
  let '(s, c) := float_sin_cos_terms 30 (x * x)%float x 1%float x 1%float 0%float in
  (s / c)%float.

#[export] Instance float_scalar : Scalar float := {|
  s_of_Z := float_of_Z;
  s_add := PrimFloat.add;
  s_sub := PrimFloat.sub;
  s_mul := PrimFloat.mul;
  s_div := PrimFloat.div;
  s_opp := PrimFloat.opp;
  s_ltb := PrimFloat.ltb;
  s_eqb := PrimFloat.eqb;
  s_sqrt := PrimFloat.sqrt;
  s_tan := float_tan;
  s_pi := 0x1.921fb54442d18p+1%float;
  s_trunc := float_trunc;
  s_lt_inf := fun f => PrimFloat.ltb f PrimFloat.infinity
|}.

Example float_trunc_examples :
  float_trunc 254.5%float = Some 254%Z /\ float_trunc (-2.5)%float = Some (-2)%Z /\
  float_trunc PrimFloat.nan = None.
Proof. vm_compute. repeat split. Qed.

Example float_tan_half : float_tan 0.5%float = 0x1.17b4f5bf3474ap-1%float.
Proof. vm_compute. reflexivity. Qed.
