(* ===== verification/Vec.v ===== *)
(** The vector helpers of src/lib.py.

    [Module Vec] translates [V3], [V2] and the module-level functions
    [sum], [sub], [mul], [dot], [length], [norm], [bbox], [cross],
    [barycentric], [multMatriz], [reflect] and [refract], generically over
    the scalar domain.  The theorems, stated on the reals, show that
    [norm] yields unit vectors, that [reflect] mirrors the normalised
    direction in the line of the normal (and is an involution up to
    normalisation), that [cross] is orthogonal to its arguments, that the
    weights of [barycentric] reconstruct the point, that [refract] obeys
    Snell's law, and that [multMatriz] computes the matrix product. *)

From S2P Require Import Prelude ScalarR ScalarFloat.

Module Vec.

(** [class V3]: the constructor's numpy branch is never used by the
    sources and is not modelled. *)
Record V3 (F : Type) := mkV3 { x : F; y : F; z : F }.
Arguments mkV3 {F} x y z.
Arguments x {F} v.
Arguments y {F} v.
Arguments z {F} v.

Record V2 (F : Type) := mkV2 { x2 : F; y2 : F }.
Arguments mkV2 {F} x2 y2.
Arguments x2 {F} v.
Arguments y2 {F} v.

(** [bbox] and [barycentric] read only the fields [x] and [y] of their
    arguments, which may be [V2] or [V3]: this is that duck typing. *)
Class HasXY (F T : Type) := { get_x : T -> F; get_y : T -> F }.

#[export] Instance V3_HasXY {F : Type} : HasXY F (V3 F) := {| get_x := x; get_y := y |}.
#[export] Instance V2_HasXY {F : Type} : HasXY F (V2 F) := {| get_x := x2; get_y := y2 |}.

Section Ops.
Context {F : Type} `{Scalar F}.

Definition sum (v0 v1 : V3 F) : V3 F :=
  mkV3 (x v0 +. x v1) (y v0 +. y v1) (z v0 +. z v1).

Definition sub (v0 v1 : V3 F) : V3 F :=
  mkV3 (x v0 -. x v1) (y v0 -. y v1) (z v0 -. z v1).

Definition mul (v0 : V3 F) (k : F) : V3 F :=
  mkV3 (x v0 *. k) (y v0 *. k) (z v0 *. k).

Definition dot (v0 v1 : V3 F) : F :=
  x v0 *. x v1 +. y v0 *. y v1 +. z v0 *. z v1.

Definition length (v0 : V3 F) : F :=
  s_sqrt (x v0 *. x v0 +. y v0 *. y v0 +. z v0 *. z v0).

Definition norm (v0 : V3 F) : V3 F :=
  let v0length := length v0 in
  if v0length ==. sZ 0 then mkV3 (sZ 0) (sZ 0) (sZ 0)
  else mkV3 (x v0 /. v0length) (y v0 /. v0length) (z v0 /. v0length).

(** Python's [max(xs)] and [min(xs)] on a list: [ValueError] when empty. *)
Definition py_max_list (l : list F) : res F :=
  match l with [] => Err ValueError | a :: l' => Ok (fold_left py_max l' a) end.

Definition py_min_list (l : list F) : res F :=
  match l with [] => Err ValueError | a :: l' => Ok (fold_left py_min l' a) end.

Definition bbox {T : Type} `{HasXY F T} (vertices : list T) : res (F * F * F * F) :=
  let xs := map get_x vertices in
  let ys := map get_y vertices in
  let* mx := py_max_list xs in
  let* my := py_max_list ys in
  let* nx := py_min_list xs in
  let* ny := py_min_list ys in
  Ok (mx, my, nx, ny).

Definition cross (v1 v2 : V3 F) : V3 F :=
  mkV3 (y v1 *. z v2 -. z v1 *. y v2)
       (z v1 *. x v2 -. x v1 *. z v2)
       (x v1 *. y v2 -. y v1 *. x v2).

Definition barycentric {T : Type} `{HasXY F T} (A B C P : T) : F * F * F :=
  let bc := cross
    (mkV3 (get_x B -. get_x A) (get_x C -. get_x A) (get_x A -. get_x P))
    (mkV3 (get_y B -. get_y A) (get_y C -. get_y A) (get_y A -. get_y P)) in
  if py_abs (z bc) <. sZ 1 then (sZ (-1), sZ (-1), sZ (-1))
  else
    let u := x bc /. z bc in
    let v := y bc /. z bc in
    let w := sZ 1 -. (x bc +. y bc) /. z bc in
    (w, v, u).

(** [multMatriz]: the three nested loops, with Python's subscripts.  The
    bounds [len(b[0])] and [len(a[0])] are evaluated when their loop
    starts, as in the source. *)
Definition multMatriz (a b : list (list F)) : res (list (list F)) :=
  res_mapM (fun i =>
    let* b0 := py_getitem b 0 in
    res_mapM (fun j =>
      let* a0 := py_getitem a 0 in
      res_foldM (fun s k =>
        let* ai := py_getitem a (Z.of_nat i) in
        let* aik := py_getitem ai (Z.of_nat k) in
        let* bk := py_getitem b (Z.of_nat k) in
        let* bkj := py_getitem bk (Z.of_nat j) in
        Ok (s +. aik *. bkj)) (sZ 0) (seq 0 (List.length a0)))
      (seq 0 (List.length b0)))
    (seq 0 (List.length a)).

Definition reflect (I N : V3 F) : V3 F :=
  let Lm := mul I (sZ (-1)) in
  let n := mul N (sZ 2 *. dot Lm N) in
  norm (sub Lm n).

(** [refract]: Snell's law.  [etai/etat] raises [ZeroDivisionError] when
    the refractive index is zero; total internal reflection returns the
    sentinel [V3(1, 0, 0)]. *)
Definition refract (I N : V3 F) (refractive_index : F) : res (V3 F) :=
  let cosi := s_opp (py_max (sZ (-1)) (py_min (sZ 1) (dot I N))) in
  let '(cosi, etai, etat, N) :=
    if cosi <. sZ 0 then (s_opp cosi, refractive_index, sZ 1, mul N (sZ (-1)))
    else (cosi, sZ 1, refractive_index, N) in
  let* eta := py_div etai etat in
  let k := sZ 1 -. eta *. eta *. (sZ 1 -. cosi *. cosi) in
  if k <. sZ 0 then Ok (mkV3 (sZ 1) (sZ 0) (sZ 0))
  else Ok (norm (sum (mul I eta) (mul N (eta *. cosi -. s_sqrt k)))).
End Ops.

Arguments sum : simpl never.
Arguments sub : simpl never.
Arguments mul : simpl never.
Arguments dot : simpl never.
Arguments length : simpl never.
Arguments norm : simpl never.
Arguments cross : simpl never.

(** ** Theorems on the reals *)

Open Scope R_scope.

Lemma V3_ext {F : Type} (a b : V3 F) : x a = x b -> y a = y b -> z a = z b -> a = b.
Proof. destruct a, b; simpl; intros -> -> ->; reflexivity. Qed.

(** Unfold the vector operations to their components on [R]. *)
Ltac vsimpl :=
  unfold sum, sub, mul, dot, cross in *; cbn [x y z] in * ; rsimpl.

Ltac vext := apply V3_ext; vsimpl.

Lemma dot_self_nonneg (v : V3 R) : 0 <= dot v v.
Proof. vsimpl. nra. Qed.

Lemma length_sq (v : V3 R) : length v * length v = dot v v.
Proof. unfold length. rsimpl. apply sqrt_sqrt. pose proof (dot_self_nonneg v). vsimpl. lra. Qed.

Lemma length_nonneg (v : V3 R) : 0 <= length v.
Proof. unfold length. rsimpl. apply sqrt_pos. Qed.

Lemma length_zero_iff (v : V3 R) : length v = 0 <-> v = mkV3 0 0 0.
Proof.
  split.
  - intros H0. pose proof (length_sq v) as Hs. rewrite H0, Rmult_0_l in Hs.
    vsimpl. destruct v as [a b c]; simpl in * .
    assert (a = 0) by nra. assert (b = 0) by nra. assert (c = 0) by nra. subst. reflexivity.
  - intros ->. unfold length. rsimpl. simpl.
    replace (0 * 0 + 0 * 0 + 0 * 0) with 0 by ring. apply sqrt_0.
Qed.

Lemma norm_nonzero (v : V3 R) :
  length v <> 0 -> norm v = mkV3 (x v / length v) (y v / length v) (z v / length v).
Proof. intros Hl. unfold norm. rsimpl. rcase; [contradiction | reflexivity]. Qed.

Lemma norm_as_mul (v : V3 R) : length v <> 0 -> norm v = mul v (/ length v).
Proof. intros Hl. rewrite norm_nonzero by exact Hl. vext; reflexivity. Qed.

Lemma norm_of_zero_length (v : V3 R) : length v = 0 -> norm v = mkV3 0 0 0.
Proof. intros Hl. unfold norm. rsimpl. rcase; [reflexivity | contradiction]. Qed.

Lemma norm_zero_vec : norm (mkV3 0 0 0) = mkV3 0 0 0.
Proof. apply norm_of_zero_length, length_zero_iff. reflexivity. Qed.

Lemma length_mul (v : V3 R) (c : R) : 0 <= c -> length (mul v c) = c * length v.
Proof.
  intros Hc. unfold length. vsimpl.
  replace (x v * c * (x v * c) + y v * c * (y v * c) + z v * c * (z v * c))
    with (c * c * (x v * x v + y v * y v + z v * z v)) by ring.
  rewrite sqrt_mult_alt by nra. rewrite sqrt_square by lra. reflexivity.
Qed.

Lemma norm_mul_pos (v : V3 R) (c : R) : 0 < c -> norm (mul v c) = norm v.
Proof.
  intros Hc. destruct (Req_dec (length v) 0) as [H0 | H0].
  - rewrite !norm_of_zero_length; [reflexivity | exact H0 |].
    rewrite length_mul by lra. rewrite H0. ring.
  - assert (length (mul v c) <> 0) as H1 by (rewrite length_mul by lra; nra).
    rewrite !norm_nonzero by assumption. rewrite length_mul by lra.
    vext; field; lra.
Qed.

Lemma length_unit_iff (v : V3 R) : length v = 1 <-> dot v v = 1.
Proof.
  rewrite <- length_sq. pose proof (length_nonneg v). split; [intros ->; ring | nra].
Qed.

Lemma norm_unit (v : V3 R) : length v = 1 -> norm v = v.
Proof.
  intros H1. rewrite norm_nonzero by lra. rewrite H1. vext; destruct v; simpl; field.
Qed.

Lemma div_eq_0 (a b : R) : b <> 0 -> a / b = 0 -> a = 0.
Proof. intros Hb Hab. replace a with (a / b * b) by (field; exact Hb). rewrite Hab. ring. Qed.

(** C25: [norm] returns a unit vector for every vector of non-zero length. *)
Theorem norm_length_one (v : V3 R) : length v <> 0 -> length (norm v) = 1.
Proof.
  intros Hl. pose proof (length_nonneg v) as Hn.
  rewrite norm_as_mul by exact Hl.
  rewrite length_mul by (apply Rlt_le, Rinv_0_lt_compat; lra).
  field. exact Hl.
Qed.

(** [norm] maps exactly the zero vector to the zero vector: it never
    divides by zero, and no non-zero vector is sent to zero. *)
Theorem norm_zero_iff (v : V3 R) : norm v = mkV3 0 0 0 <-> v = mkV3 0 0 0.
Proof.
  split; [|intros ->; apply norm_zero_vec].
  intros Hn. apply length_zero_iff. destruct (Req_dec (length v) 0) as [H0|H0]; [exact H0|].
  exfalso. apply H0, length_zero_iff.
  rewrite norm_nonzero in Hn by exact H0. injection Hn as Hx Hy Hz.
  apply V3_ext; simpl;
    [apply (div_eq_0 _ _ H0 Hx) | apply (div_eq_0 _ _ H0 Hy) | apply (div_eq_0 _ _ H0 Hz)].
Qed.

(** The vector [reflect] normalises: [-I - 2 dot(-I, N) N]. *)
Definition reflect_raw {F : Type} `{Scalar F} (I N : V3 F) : V3 F :=
  sub (mul I (sZ (-1))) (mul N (sZ 2 *. dot (mul I (sZ (-1))) N)).

Lemma reflect_as_norm (I N : V3 R) : reflect I N = norm (reflect_raw I N).
Proof. reflexivity. Qed.

Lemma reflect_raw_mul (I N : V3 R) (c : R) :
  reflect_raw (mul I c) N = mul (reflect_raw I N) c.
Proof. unfold reflect_raw. vext; ring. Qed.

Lemma reflect_raw_twice (I N : V3 R) :
  reflect_raw (reflect_raw I N) N = sum I (mul N (4 * dot I N * (dot N N - 1))).
Proof. unfold reflect_raw. vext; ring. Qed.

Lemma reflect_raw_invol (I N : V3 R) : dot N N = 1 -> reflect_raw (reflect_raw I N) N = I.
Proof.
  intros HN. rewrite reflect_raw_twice, HN. vext; ring.
Qed.

Lemma reflect_raw_zero (N : V3 R) : reflect_raw (mkV3 0 0 0) N = mkV3 0 0 0.
Proof. unfold reflect_raw. vext; ring. Qed.

(** Reflecting twice about the same unit normal gives back the
    direction, normalised: [reflect(reflect(I, N), N) = norm(I)]. *)
Lemma reflect_involutive (I N : V3 R) :
  length N = 1 -> reflect (reflect I N) N = norm I.
Proof.
  intros HN. apply length_unit_iff in HN.
  rewrite !reflect_as_norm.
  destruct (Req_dec (length (reflect_raw I N)) 0) as [H0|H0].
  - assert (I = mkV3 0 0 0) as ->.
    { rewrite <- (reflect_raw_invol I N HN). apply length_zero_iff in H0.
      rewrite H0. apply reflect_raw_zero. }
    rewrite reflect_raw_zero, norm_zero_vec, reflect_raw_zero, norm_zero_vec. reflexivity.
  - pose proof (length_nonneg (reflect_raw I N)).
    rewrite (norm_as_mul (reflect_raw I N) H0), reflect_raw_mul.
    rewrite norm_mul_pos by (apply Rinv_0_lt_compat; lra).
    rewrite reflect_raw_invol by exact HN. reflexivity.
Qed.

Lemma dot_mul_l (v w : V3 R) (c : R) : dot (mul v c) w = c * dot v w.
Proof. vsimpl. ring. Qed.

Lemma reflect_raw_dot (I N : V3 R) : dot (reflect_raw I N) N = dot I N * (2 * dot N N - 1).
Proof. unfold reflect_raw. vsimpl. ring. Qed.

Lemma reflect_raw_length (I N : V3 R) : dot N N = 1 -> length (reflect_raw I N) = length I.
Proof.
  intros HN. assert (forall v, length v = sqrt (dot v v)) as Hl by reflexivity. rewrite !Hl. f_equal.
  transitivity (dot I I + 4 * dot I N * dot I N * (dot N N - 1)); [unfold reflect_raw; vsimpl; ring|].
  rewrite HN. ring.
Qed.

(** C28: [reflect(I, N)] is the mirror image of [norm(I)] in the line of a
    unit normal [N]: a unit vector with the same component along [N] and
    the opposite component across it; reflecting it again gives back
    [norm(I)]. *)
Theorem reflect_mirror (I N : V3 R) :
  length N = 1 -> length I <> 0 ->
  length (reflect I N) = 1 /\
  dot (reflect I N) N = dot (norm I) N /\
  sub (reflect I N) (mul N (dot (reflect I N) N)) = mul (sub (norm I) (mul N (dot (norm I) N))) (-1) /\
  reflect (reflect I N) N = norm I.
Proof.
  intros HN1 HI. pose proof HN1 as HN. apply length_unit_iff in HN.
  pose proof (length_nonneg I) as Hpos.
  assert (0 < / length I) as Hk by (apply Rinv_0_lt_compat; lra).
  assert (reflect I N = mul (reflect_raw I N) (/ length I)) as ER.
  { rewrite reflect_as_norm, norm_as_mul; rewrite reflect_raw_length by exact HN; [reflexivity | exact HI]. }
  split_and!; [| | | exact (reflect_involutive I N HN1)]; rewrite ?ER, ?(norm_as_mul I HI).
  - rewrite length_mul, reflect_raw_length by (exact HN || lra). field. exact HI.
  - rewrite !dot_mul_l, reflect_raw_dot, HN. ring.
  - rewrite !dot_mul_l, reflect_raw_dot, HN. unfold reflect_raw. vext; ring.
Qed.

(** [cross] is orthogonal to both arguments. *)
Theorem cross_orthogonal (a b : V3 R) : dot (cross a b) a = 0 /\ dot (cross a b) b = 0.
Proof. split; vsimpl; ring. Qed.

(** Cauchy-Schwarz, through Lagrange's identity. *)
Lemma dot_cauchy_schwarz (a b : V3 R) : dot a b * dot a b <= dot a a * dot b b.
Proof.
  pose proof (dot_self_nonneg (cross a b)) as Hc.
  assert (dot a a * dot b b - dot a b * dot a b = dot (cross a b) (cross a b)) as E
    by (vsimpl; ring).
  lra.
Qed.

Lemma dot_unit_bounds (a b : V3 R) :
  length a = 1 -> length b = 1 -> -1 <= dot a b <= 1.
Proof.
  intros Ha Hb. apply length_unit_iff in Ha, Hb.
  pose proof (dot_cauchy_schwarz a b) as Hcs. rewrite Ha, Hb in Hcs. nra.
Qed.

(** Twice the signed area of the triangle, the [z] of the cross product
    that [barycentric] computes. *)
Definition area2 {T : Type} `{HasXY R T} (A B C : T) : R :=
  (get_x B - get_x A) * (get_y C - get_y A) - (get_x C - get_x A) * (get_y B - get_y A).

Lemma barycentric_unfold {T : Type} `{HasXY R T} (A B C P : T) :
  barycentric A B C P =
  let bx := (get_x C - get_x A) * (get_y A - get_y P) - (get_x A - get_x P) * (get_y C - get_y A) in
  let by_ := (get_x A - get_x P) * (get_y B - get_y A) - (get_x B - get_x A) * (get_y A - get_y P) in
  if Rltb (Rabs (area2 A B C)) 1 then (-1, -1, -1)
  else (1 - (bx + by_) / area2 A B C, by_ / area2 A B C, bx / area2 A B C).
Proof. unfold barycentric, area2. vsimpl. reflexivity. Qed.

(** On a degenerate triangle (twice its area below 1 in absolute
    value) [barycentric] returns the sentinel [(-1, -1, -1)]. *)
Theorem barycentric_degenerate {T : Type} `{HasXY R T} (A B C P : T) :
  Rabs (area2 A B C) < 1 -> barycentric A B C P = (-1, -1, -1).
Proof. intros Ha. rewrite barycentric_unfold. simpl. rcase; [reflexivity | contradiction]. Qed.

(** C29: otherwise the returned triple [(w, v, u)] sums to one and
    reconstructs [P] as [w A + u B + v C]: the second component is the
    weight of [C] and the third the weight of [B]. *)
Theorem barycentric_reconstructs {T : Type} `{HasXY R T} (A B C P : T) (w v u : R) :
  1 <= Rabs (area2 A B C) -> barycentric A B C P = (w, v, u) ->
  w + v + u = 1 /\
  w * get_x A + u * get_x B + v * get_x C = get_x P /\
  w * get_y A + u * get_y B + v * get_y C = get_y P.
Proof.
  intros Ha Hb. rewrite barycentric_unfold in Hb. simpl in Hb.
  rcase; [lra|]. injection Hb as <- <- <-.
  assert (area2 A B C <> 0) as Hz by (intros E; rewrite E, Rabs_R0 in Ha; lra).
  unfold area2 in * . repeat split; field; exact Hz.
Qed.

(** The clamp [max(-1, min(1, d))] of [refract]. *)
Lemma clamp_in_range (d : R) : -1 <= d <= 1 -> Rmax (-1) (Rmin 1 d) = d.
Proof. intros Hd. rewrite Rmin_right, Rmax_right; lra. Qed.

Lemma clamp_nonpos (d : R) : d <= 0 -> Rmax (-1) (Rmin 1 d) <= 0.
Proof. intros Hd. rewrite Rmin_right by lra. apply Rmax_lub; lra. Qed.

Lemma clamp_pos (d : R) : 0 < d -> 0 < Rmax (-1) (Rmin 1 d).
Proof. intros Hd. apply (Rlt_le_trans _ (Rmin 1 d)); [apply Rmin_glb_lt; lra | apply Rmax_r]. Qed.

Lemma dot_sum_mul (a b : V3 R) (p q : R) :
  dot (sum (mul a p) (mul b q)) (sum (mul a p) (mul b q)) =
  p * p * dot a a + 2 * p * q * dot a b + q * q * dot b b.
Proof. vsimpl; ring. Qed.

Lemma dot_sum_mul_r (a b : V3 R) (p q : R) :
  dot (sum (mul a p) (mul b q)) b = p * dot a b + q * dot b b.
Proof. vsimpl; ring. Qed.

Lemma cross_sum_mul (a b : V3 R) (p q : R) :
  cross (sum (mul a p) (mul b q)) b = mul (cross a b) p.
Proof. vext; ring. Qed.

(** The vector [refract] builds from unit [I] and [N'], with [c] the cosine
    of incidence and [s] the square root of the discriminant, is a unit
    vector on the far side of the surface whose tangential part is [eta]
    times that of [I]. *)
Lemma refract_vector (I N' : V3 R) (eta c s : R) :
  dot I I = 1 -> dot N' N' = 1 -> c = - dot I N' -> 0 <= s ->
  s * s = 1 - eta * eta * (1 - c * c) ->
  let t := sum (mul I eta) (mul N' (eta * c - s)) in
  norm t = t /\ length t = 1 /\ cross t N' = mul (cross I N') eta /\ dot t N' <= 0.
Proof.
  intros HI HN Hc Hs Hk t.
  assert (length t = 1) as Ht.
  { apply length_unit_iff. unfold t. rewrite dot_sum_mul, HI, HN.
    replace (dot I N') with (- c) by lra. nra. }
  repeat split; [apply norm_unit, Ht | exact Ht | apply cross_sum_mul |].
  unfold t. rewrite dot_sum_mul_r, HN. nra.
Qed.

(** The refraction parameters: the normal faced by the ray and [eta],
    after the swap of [refract] when the ray leaves the medium. *)
Definition refract_normal (I N : V3 R) : V3 R :=
  if Rle_dec (dot I N) 0 then N else mul N (-1).
Definition refract_eta (I N : V3 R) (ri : R) : R :=
  if Rle_dec (dot I N) 0 then 1 / ri else ri / 1.
Definition refract_k (I N : V3 R) (ri : R) : R :=
  1 - refract_eta I N ri * refract_eta I N ri * (1 - dot I N * dot I N).

(** C26: Snell's law.  For unit [I] and [N], a non-zero index and no total
    internal reflection, [refract] returns a unit vector [T] that crosses
    the surface and whose tangential component is [eta] times that of [I]
    ([T x N' = eta (I x N')], so [sin t = eta sin i]). *)
Theorem refract_snell (I N : V3 R) (ri : R) :
  length I = 1 -> length N = 1 -> ri <> 0 -> 0 <= refract_k I N ri ->
  exists T, refract I N ri = Ok T /\ length T = 1 /\
    cross T (refract_normal I N) = mul (cross I (refract_normal I N)) (refract_eta I N ri) /\
    dot T (refract_normal I N) <= 0.
Proof.
  intros HI HN Hri Hk. pose proof (dot_unit_bounds I N HI HN) as Hd.
  apply length_unit_iff in HI, HN.
  unfold refract_k, refract_normal, refract_eta in * . unfold refract, py_div. rsimpl.
  rewrite clamp_in_range by exact Hd.
  destruct (Rle_dec (dot I N) 0) as [Hout|Hin].
  - rcase; [lra|]. simpl. rcase; [contradiction|]. res_simpl. rcase; [nra|].
    edestruct (refract_vector I N (1 / ri) (- dot I N) (sqrt (1 - 1 / ri * (1 / ri) * (1 - - dot I N * - dot I N))))
      as (Hn & Hl & Hx & Hdt); [exact HI | exact HN | reflexivity | apply sqrt_pos | apply sqrt_sqrt; nra |].
    eexists; split; [rewrite Hn; reflexivity | auto].
  - rcase; [|lra]. simpl. rcase; [lra|]. res_simpl. rcase; [nra|].
    assert (dot (mul N (-1)) (mul N (-1)) = 1) as HN' by (rewrite <- HN; vsimpl; ring).
    edestruct (refract_vector I (mul N (-1)) (ri / 1) (- - dot I N) (sqrt (1 - ri / 1 * (ri / 1) * (1 - - - dot I N * - - dot I N))))
      as (Hn & Hl & Hx & Hdt); [exact HI | exact HN' | vsimpl; ring | apply sqrt_pos | apply sqrt_sqrt; nra |].
    eexists; split; [rewrite Hn; reflexivity | auto].
Qed.

(** C27: total internal reflection: when the discriminant is negative,
    [refract] returns the sentinel direction [V3(1, 0, 0)]. *)
Theorem refract_total_internal_reflection (I N : V3 R) (ri : R) :
  ri <> 0 -> -1 <= dot I N <= 1 -> refract_k I N ri < 0 ->
  refract I N ri = Ok (mkV3 1 0 0).
Proof.
  intros Hri Hd Hk. unfold refract_k, refract_eta in Hk. unfold refract, py_div. rsimpl.
  rewrite clamp_in_range by exact Hd.
  destruct (Rle_dec (dot I N) 0) as [Hout|Hin].
  - rcase; [lra|]. simpl. rcase; [contradiction|]. res_simpl. rcase; [reflexivity | nra].
  - rcase; [|lra]. simpl. rcase; [lra|]. res_simpl. rcase; [reflexivity | nra].
Qed.

(** C35: a ray entering a medium of refractive index [0] makes [refract]
    raise [ZeroDivisionError] at [etai/etat]. *)
Theorem refract_zero_index (I N : V3 R) :
  dot I N <= 0 -> refract I N 0 = Err ZeroDivisionError.
Proof.
  intros Hd. unfold refract, py_div. rsimpl.
  pose proof (clamp_nonpos _ Hd). rcase; [lra|]. simpl. rcase; [reflexivity | lra].
Qed.

(** ** Witnesses *)

Lemma length_e3 : length (mkV3 0 0 1) = 1.
Proof. unfold length. vsimpl. replace (0 * 0 + 0 * 0 + 1 * 1) with 1 by ring. apply sqrt_1. Qed.

Lemma length_e3_neg : length (mkV3 0 0 (-1)) = 1.
Proof. unfold length. vsimpl. replace (0 * 0 + 0 * 0 + -1 * -1) with 1 by ring. apply sqrt_1. Qed.

Lemma norm_length_one_witness :
  length (mkV3 0 0 1) <> 0 /\ length (norm (mkV3 0 0 1)) = 1.
Proof. pose proof length_e3. split; [lra | apply norm_length_one; lra]. Defined.

Lemma reflect_mirror_witness :
  length (reflect (mkV3 1 2 3) (mkV3 0 0 1)) = 1 /\
  dot (reflect (mkV3 1 2 3) (mkV3 0 0 1)) (mkV3 0 0 1) = dot (norm (mkV3 1 2 3)) (mkV3 0 0 1) /\
  sub (reflect (mkV3 1 2 3) (mkV3 0 0 1))
      (mul (mkV3 0 0 1) (dot (reflect (mkV3 1 2 3) (mkV3 0 0 1)) (mkV3 0 0 1))) =
    mul (sub (norm (mkV3 1 2 3)) (mul (mkV3 0 0 1) (dot (norm (mkV3 1 2 3)) (mkV3 0 0 1)))) (-1) /\
  reflect (reflect (mkV3 1 2 3) (mkV3 0 0 1)) (mkV3 0 0 1) = norm (mkV3 1 2 3).
Proof.
  apply reflect_mirror; [exact length_e3|].
  intros H0. apply length_zero_iff in H0. injection H0 as H1 _ _. lra.
Defined.

Lemma barycentric_degenerate_witness :
  Rabs (area2 (mkV2 0 0) (mkV2 1 0) (mkV2 2 0)) < 1 /\
  barycentric (mkV2 0 0) (mkV2 1 0) (mkV2 2 0) (mkV2 5 5) = (-1, -1, -1).
Proof.
  assert (Rabs (area2 (mkV2 0 0) (mkV2 1 0) (mkV2 2 0)) < 1) as Ha.
  { unfold area2. simpl. rewrite Rabs_right; lra. }
  split; [exact Ha | apply barycentric_degenerate, Ha].
Defined.

(** [P = B]: the weight of [B] is the third component. *)
Lemma barycentric_reconstructs_witness :
  barycentric (mkV2 0 0) (mkV2 10 0) (mkV2 0 10) (mkV2 10 0) = (0, 0, 1) /\
  0 + 0 + 1 = 1 /\ 0 * 0 + 1 * 10 + 0 * 0 = 10 /\ 0 * 0 + 1 * 0 + 0 * 10 = 0.
Proof.
  assert (1 <= Rabs (area2 (mkV2 0 0) (mkV2 10 0) (mkV2 0 10))) as Ha.
  { unfold area2. simpl. rewrite Rabs_right; lra. }
  assert (barycentric (mkV2 0 0) (mkV2 10 0) (mkV2 0 10) (mkV2 10 0) = (0, 0, 1)) as Hb.
  { rewrite barycentric_unfold. simpl. rcase; [unfold area2 in *; simpl in *; lra|].
    unfold area2; simpl. f_equal; [f_equal|]; field. }
  split; [exact Hb|]. exact (barycentric_reconstructs (mkV2 0 0) (mkV2 10 0) (mkV2 0 10) (mkV2 10 0) 0 0 1 Ha Hb).
Defined.

Lemma refract_snell_witness :
  exists T, refract (mkV3 0 0 (-1)) (mkV3 0 0 1) (3 / 2) = Ok T /\ length T = 1.
Proof.
  assert (0 <= refract_k (mkV3 0 0 (-1)) (mkV3 0 0 1) (3 / 2)) as Hk.
  { unfold refract_k, refract_eta. destruct (Rle_dec _ _); vsimpl; nra. }
  destruct (refract_snell (mkV3 0 0 (-1)) (mkV3 0 0 1) (3 / 2) length_e3_neg length_e3 ltac:(lra) Hk)
    as (T & HT & Hl & _).
  exists T. split; assumption.
Defined.

Lemma refract_total_internal_reflection_witness :
  refract (mkV3 0 0 (1 / 2)) (mkV3 0 0 1) (3 / 2) = Ok (mkV3 1 0 0).
Proof.
  apply refract_total_internal_reflection; [lra | vsimpl; lra |].
  unfold refract_k, refract_eta. destruct (Rle_dec _ _) as [Hd|Hd]; vsimpl; [lra | nra].
Defined.

Lemma refract_zero_index_witness :
  dot (mkV3 0 0 (-1)) (mkV3 0 0 1) <= 0 /\ refract (mkV3 0 0 (-1)) (mkV3 0 0 1) 0 = Err ZeroDivisionError.
Proof.
  assert (dot (mkV3 0 0 (-1)) (mkV3 0 0 1) <= 0) as Hd by (vsimpl; lra).
  split; [exact Hd | apply refract_zero_index, Hd].
Defined.

(** The model on binary64. *)
Example norm_float :
  norm (mkV3 (sZ 3) (sZ 4) (sZ 0) : V3 binary64) = mkV3 (lit 3 5) (lit 4 5) (sZ 0).
Proof. vm_compute. reflexivity. Qed.

End Vec.
