(* ===== verification/Color.v ===== *)
(** The [color] class of src/lib.py.

    [Module Color] translates the record [color] and its methods
    [__add__], [__mul__] and its alias [__rmul__], [__truediv__] and its
    alias [__rtruediv__], [__eq__] (and the [__ne__] Python derives from
    it) and [toBytes], and [color_bytes] the module-level function
    [color(r, g, b)] that the class shadows.  [toBytes] both
    returns the bytes and assigns the clamped channels back to the object;
    the model returns the updated colour next to the bytes.

    Theorems (on the reals): [toBytes] never raises, emits the channels in
    the order B, G, R, each clamped to [0, 255] and truncated; it is
    idempotent, so serialising an already serialised (mutated) colour
    gives the same bytes and leaves it unchanged; integer colours in range
    survive it unchanged.  [__eq__] compares every channel of [self] with
    the red channel of [other], so it is not reflexive, and it coincides
    with channel-wise equality only when [other] is grey.  [toBytes] is
    [color_bytes] of the clamped channels.  [k / c] runs [__rtruediv__],
    that is [c / k]. *)

From S2P Require Import Prelude ScalarR ScalarFloat.

Module Color.

(** Lines 129-130: the module-level function [color(r, g, b)], which
    returns [bytes([b, g, r])].  The class [color] defined after it takes
    its name, so the methods' calls [color(r, g, b)] build objects; the
    function survives only as the byte layout [toBytes] repeats. *)
Definition color_bytes (r g b : Z) : res (list byte) :=
  let* bb := py_byte b in
  let* bg := py_byte g in
  let* br := py_byte r in
  Ok [bb; bg; br].

Record color (F : Type) := mkcolor { r : F; g : F; b : F }.
Arguments mkcolor {F} r g b.
Arguments r {F} c.
Arguments g {F} c.
Arguments b {F} c.

Section Ops.
Context {F : Type} `{Scalar F}.

(** [__add__] *)
Definition add (self other_color : color F) : color F :=
  mkcolor (r self +. r other_color) (g self +. g other_color) (b self +. b other_color).

(** [__mul__], and [__rmul__], which is the same method. *)
Definition mul (self : color F) (other : F) : color F :=
  mkcolor (r self *. other) (g self *. other) (b self *. other).

(** [__truediv__], and [__rtruediv__], which is the same method: so
    [k / c] computes [c / k].  Division by zero raises at the red
    channel. *)
Definition truediv (self : color F) (other : F) : res (color F) :=
  let* r' := py_div (r self) other in
  let* g' := py_div (g self) other in
  let* b' := py_div (b self) other in
  Ok (mkcolor r' g' b').

(** [__rmul__ = __mul__]: [k * c] calls [c.__rmul__(k)]. *)
Definition rmul (self : color F) (other : F) : color F := mul self other.

(** [__rtruediv__ = __truediv__]: [k / c] calls [c.__rtruediv__(k)],
    which divides the channels of [c] by [k]. *)
Definition rtruediv (self : color F) (other : F) : res (color F) := truediv self other.

(** [__eq__]; [None] is an [other] that is [None] or not a [color].  The
    source compares [(self.r, self.g, self.b)] with
    [(other.r, other.r, other.r)]. *)
Definition eq (self : color F) (other : option (color F)) : bool :=
  match other with
  | None => false
  | Some o => (r self ==. r o) && (g self ==. r o) && (b self ==. r o)
  end.

(** [!=], which Python 3 derives from [__eq__]. *)
Definition ne (self : color F) (other : option (color F)) : bool :=
  negb (eq self other).

(** [int(max(min(v, 255), 0))]; [int] raises [ValueError] on NaN. *)
Definition clamp_channel (v : F) : res Z :=
  match s_trunc (py_max (py_min v (sZ 255)) (sZ 0)) with
  | Some n => Ok n
  | None => Err ValueError
  end.

(** [toBytes]: the three assignments to [self], then
    [bytes([self.b, self.g, self.r])]. *)
Definition toBytes (self : color F) : res (list byte * color F) :=
  let* r' := clamp_channel (r self) in
  let* g' := clamp_channel (g self) in
  let* b' := clamp_channel (b self) in
  let self' := mkcolor (sZ r') (sZ g') (sZ b') in
  let* bb := py_byte b' in
  let* bg := py_byte g' in
  let* br := py_byte r' in
  Ok ([bb; bg; br], self').
End Ops.

(** [toBytes] is the module-level [color(r, g, b)] of line 129 applied
    to the clamped channels: it raises what the clamping raises, then
    returns exactly the bytes [bytes([b, g, r])] of the integers it
    stores back into the object. *)
Theorem toBytes_color_bytes {F : Type} `{Scalar F} (c : color F) :
  toBytes c =
  let* r' := clamp_channel (r c) in
  let* g' := clamp_channel (g c) in
  let* b' := clamp_channel (b c) in
  res_map (fun bs => (bs, mkcolor (sZ r') (sZ g') (sZ b'))) (color_bytes r' g' b').
Proof.
  unfold toBytes, color_bytes.
  destruct (clamp_channel (r c)) as [r'|]; [|reflexivity].
  destruct (clamp_channel (g c)) as [g'|]; [|reflexivity].
  destruct (clamp_channel (b c)) as [b'|]; [|reflexivity]. simpl.
  destruct (py_byte b'), (py_byte g'), (py_byte r'); reflexivity.
Qed.

(** ** Running the model on binary64 *)

Example toBytes_float :
  toBytes (mkcolor (lit 601 2) (sZ (-5)) (lit 255 2) : color binary64) =
  Ok ([Byte.x7f; Byte.x00; Byte.xff], mkcolor (sZ 255) (sZ 0) (sZ 127)).
Proof. vm_compute. reflexivity. Qed.

Example eq_float_not_reflexive :
  eq (mkcolor (sZ 1) (sZ 2) (sZ 3) : color binary64) (Some (mkcolor (sZ 1) (sZ 2) (sZ 3))) = false.
Proof. vm_compute. reflexivity. Qed.

(** ** Theorems on the reals *)

Open Scope R_scope.

(** The integer [toBytes] stores for a channel [v]. *)
Definition clampZ (v : R) : Z := R_trunc (Rmax (Rmin v 255) 0).

Lemma clamp_channel_R (v : R) : clamp_channel v = Ok (clampZ v).
Proof. unfold clamp_channel. rsimpl. reflexivity. Qed.

Lemma clampZ_range (v : R) : (0 <= clampZ v <= 255)%Z.
Proof.
  unfold clampZ. apply R_trunc_bounds; [|lia].
  split; [apply Rmax_r|]. apply Rmax_lub; [apply Rmin_r | lra].
Qed.

Lemma clampZ_IZR (n : Z) : (0 <= n <= 255)%Z -> clampZ (IZR n) = n.
Proof.
  intros Hn. unfold clampZ.
  assert (0 <= IZR n <= 255) as [H0 H1] by (split; apply IZR_le; lia).
  rewrite Rmin_left, Rmax_left by lra. apply R_trunc_IZR.
Qed.

#[export] Hint Rewrite clamp_channel_R : rsimpl.

(** [toBytes] on a colour whose channels are the integers [nr], [ng],
    [nb] of [0, 255]: the shared core of the theorems below. *)
Lemma toBytes_of_ints (c : color R) (nr ng nb : Z) :
  clampZ (r c) = nr -> clampZ (g c) = ng -> clampZ (b c) = nb ->
  exists bs, toBytes c = Ok (bs, mkcolor (IZR nr) (IZR ng) (IZR nb)) /\
    map byte_value bs = [nb; ng; nr].
Proof.
  intros <- <- <-. unfold toBytes. rsimpl. res_simpl.
  pose proof (py_byte_ok (clampZ (b c)) (clampZ_range _)) as (bb & Eb & _).
  pose proof (py_byte_ok (clampZ (g c)) (clampZ_range _)) as (bg & Eg & _).
  pose proof (py_byte_ok (clampZ (r c)) (clampZ_range _)) as (br & Er & _).
  rewrite Eb, Eg, Er. eexists; split; [reflexivity|]. simpl.
  rewrite (py_byte_value _ _ Eb), (py_byte_value _ _ Eg), (py_byte_value _ _ Er).
  reflexivity.
Qed.

(** C17: [toBytes] never raises on real channels.  It emits three bytes,
    in the order B, G, R, and each is its channel clamped to [0, 255] and
    truncated.  It also stores these integers back into the colour. *)
Theorem toBytes_clamps (c : color R) :
  exists bs, toBytes c = Ok (bs, mkcolor (IZR (clampZ (r c))) (IZR (clampZ (g c))) (IZR (clampZ (b c)))) /\
    map byte_value bs = [clampZ (b c); clampZ (g c); clampZ (r c)] /\
    Forall (fun n => 0 <= n <= 255)%Z [clampZ (b c); clampZ (g c); clampZ (r c)].
Proof.
  destruct (toBytes_of_ints c _ _ _ eq_refl eq_refl eq_refl) as (bs & Hbs & Hmap).
  exists bs. split; [exact Hbs|]. split; [exact Hmap|].
  repeat constructor; apply clampZ_range.
Qed.

(** The clamping is the saturating truncation the spec asks for:
    [0] below [0], [255] above [255], and the floor in between. *)
Theorem clampZ_spec (v : R) :
  (v <= 0 -> clampZ v = 0%Z) /\ (255 <= v -> clampZ v = 255%Z) /\
  (0 <= v <= 255 -> IZR (clampZ v) <= v < IZR (clampZ v) + 1).
Proof.
  unfold clampZ. split; [|split].
  - intros Hv. rewrite Rmin_left, Rmax_right by lra. apply (R_trunc_IZR 0).
  - intros Hv. rewrite Rmin_right, Rmax_left by lra. apply (R_trunc_IZR 255).
  - intros Hv. rewrite Rmin_left, Rmax_left by lra. apply R_trunc_nonneg. lra.
Qed.

(** [toBytes] is idempotent.  Serialising the mutated colour again
    gives the same bytes and leaves it unchanged.  So a colour object
    shared by many pixels, or serialised twice, is written the same way
    every time. *)
Theorem toBytes_idempotent (c c' : color R) (bs : list byte) :
  toBytes c = Ok (bs, c') -> toBytes c' = Ok (bs, c').
Proof.
  intros H. destruct (toBytes_of_ints c _ _ _ eq_refl eq_refl eq_refl) as (bs0 & Hbs & Hmap).
  rewrite H in Hbs. injection Hbs as -> ->.
  destruct (toBytes_of_ints (mkcolor (IZR (clampZ (r c))) (IZR (clampZ (g c))) (IZR (clampZ (b c))))
              (clampZ (r c)) (clampZ (g c)) (clampZ (b c)))
    as (bs1 & Hbs1 & Hmap1); simpl; try (apply clampZ_IZR, clampZ_range).
  rewrite Hbs1. do 2 f_equal. apply byte_value_inj. congruence.
Qed.

(** A colour whose channels are integers of [0, 255] survives
    [toBytes] unchanged, and its bytes decode to those integers, in the
    order B, G, R. *)
Theorem toBytes_ints_roundtrip (nr ng nb : Z) :
  (0 <= nr <= 255)%Z -> (0 <= ng <= 255)%Z -> (0 <= nb <= 255)%Z ->
  exists bs, toBytes (mkcolor (IZR nr) (IZR ng) (IZR nb)) = Ok (bs, mkcolor (IZR nr) (IZR ng) (IZR nb)) /\
    map byte_value bs = [nb; ng; nr].
Proof. intros Hr Hg Hb. apply toBytes_of_ints; simpl; apply clampZ_IZR; assumption. Qed.

Lemma eq_spec_R (c o : color R) :
  eq c (Some o) = true <-> r c = r o /\ g c = r o /\ b c = r o.
Proof.
  unfold eq. rsimpl. repeat rcase; simpl; intuition congruence.
Qed.

(** C18: [color.__eq__] compares all three channels of [self] with the
    red channel of [other]. *)
Theorem eq_compares_red (c o : color R) :
  eq c (Some o) = true <-> r c = r o /\ g c = r o /\ b c = r o.
Proof. apply eq_spec_R. Qed.

(** So [__eq__] is not reflexive: a colour whose channels differ is
    not equal to itself. *)
Theorem eq_not_reflexive : exists c : color R, eq c (Some c) = false.
Proof.
  exists (mkcolor 1 2 3). destruct (eq _ _) eqn:E; [|reflexivity].
  apply eq_spec_R in E. simpl in E. lra.
Qed.

(** Against a grey colour (all channels equal, like the background
    [BLACK]), [__eq__] is channel-wise equality, so [render]'s test
    [ver_rojo != self.background_color] is right. *)
Theorem eq_grey_iff (c o : color R) :
  r o = g o -> g o = b o -> (eq c (Some o) = true <-> c = o).
Proof.
  intros Hrg Hgb. rewrite eq_spec_R. destruct c, o; simpl in * . subst. split.
  - intros (-> & -> & ->). reflexivity.
  - intros E. injection E as -> -> ->. auto.
Qed.

(** C36: [__rtruediv__ = __truediv__], so [k / c] divides the channels of
    [c] by [k]: on the reals it gives [c / k] for [k <> 0] (not the
    channel-wise [k / c]), and raises [ZeroDivisionError] for [k = 0]
    whatever the channels. *)
Theorem rtruediv_divides_self (c : color R) (k : R) :
  (k <> 0 -> rtruediv c k = Ok (mkcolor (r c / k) (g c / k) (b c / k))) /\
  rtruediv c 0 = Err ZeroDivisionError.
Proof.
  unfold rtruediv, truediv. split.
  - intros Hk. rewrite !R_py_div by exact Hk. reflexivity.
  - unfold py_div. rsimpl. rcase; [reflexivity | congruence].
Qed.

(** ** Witnesses *)

Lemma toBytes_idempotent_witness :
  exists bs c', toBytes (mkcolor 10 20 30) = Ok (bs, c') /\ toBytes c' = Ok (bs, c').
Proof.
  destruct (toBytes_of_ints (mkcolor 10 20 30) 10 20 30) as (bs & Hbs & _);
    try (apply clampZ_IZR; lia).
  exists bs, (mkcolor 10 20 30). split; [exact Hbs|].
  exact (toBytes_idempotent (mkcolor 10 20 30) (mkcolor 10 20 30) bs Hbs).
Defined.

Lemma toBytes_ints_roundtrip_witness :
  exists bs, toBytes (mkcolor 10 20 30) = Ok (bs, mkcolor 10 20 30) /\ map byte_value bs = [30; 20; 10]%Z.
Proof. apply toBytes_ints_roundtrip; lia. Defined.

Lemma eq_grey_iff_witness :
  eq (mkcolor 0 0 0) (Some (mkcolor 0 0 0)) = true <-> mkcolor 0 0 0 = mkcolor (F := R) 0 0 0.
Proof. apply eq_grey_iff; reflexivity. Defined.

Lemma rtruediv_divides_self_witness :
  rtruediv (mkcolor 30 60 90) 3 = Ok (mkcolor (30 / 3) (60 / 3) (90 / 3)).
Proof. apply (rtruediv_divides_self (mkcolor 30 60 90) 3). lra. Defined.

End Color.
