(* ===== verification/Scene.v ===== *)
(** Scene data and the nearest-hit search of src/ray.py.

    [Module Scene] holds the records of src/lib.py and src/ray.py that
    describe a scene ([Light], [Intersect], [Material]), the module-level
    constants of ray.py, the interface [Intersectable] that scene objects
    satisfy (the [Sphere] of sphere.py and any other object with a method
    [ray_intersect] and a field [material]), and
    [Raycaster.scene_intersect].

    [scene_intersect] is a left fold with a z-buffer that starts at
    [float('inf')] and keeps a hit only when it is strictly closer.  Its
    abstract specification [nearest_ref] is the first hit of minimal
    distance in scene order; the theorems show the refinement on the reals
    (and the characterisation by indices: minimal distance, earliest index
    among the minimal ones), and the empty-scene case.  The class
    [IntersectableLaws] states the contract of the Intersection Protocol
    (a hit lies on the ray at a non-negative distance), and
    [scene_intersect] is shown to keep it.  On any scalar, the hit it
    reports is the hit of one object of the scene, with its material. *)

From S2P Require Import Prelude ScalarR ScalarFloat Vec Color.

Module Scene.

(** [class Light]: [Light(position=V3(0, 0, 0), intensity=1)]. *)
Record Light (F : Type) := mkLight { position : Vec.V3 F; intensity : F }.
Arguments mkLight {F} position intensity.
Arguments position {F} l.
Arguments intensity {F} l.

(** [class Intersect].  The constructor's defaults [point=None] and
    [normal=None] are never used by the shader, which reads both fields. *)
Record Intersect (F : Type) := mkIntersect { distance : F; point : Vec.V3 F; normal : Vec.V3 F }.
Arguments mkIntersect {F} distance point normal.
Arguments distance {F} i.
Arguments point {F} i.
Arguments normal {F} i.

(** [class Material].  The constructor stores [diffuse], [albedo] and
    [spec]; [cast_ray] also reads [material.refractive_index], which the
    constructor never sets: the field is [None] unless the attribute was
    added to the object afterwards. *)
Record Material (F : Type) := mkMaterial {
  diffuse : Color.color F;
  albedo : list F;
  spec : nat;
  refractive_index : option F
}.
Arguments mkMaterial {F} diffuse albedo spec refractive_index.
Arguments diffuse {F} m.
Arguments albedo {F} m.
Arguments spec {F} m.
Arguments refractive_index {F} m.

(** A scene object as the shader sees it: the method [ray_intersect] and
    the field [material]. *)
Record Obj (F : Type) := mkObj {
  ray_intersect : Vec.V3 F -> Vec.V3 F -> option (Intersect F);
  material : Material F
}.
Arguments mkObj {F} ray_intersect material.
Arguments ray_intersect {F} o orig direction.
Arguments material {F} o.

(** The interface a type of scene objects implements. *)
Class Intersectable (F T : Type) := {
  obj_ray_intersect : T -> Vec.V3 F -> Vec.V3 F -> option (Intersect F);
  obj_material : T -> Material F
}.

Definition to_obj {F T : Type} `{Intersectable F T} (t : T) : Obj F :=
  mkObj (obj_ray_intersect t) (obj_material t).

Section Defs.
Context {F : Type} `{Scalar F}.

Definition Light_init (position : Vec.V3 F) (intensity : F) : Light F :=
  mkLight position intensity.

Definition Light_default : Light F := Light_init (Vec.mkV3 (sZ 0) (sZ 0) (sZ 0)) (sZ 1).

Definition Material_init (diffuse : Color.color F) (albedo : list F) (spec : nat) : Material F :=
  mkMaterial diffuse albedo spec None.

Definition esferas : Material F :=
  Material_init (Color.mkcolor (sZ 255) (sZ 0) (sZ 0)) [lit 6 10; lit 3 10; lit 1 10; sZ 0] 5.

Definition BLACK : Color.color F := Color.mkcolor (sZ 0) (sZ 0) (sZ 0).
Definition WHITE : Color.color F := Color.mkcolor (sZ 255) (sZ 255) (sZ 255).
Definition BACKGROUND : Color.color F := Color.mkcolor (sZ 200) (sZ 200) (sZ 190).

(** [hit.distance < zbuffer], with [None] for [float('inf')]. *)
Definition closer (d : F) (zbuffer : option F) : bool :=
  match zbuffer with
  | None => s_lt_inf d
  | Some zb => d <. zb
  end.

(** One iteration of the loop of [scene_intersect] over the state
    [(zbuffer, (material, intersect))]. *)
Definition scene_intersect_step (orig direction : Vec.V3 F)
    (acc : option F * option (Material F * Intersect F)) (obj : Obj F) :=
  match ray_intersect obj orig direction with
  | Some hit =>
      if closer (distance hit) (fst acc) then (Some (distance hit), Some (material obj, hit))
      else acc
  | None => acc
  end.

(** [Raycaster.scene_intersect]: [None] is the pair [(None, None)]. *)
Definition scene_intersect (scene : list (Obj F)) (orig direction : Vec.V3 F)
    : option (Material F * Intersect F) :=
  snd (fold_left (scene_intersect_step orig direction) scene (None, None)).

(** The abstract specification: the first hit of least distance in
    scene order. *)
Definition hit_of (orig direction : Vec.V3 F) (obj : Obj F) : option (Material F * Intersect F) :=
  match ray_intersect obj orig direction with
  | Some h => Some (material obj, h)
  | None => None
  end.

(** The earlier of two candidates unless the later is strictly closer. *)
Definition pick (a c : option (Material F * Intersect F)) : option (Material F * Intersect F) :=
  match a, c with
  | Some p, Some q => if distance (snd q) <. distance (snd p) then c else a
  | None, _ => c
  | _, None => a
  end.

Definition nearest_ref (scene : list (Obj F)) (orig direction : Vec.V3 F)
    : option (Material F * Intersect F) :=
  fold_right (fun obj acc => pick (hit_of orig direction obj) acc) None scene.
End Defs.

Section Origin.
Context {F : Type} `{Scalar F}.

Lemma fold_scene_intersect_from (scene : list (Obj F)) orig direction acc m h :
  snd (fold_left (scene_intersect_step orig direction) scene acc) = Some (m, h) ->
  snd acc = Some (m, h) \/
  exists obj, In obj scene /\ material obj = m /\ ray_intersect obj orig direction = Some h.
Proof.
  revert acc. induction scene as [|obj l IH]; intros acc E; simpl in E; [left; exact E|].
  destruct (IH _ E) as [E'|(o & Ho & Hm & Hr)]; [|right; exists o; simpl; auto].
  unfold scene_intersect_step in E'.
  destruct (ray_intersect obj orig direction) as [hit|] eqn:Ehit; [|left; exact E'].
  destruct (closer _ _); [|left; exact E'].
  injection E' as <- <-. right. exists obj. simpl. auto.
Qed.

(** For every scalar domain, the hit [scene_intersect] reports is a hit
    of an object of the scene, with that object's material. *)
Lemma scene_intersect_from (scene : list (Obj F)) orig direction m h :
  scene_intersect scene orig direction = Some (m, h) ->
  exists obj, In obj scene /\ material obj = m /\ ray_intersect obj orig direction = Some h.
Proof.
  intros E. destruct (fold_scene_intersect_from scene orig direction (None, None) m h E)
    as [[=]|Ho]; exact Ho.
Qed.
End Origin.

(** ** Refinement on the reals *)

Open Scope R_scope.

Definition zb_of (f : option (Material R * Intersect R)) : option R :=
  match f with Some p => Some (distance (snd p)) | None => None end.

(** The loop invariant: the z-buffer is the distance of the hit kept. *)
Lemma scene_intersect_step_inv (orig direction : Vec.V3 R) f (obj : Obj R) :
  scene_intersect_step orig direction (zb_of f, f) obj =
  (zb_of (pick f (hit_of orig direction obj)), pick f (hit_of orig direction obj)).
Proof.
  unfold scene_intersect_step, hit_of, pick, closer.
  destruct (ray_intersect obj orig direction) as [h|]; destruct f as [[m' h']|];
    simpl; rsimpl; try reflexivity.
  rcase; reflexivity.
Qed.

Lemma fold_scene_intersect_step (orig direction : Vec.V3 R) (l : list (Obj R)) f :
  fold_left (scene_intersect_step orig direction) l (zb_of f, f) =
  let f' := fold_left (fun acc obj => pick acc (hit_of orig direction obj)) l f in (zb_of f', f').
Proof.
  revert f. induction l as [|obj l IH]; intros f; simpl; [reflexivity|].
  rewrite scene_intersect_step_inv. apply IH.
Qed.

Lemma pick_None_r (a : option (Material R * Intersect R)) : pick a None = a.
Proof. destruct a; reflexivity. Qed.

(** [pick] is associative on a total order: both sides keep the leftmost
    least candidate. *)
Lemma pick_assoc (a c e : option (Material R * Intersect R)) :
  pick (pick a c) e = pick a (pick c e).
Proof.
  destruct a as [p|], c as [q|], e as [t|]; simpl; try reflexivity;
    rsimpl; repeat (rcase; simpl; rsimpl); try reflexivity; lra.
Qed.

Lemma fold_pick (orig direction : Vec.V3 R) (l : list (Obj R)) f :
  fold_left (fun acc obj => pick acc (hit_of orig direction obj)) l f =
  pick f (nearest_ref l orig direction).
Proof.
  revert f. induction l as [|obj l IH]; intros f; simpl.
  - symmetry. apply pick_None_r.
  - rewrite IH. apply pick_assoc.
Qed.

Lemma scene_intersect_nearest_ref (scene : list (Obj R)) (orig direction : Vec.V3 R) :
  scene_intersect scene orig direction = nearest_ref scene orig direction.
Proof.
  unfold scene_intersect.
  pose proof (fold_scene_intersect_step orig direction scene None) as E. cbn [zb_of] in E.
  rewrite E. simpl. rewrite fold_pick. reflexivity.
Qed.

Lemma nearest_ref_None (scene : list (Obj R)) (orig direction : Vec.V3 R) :
  nearest_ref scene orig direction = None <->
  forall obj, In obj scene -> hit_of orig direction obj = None.
Proof.
  induction scene as [|obj l IH]; simpl; [split; [intros _ ? []|reflexivity]|].
  destruct (hit_of orig direction obj) as [p|] eqn:Eh;
    destruct (nearest_ref l orig direction) as [q|] eqn:Er; simpl.
  - split; [|intros Hall; rewrite (Hall obj (or_introl eq_refl)) in Eh; discriminate].
    rsimpl. rcase; discriminate.
  - split; [discriminate|]. intros Hall. rewrite (Hall obj (or_introl eq_refl)) in Eh; discriminate.
  - split; [discriminate|]. intros Hall. apply IH. intros o Ho. apply Hall. auto.
  - split; [|reflexivity]. intros _ o [<-|Ho]; [exact Eh|]. apply IH; auto.
Qed.

Lemma nearest_ref_least (l : list (Obj R)) (orig direction : Vec.V3 R) q :
  nearest_ref l orig direction = Some q ->
  forall j obj p, l !! j = Some obj -> hit_of orig direction obj = Some p ->
    distance (snd q) <= distance (snd p).
Proof.
  revert q. induction l as [|obj l IH]; intros q; simpl; [discriminate|].
  destruct (hit_of orig direction obj) as [p0|] eqn:Eh;
    destruct (nearest_ref l orig direction) as [q'|] eqn:Er; simpl; rsimpl.
  - rcase; intros [= <-] [|j] o p Hj Ep; simpl in Hj.
    + injection Hj as <-. rewrite Eh in Ep. injection Ep as <-. lra.
    + eapply IH; eauto.
    + injection Hj as <-. rewrite Eh in Ep. injection Ep as <-. lra.
    + specialize (IH q' eq_refl j o p Hj Ep). lra.
  - intros [= <-] [|j] o p Hj Ep; simpl in Hj.
    + injection Hj as <-. rewrite Eh in Ep. injection Ep as <-. lra.
    + rewrite (proj1 (nearest_ref_None l orig direction) Er o (lookup_In _ _ _ Hj)) in Ep.
      discriminate.
  - intros Hq [|j] o p Hj Ep; simpl in Hj; [injection Hj as <-; congruence | eapply IH; eauto].
  - discriminate.
Qed.

(** The candidate [q] of the tail is least there; a better head wins. *)
Definition least_from (l : list (Obj R)) (orig direction : Vec.V3 R) (i : nat) (h : Intersect R) : Prop :=
  (forall j obj p, l !! j = Some obj -> hit_of orig direction obj = Some p -> distance h <= distance (snd p)) /\
  (forall j obj p, (j < i)%nat -> l !! j = Some obj -> hit_of orig direction obj = Some p ->
     distance h < distance (snd p)).

Lemma least_from_cons_head (obj : Obj R) l orig direction (p : Material R * Intersect R) :
  hit_of orig direction obj = Some p ->
  (forall j obj' p', l !! j = Some obj' -> hit_of orig direction obj' = Some p' -> distance (snd p) <= distance (snd p')) ->
  least_from (obj :: l) orig direction 0 (snd p).
Proof.
  intros Eh Hl. split; [|intros j ? ? Hj; lia].
  intros [|j] obj' p' Hj Eh'; simpl in Hj; [injection Hj as <-; rewrite Eh in Eh'; injection Eh' as <-; lra|].
  eapply Hl; eauto.
Qed.

Lemma least_from_cons_tail (obj : Obj R) l orig direction i (h : Intersect R) :
  least_from l orig direction i h ->
  (forall p, hit_of orig direction obj = Some p -> distance h < distance (snd p)) ->
  least_from (obj :: l) orig direction (S i) h.
Proof.
  intros [Hle Hlt] Hhd. split.
  - intros [|j] obj' p Hj Eh; simpl in Hj; [injection Hj as <-; apply Rlt_le, Hhd, Eh|eauto].
  - intros [|j] obj' p Hji Hj Eh; simpl in Hj; [injection Hj as <-; apply Hhd, Eh|].
    apply (Hlt j obj' p); [lia | exact Hj | exact Eh].
Qed.

Lemma nearest_ref_Some (scene : list (Obj R)) (orig direction : Vec.V3 R) m h :
  nearest_ref scene orig direction = Some (m, h) ->
  exists i obj, scene !! i = Some obj /\ hit_of orig direction obj = Some (m, h) /\
    least_from scene orig direction i h.
Proof.
  induction scene as [|obj l IH]; simpl; [discriminate|].
  destruct (hit_of orig direction obj) as [p|] eqn:Eh;
    destruct (nearest_ref l orig direction) as [q|] eqn:Er; simpl; rsimpl.
  - rcase; intros [= ->].
    + destruct (IH eq_refl) as (i & o & Hi & Ho & Hleast). exists (S i), o.
      split; [exact Hi|]. split; [exact Ho|].
      apply least_from_cons_tail; [exact Hleast|]. intros p' Ep. rewrite Eh in Ep.
      injection Ep as <-. exact r.
    + exists 0%nat, obj. split; [reflexivity|]. split; [exact Eh|].
      apply (least_from_cons_head obj l orig direction (m, h) Eh).
      intros j o p' Hj Ep'. pose proof (nearest_ref_least l orig direction q Er j o p' Hj Ep').
      simpl in * . lra.
  - intros [= ->]. exists 0%nat, obj. split; [reflexivity|]. split; [exact Eh|].
    apply (least_from_cons_head obj l orig direction (m, h) Eh).
    intros j o p' Hj Ep'.
    rewrite (proj1 (nearest_ref_None l orig direction) Er o (lookup_In _ _ _ Hj)) in Ep'.
    discriminate.
  - intros Hq. destruct (IH Hq) as (i & o & Hi & Ho & Hleast). exists (S i), o.
    split; [exact Hi|]. split; [exact Ho|].
    apply least_from_cons_tail; [exact Hleast|]. intros p' Ep. congruence.
  - discriminate.
Qed.

(** C7: refinement.  On the reals, [scene_intersect]'s z-buffer loop
    computes the abstract nearest hit, the first hit of least distance. *)
Theorem scene_intersect_refines (scene : list (Obj R)) (orig direction : Vec.V3 R) :
  scene_intersect scene orig direction = nearest_ref scene orig direction.
Proof.
  unfold scene_intersect. pose proof (fold_scene_intersect_step orig direction scene None) as E.
  cbn [zb_of] in E. rewrite E. simpl. apply fold_pick.
Qed.

Lemma hit_of_Some (orig direction : Vec.V3 R) (obj : Obj R) m h :
  hit_of orig direction obj = Some (m, h) <-> ray_intersect obj orig direction = Some h /\ material obj = m.
Proof.
  unfold hit_of. destruct (ray_intersect obj orig direction); split;
    [intros [= <- <-]; auto | intros [[= ->] <-]; reflexivity | discriminate | intros [? _]; discriminate].
Qed.

(** C8: when [scene_intersect] reports a hit [(m, h)], [h] is the hit of
    some object [i] of material [m], no object is hit closer, and every
    object before [i] is hit strictly farther: ties go to the first
    object in scene order. *)
Theorem scene_intersect_nearest (scene : list (Obj R)) (orig direction : Vec.V3 R) m h :
  scene_intersect scene orig direction = Some (m, h) ->
  exists i obj, scene !! i = Some obj /\ ray_intersect obj orig direction = Some h /\
    material obj = m /\ least_from scene orig direction i h.
Proof.
  rewrite scene_intersect_nearest_ref. intros Hs.
  destruct (nearest_ref_Some scene orig direction m h Hs) as (i & obj & Hi & Ho & Hl).
  apply hit_of_Some in Ho as [Ho Hm]. exists i, obj. auto.
Qed.

(** A scene of one object reports that object's hit. *)
Lemma scene_intersect_single (obj : Obj R) (orig direction : Vec.V3 R) :
  scene_intersect [obj] orig direction = hit_of orig direction obj.
Proof. unfold scene_intersect, hit_of. simpl. unfold scene_intersect_step. case_match; reflexivity. Qed.

Lemma scene_intersect_None_iff (scene : list (Obj R)) (orig direction : Vec.V3 R) :
  scene_intersect scene orig direction = None <->
  forall obj, In obj scene -> ray_intersect obj orig direction = None.
Proof.
  rewrite scene_intersect_nearest_ref, nearest_ref_None.
  split; intros Hall obj Hin; specialize (Hall obj Hin); unfold hit_of in *;
    destruct (ray_intersect obj orig direction); congruence.
Qed.

(** The material [scene_intersect] reports is the material of an object of
    the scene. *)
Lemma scene_intersect_material (scene : list (Obj R)) (orig direction : Vec.V3 R) m h :
  scene_intersect scene orig direction = Some (m, h) -> exists obj, In obj scene /\ material obj = m.
Proof.
  rewrite scene_intersect_nearest_ref. intros Hs.
  destruct (nearest_ref_Some scene orig direction m h Hs) as (i & obj & Hi & Ho & _).
  apply hit_of_Some in Ho as [_ Hm]. exists obj. split; [eapply lookup_In; eauto | exact Hm].
Qed.

(** [scene_intersect] reports no hit exactly when no object is hit. *)
Theorem scene_intersect_miss (scene : list (Obj R)) (orig direction : Vec.V3 R) :
  scene_intersect scene orig direction = None <->
  forall obj, In obj scene -> ray_intersect obj orig direction = None.
Proof. apply scene_intersect_None_iff. Qed.

(** ** The Intersection Protocol as a contract

    The spec asks of every scene object that a hit it reports lies on the
    ray, at a distance that is not negative.  [IntersectableLaws] states
    this contract on the reals for a type with an [Intersectable]
    instance; [scene_intersect] keeps it for any scene of such objects. *)
Class IntersectableLaws (T : Type) `{Intersectable R T} := {
  hit_on_ray : forall (t : T) orig direction h, obj_ray_intersect t orig direction = Some h ->
    0 <= distance h /\ point h = Vec.sum orig (Vec.mul direction (distance h))
}.

Section Protocol.
Context {T : Type} `{IntersectableLaws T}.

(** A hit that [scene_intersect] reports on a scene of objects honouring
    the contract honours it too, and comes from one of them. *)
Theorem scene_intersect_on_ray (ts : list T) (orig direction : Vec.V3 R) m h :
  scene_intersect (map to_obj ts) orig direction = Some (m, h) ->
  (exists t, In t ts /\ obj_ray_intersect t orig direction = Some h /\ obj_material t = m) /\
  0 <= distance h /\ point h = Vec.sum orig (Vec.mul direction (distance h)).
Proof.
  rewrite scene_intersect_nearest_ref. intros Hs.
  destruct (nearest_ref_Some _ orig direction m h Hs) as (i & obj & Hi & Ho & _).
  apply hit_of_Some in Ho as [Ho Hm]. apply lookup_In, in_map_iff in Hi as (t & <- & Ht).
  split; [exists t; auto|]. exact (hit_on_ray t orig direction h Ho).
Qed.
End Protocol.

(** ** Witnesses *)

Definition hit0 : Intersect R := mkIntersect 2 (Vec.mkV3 0 0 (-2)) (Vec.mkV3 0 0 1).
Definition red_matte : Material R := Material_init (Color.mkcolor 255 0 0) [1; 0; 0; 0] 5.
Definition const_obj (m : Material R) : Obj R := mkObj (fun _ _ => Some hit0) m.

Lemma scene_intersect_nearest_witness :
  exists i obj, [const_obj red_matte] !! i = Some obj /\
    ray_intersect obj (Vec.mkV3 0 0 0) (Vec.mkV3 0 0 (-1)) = Some hit0 /\ material obj = red_matte /\
    least_from [const_obj red_matte] (Vec.mkV3 0 0 0) (Vec.mkV3 0 0 (-1)) i hit0.
Proof. apply scene_intersect_nearest. reflexivity. Defined.

(** An object touching every ray at its origin, to exercise the contract. *)
#[local] Instance touch_intersectable : Intersectable R unit := {
  obj_ray_intersect := fun _ orig _ => Some (mkIntersect 0 orig (Vec.mkV3 0 0 1));
  obj_material := fun _ => red_matte
}.

#[local] Instance touch_laws : IntersectableLaws unit.
Proof. constructor. intros _ orig direction h [= <-]. simpl. split; [lra|]. Vec.vext; ring. Qed.

Lemma scene_intersect_on_ray_witness :
  (exists t, In t [tt] /\ obj_ray_intersect t (Vec.mkV3 1 2 3) (Vec.mkV3 0 0 1) =
     Some (mkIntersect 0 (Vec.mkV3 1 2 3) (Vec.mkV3 0 0 1)) /\ obj_material t = red_matte) /\
  0 <= distance (mkIntersect 0 (Vec.mkV3 1 2 3) (Vec.mkV3 0 0 1)) /\
  point (mkIntersect 0 (Vec.mkV3 1 2 3) (Vec.mkV3 0 0 1)) =
    Vec.sum (Vec.mkV3 1 2 3) (Vec.mul (Vec.mkV3 0 0 1) (distance (mkIntersect 0 (Vec.mkV3 1 2 3) (Vec.mkV3 0 0 1)))).
Proof. apply (scene_intersect_on_ray [tt]). reflexivity. Defined.

End Scene.
