(* ===== verification/Sphere.v ===== *)
(** A sphere for the Intersection Protocol.

    sphere.py, which defines the [Sphere] that ray.py imports, is not
    among the sources; this file models it from the spec (section 4.2 and
    the test of section 8): a centre, a radius and a material, and
    [ray_intersect] by the geometric method (the closest approach [tca]
    of the ray to the centre, the squared distance [d2] of the line from
    the centre, the half chord [thc], the near root [t0] and the far root
    [t1] when the origin is inside).

    Theorems: the sphere honours the contract [Scene.IntersectableLaws]
    (a hit is on the ray, at a distance that is not negative), so
    [scene_intersect] on a scene of spheres keeps it; a ray from distance
    [d > r] aimed at the centre hits at distance [d - r], at the point of
    the sphere facing the origin, with the outward normal.  For a unit
    direction every hit of a sphere, and so every hit [scene_intersect]
    reports on a scene of spheres, lies on the sphere, at its distance
    along the ray, with the outward unit normal. *)

From S2P Require Import Prelude ScalarR ScalarFloat Vec Color Scene.

Module Sphere.
Import Scene.

Record Sphere (F : Type) := mkSphere { center : Vec.V3 F; radius : F; sphere_material : Material F }.
Arguments mkSphere {F} center radius sphere_material.
Arguments center {F} s.
Arguments radius {F} s.
Arguments sphere_material {F} s.

Section Defs.
Context {F : Type} `{Scalar F}.

(** [Sphere.ray_intersect(orig, direction)] *)
Definition ray_intersect (s : Sphere F) (orig direction : Vec.V3 F) : option (Intersect F) :=
  let L := Vec.sub (center s) orig in
  let tca := Vec.dot L direction in
  let l := Vec.length L in
  let d2 := l *. l -. tca *. tca in
  if radius s *. radius s <. d2 then None else
  let thc := s_sqrt (radius s *. radius s -. d2) in
  let t0 := tca -. thc in
  let t1 := tca +. thc in
  let t0 := if t0 <. sZ 0 then t1 else t0 in
  if t0 <. sZ 0 then None else
  let hit := Vec.sum orig (Vec.mul direction t0) in
  let normal := Vec.norm (Vec.sub hit (center s)) in
  Some (mkIntersect t0 hit normal).

#[export] Instance sphere_intersectable : Intersectable F (Sphere F) := {
  obj_ray_intersect := ray_intersect;
  obj_material := sphere_material
}.
End Defs.

(** ** Running the model on binary64 *)

(** A unit sphere three units in front of the origin is hit at distance 2. *)
Example ray_intersect_float :
  option_map distance
    (ray_intersect (mkSphere (Vec.mkV3 (sZ 0) (sZ 0) (sZ (-3))) (sZ 1) esferas : Sphere binary64)
       (Vec.mkV3 (sZ 0) (sZ 0) (sZ 0)) (Vec.mkV3 (sZ 0) (sZ 0) (sZ (-1)))) = Some (sZ 2).
Proof. vm_compute. reflexivity. Qed.

(** ** Theorems on the reals *)

Open Scope R_scope.

#[export] Instance sphere_laws : IntersectableLaws (Sphere R).
Proof.
  constructor. intros s orig direction h. cbn [obj_ray_intersect sphere_intersectable].
  unfold ray_intersect. cbv zeta. rsimpl. repeat rcase; intros E; try discriminate;
    injection E as <-; simpl; split; (reflexivity || lra).
Qed.

Lemma length_of_dot (v : Vec.V3 R) (r : R) : 0 <= r -> Vec.dot v v = r * r -> Vec.length v = r.
Proof.
  intros Hr E. assert (Vec.length v = sqrt (Vec.dot v v)) as -> by reflexivity.
  rewrite E. apply sqrt_sqr_id, Hr.
Qed.

(** The squared distance from [c] of the point at distance [t] along the
    ray, as a polynomial in [t]. *)
Lemma ray_point_dist_sq (c o d : Vec.V3 R) (t : R) :
  Vec.dot (Vec.sub (Vec.sum o (Vec.mul d t)) c) (Vec.sub (Vec.sum o (Vec.mul d t)) c) =
  t * t * Vec.dot d d - 2 * t * Vec.dot (Vec.sub c o) d + Vec.dot (Vec.sub c o) (Vec.sub c o).
Proof. Vec.vsimpl. ring. Qed.

(** Both roots of the geometric method lie on the sphere. *)
Lemma root_on_sphere (c o d : Vec.V3 R) (r t : R) :
  Vec.dot d d = 1 -> 0 < r ->
  let L := Vec.sub c o in
  let tca := Vec.dot L d in
  let d2 := Vec.length L * Vec.length L - tca * tca in
  d2 <= r * r ->
  t = tca - sqrt (r * r - d2) \/ t = tca + sqrt (r * r - d2) ->
  Vec.length (Vec.sub (Vec.sum o (Vec.mul d t)) c) = r.
Proof.
  intros Hd Hr L tca d2 Hd2 Ht. apply length_of_dot; [lra|].
  rewrite ray_point_dist_sq, Hd. fold L tca.
  assert (sqrt (r * r - d2) * sqrt (r * r - d2) = r * r - d2) as Hs by (apply sqrt_sqrt; lra).
  assert (d2 = Vec.dot L L - tca * tca) as E2 by (unfold d2; rewrite Vec.length_sq; ring).
  set (q := sqrt _) in * . clearbody d2. subst d2. destruct Ht as [-> | ->]; lra.
Qed.

(** Geometric correctness of the sphere's intersection test: for a unit
    direction and a positive radius, a hit is the point at its distance
    along the ray, on the sphere, with the outward unit normal. *)
Lemma ray_intersect_on_surface (s : Sphere R) (orig direction : Vec.V3 R) (h : Intersect R) :
  Vec.dot direction direction = 1 -> 0 < radius s -> ray_intersect s orig direction = Some h ->
  point h = Vec.sum orig (Vec.mul direction (distance h)) /\
  Vec.length (Vec.sub (point h) (center s)) = radius s /\
  normal h = Vec.mul (Vec.sub (point h) (center s)) (/ radius s).
Proof.
  intros Hd Hr. unfold ray_intersect. cbv zeta. rsimpl.
  pose proof (root_on_sphere (center s) orig direction (radius s)) as Hroot. cbv zeta in Hroot.
  repeat rcase; intros E; try discriminate; injection E as <-; cbn [point normal distance];
    match goal with |- context [Vec.sum orig (Vec.mul direction ?t)] =>
      assert (Vec.length (Vec.sub (Vec.sum orig (Vec.mul direction t)) (center s)) = radius s) as Hl
        by (apply Hroot; first [exact Hd | exact Hr | (left; reflexivity) | (right; reflexivity) | lra])
    end;
    (split; [reflexivity | split; [exact Hl | rewrite Vec.norm_as_mul, Hl by lra; reflexivity]]).
Qed.

(** C24: on a scene of spheres, as in ray.py, the hit [scene_intersect]
    reports for a unit direction comes from one of the spheres, with its
    material, and lies on that sphere at its distance along the ray, with
    the outward unit normal [(hit - center) / radius]. *)
Theorem scene_intersect_spheres_on_surface (ss : list (Sphere R)) (orig direction : Vec.V3 R) m h :
  Vec.dot direction direction = 1 -> (forall s, In s ss -> 0 < radius s) ->
  scene_intersect (map to_obj ss) orig direction = Some (m, h) ->
  exists s, In s ss /\ sphere_material s = m /\
    point h = Vec.sum orig (Vec.mul direction (distance h)) /\
    Vec.length (Vec.sub (point h) (center s)) = radius s /\
    normal h = Vec.mul (Vec.sub (point h) (center s)) (/ radius s).
Proof.
  intros Hd Hr E. destruct (scene_intersect_from _ _ _ _ _ E) as (obj & Hin & <- & Hh).
  apply in_map_iff in Hin as (s & <- & Hs). exists s. split; [exact Hs|]. split; [reflexivity|].
  exact (ray_intersect_on_surface s orig direction h Hd (Hr s Hs) Hh).
Qed.

(** The test of the spec: a sphere of radius [r] and a ray from
    distance [d > r] aimed at its centre along a unit direction [u]: the
    hit is at distance [d - r], at the point [c - r u] facing the origin,
    with the outward normal [-u]. *)
Theorem ray_intersect_head_on (c u : Vec.V3 R) (r d : R) (m : Material R) :
  Vec.dot u u = 1 -> 0 < r < d ->
  ray_intersect (mkSphere c r m) (Vec.sub c (Vec.mul u d)) u =
  Some (mkIntersect (d - r) (Vec.sub c (Vec.mul u r)) (Vec.mul u (-1))).
Proof.
  intros Hu Hr. unfold ray_intersect. cbn [center radius]. cbv zeta.
  assert (Vec.sub c (Vec.sub c (Vec.mul u d)) = Vec.mul u d) as -> by (Vec.vext; ring).
  assert (Vec.length u = 1) as Hl by (apply Vec.length_unit_iff, Hu).
  rewrite Vec.length_mul, Hl by lra.
  assert (Vec.dot (Vec.mul u d) u = d) as ->
    by (transitivity (d * Vec.dot u u); [Vec.vsimpl; ring | rewrite Hu; ring]).
  rsimpl. replace (d * 1 * (d * 1) - d * d) with 0 by ring. replace (r * r - 0) with (r * r) by ring.
  rewrite sqrt_square by lra.
  repeat rcase; try nra. f_equal. f_equal.
  - Vec.vext; ring.
  - replace (Vec.sub (Vec.sum (Vec.sub c (Vec.mul u d)) (Vec.mul u (d - r))) c) with (Vec.mul (Vec.mul u (-1)) r)
      by (Vec.vext; ring).
    rewrite Vec.norm_mul_pos by lra. apply Vec.norm_unit.
    rewrite Vec.length_unit_iff, <- Hu. Vec.vsimpl. ring.
Qed.

(** C23: the test of the spec on the scene of ray.py, one sphere: a ray
    from distance [d > r] aimed at the centre of a sphere of radius [r]
    along a unit direction makes [scene_intersect] report the sphere's
    material and a hit at distance [d - r], at the point of the sphere
    facing the origin, with the outward normal. *)
Theorem scene_intersect_one_sphere (s : Sphere R) (u : Vec.V3 R) (d : R) :
  Vec.dot u u = 1 -> 0 < radius s < d ->
  scene_intersect [to_obj s] (Vec.sub (center s) (Vec.mul u d)) u =
  Some (sphere_material s,
        mkIntersect (d - radius s) (Vec.sub (center s) (Vec.mul u (radius s))) (Vec.mul u (-1))).
Proof.
  intros Hu Hr. destruct s as [c r m]. cbn [center radius sphere_material] in * .
  rewrite scene_intersect_single. unfold hit_of. cbn [to_obj Scene.ray_intersect Scene.material].
  cbn [obj_ray_intersect obj_material sphere_intersectable sphere_material].
  rewrite ray_intersect_head_on by assumption. reflexivity.
Qed.

(** ** Witnesses *)

(** The scene of ray.py: [Sphere(V3(0, -1, -10), 2, esferas)], seen from
    12 units along [-z]. *)
Lemma scene_intersect_one_sphere_witness :
  scene_intersect [to_obj (mkSphere (Vec.mkV3 0 (-1) (-10)) 2 esferas)]
    (Vec.sub (Vec.mkV3 0 (-1) (-10)) (Vec.mul (Vec.mkV3 0 0 (-1)) 12)) (Vec.mkV3 0 0 (-1)) =
  Some (esferas, mkIntersect (12 - 2) (Vec.sub (Vec.mkV3 0 (-1) (-10)) (Vec.mul (Vec.mkV3 0 0 (-1)) 2))
                   (Vec.mul (Vec.mkV3 0 0 (-1)) (-1))).
Proof. apply (scene_intersect_one_sphere (mkSphere (Vec.mkV3 0 (-1) (-10)) 2 esferas)); [Vec.vsimpl; ring | simpl; lra]. Defined.

(** A ray from 12 units along [-z] towards the sphere of ray.py. *)
Lemma scene_intersect_spheres_on_surface_witness :
  exists s, In s [mkSphere (Vec.mkV3 0 (-1) (-10)) 2 esferas] /\ sphere_material s = esferas /\
    Vec.sub (Vec.mkV3 0 (-1) (-10)) (Vec.mul (Vec.mkV3 0 0 (-1)) 2) =
      Vec.sum (Vec.sub (Vec.mkV3 0 (-1) (-10)) (Vec.mul (Vec.mkV3 0 0 (-1)) 12))
        (Vec.mul (Vec.mkV3 0 0 (-1)) (12 - 2)) /\
    Vec.length (Vec.sub (Vec.sub (Vec.mkV3 0 (-1) (-10)) (Vec.mul (Vec.mkV3 0 0 (-1)) 2)) (center s)) = radius s /\
    Vec.mul (Vec.mkV3 0 0 (-1)) (-1) =
      Vec.mul (Vec.sub (Vec.sub (Vec.mkV3 0 (-1) (-10)) (Vec.mul (Vec.mkV3 0 0 (-1)) 2)) (center s)) (/ radius s).
Proof.
  apply (scene_intersect_spheres_on_surface [mkSphere (Vec.mkV3 0 (-1) (-10)) 2 esferas]
           (Vec.sub (Vec.mkV3 0 (-1) (-10)) (Vec.mul (Vec.mkV3 0 0 (-1)) 12)) (Vec.mkV3 0 0 (-1)) esferas
           (mkIntersect (12 - 2) (Vec.sub (Vec.mkV3 0 (-1) (-10)) (Vec.mul (Vec.mkV3 0 0 (-1)) 2))
              (Vec.mul (Vec.mkV3 0 0 (-1)) (-1)))).
  - Vec.vsimpl. ring.
  - intros s [<- | []]. simpl. lra.
  - cbn [map]. rewrite scene_intersect_single. unfold hit_of. cbn [to_obj Scene.ray_intersect Scene.material].
    cbn [obj_ray_intersect obj_material sphere_intersectable sphere_material].
    rewrite ray_intersect_head_on by (Vec.vsimpl; (ring || lra)). reflexivity.
Defined.

End Sphere.
