(* ===== verification/Shading.v ===== *)
(** The recursive shader [Raycaster.cast_ray] of src/ray.py.

    [Module Shading] holds the state of a [Raycaster] object (its
    attributes [width], [height], [background_color], [scene], [light] and
    [pixels]) and [cast_ray].  The body of [cast_ray] is
    [cast_ray_body], in which the recursive call [self.cast_ray(o, d,
    recursion + 1)] is the argument [cast_next]; [cast_ray_fuel] ties the
    knot with fuel.  Python raises for a missing attribute or a short
    albedo tuple, and [refract] may raise [ZeroDivisionError]: these are
    [Err] results.

    Theorems: with fuel [MAX_RECURSION_DEPTH - recursion + 1] the model
    never runs out of fuel, and more fuel gives the same result, so
    [cast_ray] is total and the call tree is at most
    [MAX_RECURSION_DEPTH + 1] calls deep; on any scene where every ray
    hits a reflective material that depth is reached.  A miss returns the
    background, as does the depth limit.  The error paths: on a scene of
    [Material] objects ([init_scene]) [cast_ray] raises only
    [AttributeError], and does raise it at a hit on a material with
    refractive weight (no [refractive_index] attribute) and in a
    raycaster without [light]; an albedo tuple of fewer than three
    weights raises [IndexError].  Materials without reflective and
    refractive weight make no recursive call.  Safety: once [light] is
    set, materials of four albedo weights and no refractive weight
    ([safe_scene]) make [cast_ray] return a colour on every ray.  The
    shadow test: at an opaque hit, a shadow ray stopped before the light
    darkens the colour by [0.9] of its diffuse term, strictly when that
    term is positive, and leaves the specular highlight as it is. *)

From S2P Require Import Prelude ScalarR ScalarFloat Vec Color Scene.
From Stdlib Require Import FunctionalExtensionality.

Module Shading.
Import Scene.

(** The attributes of a [Raycaster] object: [__init__] sets [width],
    [height], [background_color = BLACK], [scene = []] and [pixels]
    (through [glClear]); [light] is assigned from outside.  The frame
    buffer holds references to colour objects: [pixels] are identities
    into the store [objects], [background_loc] is the identity of the
    object [background_color] (the module constant [BLACK]) and
    [next_loc] the next fresh identity. *)
Record Raycaster (F : Type) := mkRaycaster {
  width : Z;
  height : Z;
  background_color : Color.color F;
  background_loc : loc;
  scene : list (Obj F);
  light : option (Light F);
  pixels : list (list loc);
  objects : gmap loc (Color.color F);
  next_loc : loc
}.
Arguments mkRaycaster {F} width height background_color background_loc scene light pixels objects next_loc.
Arguments width {F} r.
Arguments height {F} r.
Arguments background_color {F} r.
Arguments background_loc {F} r.
Arguments scene {F} r.
Arguments light {F} r.
Arguments pixels {F} r.
Arguments objects {F} r.
Arguments next_loc {F} r.

Definition MAX_RECURSION_DEPTH : nat := 3.

Section CastRay.
Context {F : Type} `{Scalar F}.

(** The origin of a secondary ray, pushed off the surface on the side
    the ray leaves to (lines 105, 112 and 120). *)
Definition offset_orig (point offset_normal dir normal : Vec.V3 F) : Vec.V3 F :=
  if Vec.dot dir normal <. sZ 0 then Vec.sub point offset_normal
  else Vec.sum point offset_normal.

(** The body of [cast_ray]; [cast_next o d] is
    [self.cast_ray(o, d, recursion + 1)]. *)
Definition cast_ray_body (cast_next : Vec.V3 F -> Vec.V3 F -> res (Color.color F))
    (self : Raycaster F) (orig direction : Vec.V3 F) (recursion : nat) : res (Color.color F) :=
  match scene_intersect (scene self) orig direction with
  | None => Ok (background_color self)
  | Some (material, intersect) =>
    if (MAX_RECURSION_DEPTH <=? recursion)%nat then Ok (background_color self) else
    let offset_normal := Vec.mul (normal intersect) (lit 11 10) in
    let* a2 := py_getitem (albedo material) 2 in
    let* reflect_color :=
      if sZ 0 <. a2 then
        let reverse_direction := Vec.mul direction (sZ (-1)) in
        let reflect_dir := Vec.reflect reverse_direction (normal intersect) in
        let reflect_orig := offset_orig (point intersect) offset_normal reflect_dir (normal intersect) in
        cast_next reflect_orig reflect_dir
      else Ok (Color.mkcolor (sZ 0) (sZ 0) (sZ 0)) in
    let* a3 := py_getitem (albedo material) 3 in
    let* refract_color :=
      if sZ 0 <. a3 then
        let* ri := py_attr (refractive_index material) in
        let* refract_dir := Vec.refract direction (normal intersect) ri in
        let refract_orig := offset_orig (point intersect) offset_normal refract_dir (normal intersect) in
        cast_next refract_orig refract_dir
      else Ok (Color.mkcolor (sZ 0) (sZ 0) (sZ 0)) in
    let* lgt := py_attr (light self) in
    let light_dir := Vec.norm (Vec.sub (position lgt) (point intersect)) in
    let light_distance := Vec.length (Vec.sub (position lgt) (point intersect)) in
    let shadow_orig := offset_orig (point intersect) offset_normal light_dir (normal intersect) in
    let shadow_intensity :=
      match scene_intersect (scene self) shadow_orig light_dir with
      | Some (_, shadow_intersect) =>
          if Vec.length (Vec.sub (point shadow_intersect) shadow_orig) <. light_distance
          then lit 9 10 else sZ 0
      | None => sZ 0
      end in
    let intensity :=
      intensity lgt *. py_max (sZ 0) (Vec.dot light_dir (normal intersect)) *. (sZ 1 -. shadow_intensity) in
    let reflection := Vec.reflect light_dir (normal intersect) in
    let specular_intensity :=
      Scene.intensity lgt *. py_pow (py_max (sZ 0) (s_opp (Vec.dot reflection direction))) (spec material) in
    let* a0 := py_getitem (albedo material) 0 in
    let diffuse := Color.mul (Color.mul (diffuse material) intensity) a0 in
    let* a1 := py_getitem (albedo material) 1 in
    let specular := Color.mul (Color.mul (Color.mkcolor (sZ 255) (sZ 255) (sZ 255)) specular_intensity) a1 in
    let* a2' := py_getitem (albedo material) 2 in
    let reflection := Color.mul reflect_color a2' in
    let* a3' := py_getitem (albedo material) 3 in
    let refraction := Color.mul refract_color a3' in
    Ok (Color.add (Color.add (Color.add diffuse specular) reflection) refraction)
  end.

Fixpoint cast_ray_fuel (fuel : nat) (self : Raycaster F) (orig direction : Vec.V3 F)
    (recursion : nat) : res (Color.color F) :=
  match fuel with
  | O => Err OutOfFuel
  | S fuel' =>
      cast_ray_body (fun o d => cast_ray_fuel fuel' self o d (recursion + 1))
        self orig direction recursion
  end.

(** [cast_ray(orig, direction, recursion)], with the fuel the depth
    bound needs: one call per level from [recursion] to the limit. *)
Definition cast_ray (self : Raycaster F) (orig direction : Vec.V3 F) (recursion : nat)
    : res (Color.color F) :=
  cast_ray_fuel (S (MAX_RECURSION_DEPTH - recursion)) self orig direction recursion.
End CastRay.

(** ** Fuel, termination and the depth bound *)

Section Fuel.
Context {F : Type} `{Scalar F}.

Lemma cast_ray_body_limit cast_next (self : Raycaster F) orig direction recursion :
  (MAX_RECURSION_DEPTH <= recursion)%nat ->
  cast_ray_body cast_next self orig direction recursion = Ok (background_color self).
Proof.
  intros Hr. unfold cast_ray_body.
  destruct (scene_intersect _ _ _) as [[m h]|]; [|reflexivity].
  destruct (Nat.leb_spec MAX_RECURSION_DEPTH recursion); [reflexivity | lia].
Qed.

(** The body reads its recursive call only through its values. *)
Lemma cast_ray_body_ext cast1 cast2 (self : Raycaster F) orig direction recursion :
  (forall o d, cast1 o d = cast2 o d) ->
  cast_ray_body cast1 self orig direction recursion = cast_ray_body cast2 self orig direction recursion.
Proof.
  intros E. replace cast2 with cast1; [reflexivity|].
  extensionality o. extensionality d. apply E.
Qed.

Lemma refract_no_oof (I N : Vec.V3 F) (ri : F) : Vec.refract I N ri <> Err OutOfFuel.
Proof.
  unfold Vec.refract. repeat case_match;
    (apply no_oof_bind; [apply py_div_no_oof | intros ? _; case_match; discriminate]).
Qed.

(** The body runs out of fuel only through its recursive call. *)
Lemma cast_ray_body_no_oof cast_next (self : Raycaster F) orig direction recursion :
  (forall o d, cast_next o d <> Err OutOfFuel) ->
  cast_ray_body cast_next self orig direction recursion <> Err OutOfFuel.
Proof.
  intros Hcn. unfold cast_ray_body.
  destruct (scene_intersect _ _ _) as [[m h]|]; [|discriminate].
  destruct (_ <=? _)%nat; [discriminate|].
  repeat first
    [ apply no_oof_bind; [|intros ? ?]
    | discriminate
    | apply py_getitem_no_oof
    | apply py_attr_no_oof
    | apply refract_no_oof
    | apply Hcn
    | progress case_match ].
Qed.

Lemma cast_ray_fuel_stable (n m : nat) (self : Raycaster F) orig direction recursion :
  (MAX_RECURSION_DEPTH - recursion <= n)%nat -> (MAX_RECURSION_DEPTH - recursion <= m)%nat ->
  cast_ray_fuel (S n) self orig direction recursion = cast_ray_fuel (S m) self orig direction recursion.
Proof.
  revert m orig direction recursion.
  induction n as [|n IH]; intros m orig direction recursion Hn Hm; simpl.
  - rewrite !cast_ray_body_limit by lia. reflexivity.
  - destruct (le_lt_dec MAX_RECURSION_DEPTH recursion) as [Hl|Hl].
    + rewrite !cast_ray_body_limit by lia. reflexivity.
    + destruct m as [|m]; [lia|]. apply cast_ray_body_ext. intros o d. apply IH; lia.
Qed.

Lemma cast_ray_fuel_no_oof (n : nat) (self : Raycaster F) orig direction recursion :
  (MAX_RECURSION_DEPTH - recursion <= n)%nat ->
  cast_ray_fuel (S n) self orig direction recursion <> Err OutOfFuel.
Proof.
  revert orig direction recursion.
  induction n as [|n IH]; intros orig direction recursion Hn; simpl.
  - rewrite cast_ray_body_limit by lia. discriminate.
  - apply cast_ray_body_no_oof. intros o d. apply IH. lia.
Qed.

(** C3: termination.  Any fuel above [MAX_RECURSION_DEPTH - recursion]
    gives [cast_ray]'s result, and that result is never fuel
    exhaustion: the recursion stops after at most
    [MAX_RECURSION_DEPTH - recursion + 1] nested calls, whatever the
    scene and the albedo weights. *)
Theorem cast_ray_terminates (fuel : nat) (self : Raycaster F) orig direction recursion :
  (MAX_RECURSION_DEPTH - recursion < fuel)%nat ->
  cast_ray_fuel fuel self orig direction recursion = cast_ray self orig direction recursion /\
  cast_ray self orig direction recursion <> Err OutOfFuel.
Proof.
  intros Hf. destruct fuel as [|n]; [lia|]. split.
  - apply cast_ray_fuel_stable; lia.
  - apply cast_ray_fuel_no_oof. lia.
Qed.

(** C32: at the depth limit [cast_ray] returns the background without
    shading, whatever the ray hits. *)
Theorem cast_ray_depth_limit (self : Raycaster F) orig direction recursion :
  (MAX_RECURSION_DEPTH <= recursion)%nat ->
  cast_ray self orig direction recursion = Ok (background_color self).
Proof. intros Hr. unfold cast_ray. simpl. apply cast_ray_body_limit. exact Hr. Qed.
(** C4: the depth bound of the termination theorem is exact.  When every ray hits a material
    whose reflective weight [albedo[2]] is positive (a scene of mirrors),
    [cast_ray] recurses down to the limit: fuel for fewer than
    [MAX_RECURSION_DEPTH - recursion + 1] nested calls runs out, so the
    call tree is that deep. *)
Theorem cast_ray_depth_reached (self : Raycaster F) (n : nat) orig direction recursion :
  (forall o d, exists m h a2, scene_intersect (scene self) o d = Some (m, h) /\
     py_getitem (albedo m) 2 = Ok a2 /\ (sZ 0 <. a2) = true) ->
  (n + recursion <= MAX_RECURSION_DEPTH)%nat ->
  cast_ray_fuel n self orig direction recursion = Err OutOfFuel.
Proof.
  intros Hall. revert orig direction recursion.
  induction n as [|n IH]; intros orig direction recursion Hn; [reflexivity|].
  cbn [cast_ray_fuel]. unfold cast_ray_body.
  destruct (Hall orig direction) as (m & h & a2 & -> & Ha2 & Hpos).
  destruct (Nat.leb_spec MAX_RECURSION_DEPTH recursion); [lia|].
  rewrite Ha2. cbn [res_bind]. rewrite Hpos, IH by lia. reflexivity.
Qed.
End Fuel.

(** ** Safety: the scenes on which [cast_ray] never raises *)

Section Safety.
Context {F : Type} `{Scalar F}.

(** A raycaster whose light is set and whose materials carry four albedo
    weights, the last (refractive) one not positive: the scenes of the
    program, where [refractive_index] is never read. *)
Definition safe_scene (self : Raycaster F) : Prop :=
  is_Some (light self) /\
  forall obj, In obj (scene self) ->
    exists a0 a1 a2 a3, albedo (material obj) = [a0; a1; a2; a3] /\ (sZ 0 <. a3) = false.

(** On a safe scene the body raises only what its recursive call raises. *)
Lemma cast_ray_body_safe cast_next (self : Raycaster F) orig direction recursion e :
  safe_scene self ->
  cast_ray_body cast_next self orig direction recursion = Err e ->
  exists o d, cast_next o d = Err e.
Proof.
  intros [[lgt Hl] Hobj] E. unfold cast_ray_body in E.
  destruct (scene_intersect _ _ _) as [[m h]|] eqn:Es; [|discriminate].
  destruct (_ <=? _)%nat; [discriminate|].
  destruct (scene_intersect_from _ _ _ _ _ Es) as (obj & Hin & <- & _).
  destruct (Hobj obj Hin) as (a0 & a1 & a2 & a3 & Hal & Ha3). rewrite Hal, Hl in E.
  destruct (py_getitem_four a0 a1 a2 a3 []) as (G0 & G1 & G2 & G3). rewrite G2, G3, G0, G1 in E.
  cbn [res_bind py_attr] in E.
  destruct (sZ 0 <. a2).
  - apply res_bind_Err_inv in E as [Ecn|(rc & _ & E2)]; [eauto|].
    rewrite Ha3 in E2. discriminate.
  - simpl in E. rewrite Ha3 in E. discriminate.
Qed.

(** On a safe scene, [cast_ray] with any fuel raises nothing but fuel
    exhaustion. *)
Lemma cast_ray_fuel_safe (n : nat) (self : Raycaster F) orig direction recursion e :
  safe_scene self -> cast_ray_fuel n self orig direction recursion = Err e -> e = OutOfFuel.
Proof.
  intros Hs. revert orig direction recursion. induction n as [|n IH]; intros orig direction recursion E.
  - injection E as <-. reflexivity.
  - simpl in E. destruct (cast_ray_body_safe _ _ _ _ _ _ Hs E) as (o & d & Ecn). exact (IH _ _ _ Ecn).
Qed.

(** C2: safety.  Once its light is set, a raycaster whose materials have
    four albedo weights and no refractive weight (as [esferas]) never
    raises in [cast_ray]: every call returns a colour. *)
Theorem cast_ray_safe (self : Raycaster F) orig direction recursion :
  safe_scene self -> exists c, cast_ray self orig direction recursion = Ok c.
Proof.
  intros Hs. destruct (cast_ray self orig direction recursion) as [c|e] eqn:E; [eauto|].
  exfalso. pose proof (cast_ray_fuel_safe _ _ _ _ _ _ Hs E) as ->.
  exact (cast_ray_fuel_no_oof (MAX_RECURSION_DEPTH - recursion) self orig direction recursion (le_n _) E).
Qed.
End Safety.

(** ** The depth bound is reached: a mirror in front of every ray *)

Definition mirror_material : Material binary64 :=
  mkMaterial (Color.mkcolor (sZ 255) (sZ 255) (sZ 255)) [sZ 0; sZ 0; sZ 1; sZ 0] 5 None.

Definition mirror_obj : Obj binary64 :=
  mkObj (fun _ _ => Some (mkIntersect (sZ 1) (Vec.mkV3 (sZ 0) (sZ 0) (sZ 0)) (Vec.mkV3 (sZ 0) (sZ 0) (sZ 1))))
    mirror_material.

Definition mirror_raycaster : Raycaster binary64 :=
  mkRaycaster 1 1 BLACK 1%positive [mirror_obj] (Some (mkLight (Vec.mkV3 (sZ 0) (sZ 0) (sZ 10)) (sZ 1))) [] {[1%positive := BLACK]} 2%positive.

Definition origin : Vec.V3 binary64 := Vec.mkV3 (sZ 0) (sZ 0) (sZ 0).
Definition minus_z : Vec.V3 binary64 := Vec.mkV3 (sZ 0) (sZ 0) (sZ (-1)).

(** ** Error paths and shading on the reals *)

(** Enter the body of [cast_ray] at a hit below the depth limit. *)
Ltac enter_hit Hs :=
  unfold cast_ray; simpl; unfold cast_ray_body; rewrite Hs;
  match goal with |- context [(?a <=? ?b)%nat] => destruct (Nat.leb_spec a b); [lia|] end.

(** An albedo tuple with fewer than three weights makes [cast_ray]
    raise [IndexError] at [material.albedo[2]] on any hit below the depth
    limit. *)
Theorem cast_ray_short_albedo {F : Type} `{Scalar F} (self : Raycaster F) orig direction recursion m h :
  scene_intersect (scene self) orig direction = Some (m, h) ->
  (recursion < MAX_RECURSION_DEPTH)%nat -> (length (albedo m) <= 2)%nat ->
  cast_ray self orig direction recursion = Err IndexError.
Proof.
  intros Hs Hr Hl. enter_hit Hs. rewrite py_getitem_out by lia. reflexivity.
Qed.

Open Scope R_scope.

(** C15: when no object is hit, [cast_ray] returns the background colour
    (the spec's "see background" outcome; in particular for the empty
    scene). *)
Theorem cast_ray_miss (self : Raycaster R) orig direction recursion :
  (forall obj, In obj (scene self) -> ray_intersect obj orig direction = None) ->
  cast_ray self orig direction recursion = Ok (background_color self).
Proof.
  intros Hmiss. unfold cast_ray. simpl. unfold cast_ray_body.
  rewrite (proj2 (scene_intersect_None_iff _ _ _) Hmiss). reflexivity.
Qed.

(** ** Error paths on scenes of [Material] objects *)

Section Errors.
Context {F : Type} `{Scalar F}.

(** Every object of the scene carries a material built by
    [Material(diffuse, albedo, spec)] with at least four albedo weights:
    [refractive_index] is never set. *)
Definition init_scene (self : Raycaster F) : Prop :=
  forall obj, In obj (scene self) ->
    exists dc al s, material obj = Material_init dc al s /\ (4 <= length al)%nat.

Lemma init_scene_hit (self : Raycaster F) orig direction m h :
  init_scene self -> scene_intersect (scene self) orig direction = Some (m, h) ->
  exists dc a0 a1 a2 a3 rest s, m = Material_init dc (a0 :: a1 :: a2 :: a3 :: rest) s.
Proof.
  intros Hi Hs. destruct (scene_intersect_from _ _ _ _ _ Hs) as (obj & Hin & <- & _).
  destruct (Hi obj Hin) as (dc & al & s & -> & Hal).
  destruct al as [|a0 [|a1 [|a2 [|a3 rest]]]]; cbn [length] in Hal; [lia..|]. eauto 10.
Qed.

(** On such a scene the body raises [AttributeError] or what its
    recursive call raises. *)
Lemma cast_ray_body_errors cast_next (self : Raycaster F) orig direction recursion e :
  init_scene self -> cast_ray_body cast_next self orig direction recursion = Err e ->
  e = AttributeError \/ exists o d, cast_next o d = Err e.
Proof.
  intros Hi E. unfold cast_ray_body in E.
  destruct (scene_intersect _ _ _) as [[m h]|] eqn:Es; [|discriminate].
  destruct (_ <=? _)%nat; [discriminate|].
  destruct (init_scene_hit _ _ _ _ _ Hi Es) as (dc & a0 & a1 & a2 & a3 & rest & s & ->).
  unfold Material_init in E. cbn [albedo refractive_index] in E.
  destruct (py_getitem_four a0 a1 a2 a3 rest) as (G0 & G1 & G2 & G3). rewrite G2, G3, G0, G1 in E.
  cbn [res_bind] in E.
  destruct (sZ 0 <. a2);
    [ match type of E with context [cast_next ?o ?d] => destruct (cast_next o d) as [c|e'] eqn:Ecn end;
      cbn [res_bind] in E; [|right; injection E as ->; eauto] | ];
    (destruct (sZ 0 <. a3); cbn [res_bind py_attr] in E; [left; congruence|];
     destruct (light self); cbn [res_bind py_attr] in E; [discriminate | left; congruence]).
Qed.
Lemma cast_ray_fuel_errors (n : nat) (self : Raycaster F) orig direction recursion e :
  init_scene self -> cast_ray_fuel n self orig direction recursion = Err e ->
  e = AttributeError \/ e = OutOfFuel.
Proof.
  intros Hi. revert orig direction recursion. induction n as [|n IH]; intros orig direction recursion E.
  - injection E as <-. right. reflexivity.
  - cbn [cast_ray_fuel] in E. destruct (cast_ray_body_errors _ _ _ _ _ _ Hi E) as [-> | (o & d & Ecn)];
      [left; reflexivity | exact (IH _ _ _ Ecn)].
Qed.

(** On a scene of [Material] objects, [AttributeError] is the only
    exception [cast_ray] raises. *)
Lemma cast_ray_errors (self : Raycaster F) orig direction recursion e :
  init_scene self -> cast_ray self orig direction recursion = Err e -> e = AttributeError.
Proof.
  intros Hi E. destruct (cast_ray_fuel_errors _ _ _ _ _ _ Hi E) as [-> | ->]; [reflexivity|].
  exfalso. exact (cast_ray_fuel_no_oof (MAX_RECURSION_DEPTH - recursion) self orig direction recursion (le_n _) E).
Qed.

(** At a hit below the depth limit whose material has a positive
    refractive weight, or when [light] was never assigned, [cast_ray]
    raises: either its reflected ray raises, or it reads the missing
    [refractive_index] or [light]. *)
Lemma cast_ray_hit_raises (self : Raycaster F) orig direction recursion m h :
  init_scene self -> scene_intersect (scene self) orig direction = Some (m, h) ->
  (recursion < MAX_RECURSION_DEPTH)%nat ->
  (exists a3, py_getitem (albedo m) 3 = Ok a3 /\ (sZ 0 <. a3) = true) \/ light self = None ->
  exists e, cast_ray self orig direction recursion = Err e.
Proof.
  intros Hi Hs Hr Hcase. unfold cast_ray. cbn [cast_ray_fuel]. unfold cast_ray_body. rewrite Hs.
  destruct (Nat.leb_spec MAX_RECURSION_DEPTH recursion); [lia|].
  destruct (init_scene_hit _ _ _ _ _ Hi Hs) as (dc & a0 & a1 & a2 & a3 & rest & s & ->).
  unfold Material_init in * . cbn [albedo refractive_index] in * .
  destruct (py_getitem_four a0 a1 a2 a3 rest) as (G0 & G1 & G2 & G3). rewrite G2, G3, G0, G1.
  cbn [res_bind].
  destruct (sZ 0 <. a2);
    [ match goal with |- context [cast_ray_fuel ?n self ?o ?d ?r] =>
        destruct (cast_ray_fuel n self o d r) as [c|e'] end; cbn [res_bind]; [|eauto] | ];
    (destruct Hcase as [(a3' & Ha3 & Hpos) | Hl];
     [ rewrite G3 in Ha3; injection Ha3 as <-; rewrite Hpos; cbn [res_bind py_attr]; eauto
     | destruct (sZ 0 <. a3); cbn [res_bind py_attr]; [eauto|]; rewrite Hl; cbn [res_bind py_attr]; eauto ]).
Qed.

(** C16: [Material.__init__] never sets [refractive_index], so on a scene
    of [Material] objects with four albedo weights, a hit below the depth
    limit on a material whose refractive weight [albedo[3]] is positive
    makes [cast_ray] raise [AttributeError], whatever its other weights
    (a reflected ray cast first raises nothing else). *)
Theorem cast_ray_missing_refractive_index (self : Raycaster F) orig direction recursion m h a3 :
  init_scene self -> scene_intersect (scene self) orig direction = Some (m, h) ->
  (recursion < MAX_RECURSION_DEPTH)%nat ->
  py_getitem (albedo m) 3 = Ok a3 -> (sZ 0 <. a3) = true ->
  cast_ray self orig direction recursion = Err AttributeError.
Proof.
  intros Hi Hs Hr Ha3 Hpos.
  destruct (cast_ray_hit_raises self orig direction recursion m h Hi Hs Hr (or_introl (ex_intro _ a3 (conj Ha3 Hpos))))
    as [e E].
  rewrite E. f_equal. exact (cast_ray_errors _ _ _ _ _ Hi E).
Qed.

(** C33: a raycaster whose [light] attribute was never assigned raises
    [AttributeError] in [cast_ray] on any hit below the depth limit, on a
    scene of [Material] objects with four albedo weights. *)
Theorem cast_ray_missing_light (self : Raycaster F) orig direction recursion m h :
  init_scene self -> light self = None -> scene_intersect (scene self) orig direction = Some (m, h) ->
  (recursion < MAX_RECURSION_DEPTH)%nat ->
  cast_ray self orig direction recursion = Err AttributeError.
Proof.
  intros Hi Hl Hs Hr.
  destruct (cast_ray_hit_raises self orig direction recursion m h Hi Hs Hr (or_intror Hl)) as [e E].
  rewrite E. f_equal. exact (cast_ray_errors _ _ _ _ _ Hi E).
Qed.
End Errors.

(** The body does not call its recursive argument at a hit whose material
    has neither reflective nor refractive weight. *)
Lemma cast_ray_body_opaque cast1 cast2 (self : Raycaster R) orig direction recursion :
  (forall obj, In obj (scene self) ->
     exists a0 a1 a2 a3, albedo (material obj) = [a0; a1; a2; a3] /\ a2 <= 0 /\ a3 <= 0) ->
  cast_ray_body cast1 self orig direction recursion = cast_ray_body cast2 self orig direction recursion.
Proof.
  intros Hop. unfold cast_ray_body.
  destruct (scene_intersect (scene self) orig direction) as [[m h]|] eqn:Hs; [|reflexivity].
  destruct (scene_intersect_material _ _ _ _ _ Hs) as (obj & Hin & <-).
  destruct (Hop obj Hin) as (a0 & a1 & a2 & a3 & Ha & H2 & H3).
  destruct (_ <=? _)%nat; [reflexivity|]. rewrite Ha. simpl.
  rcase; [lra|]. simpl. rcase; [lra|]. reflexivity.
Qed.

(** On a scene whose materials have no reflective and no refractive
    weight, [cast_ray] makes no recursive call: one level of fuel gives
    its result. *)
Theorem cast_ray_opaque_no_recursion (self : Raycaster R) orig direction recursion :
  (forall obj, In obj (scene self) ->
     exists a0 a1 a2 a3, albedo (material obj) = [a0; a1; a2; a3] /\ a2 <= 0 /\ a3 <= 0) ->
  cast_ray_fuel 1 self orig direction recursion = cast_ray self orig direction recursion.
Proof. intros Hop. unfold cast_ray. simpl. apply cast_ray_body_opaque, Hop. Qed.

(** ** The shadow test *)

(** The colour [cast_ray] computes at a hit on an opaque material (no
    reflective and no refractive weight) once the light is set, for each
    outcome of the shadow ray: [si] is the shadow intensity, 0.9 when the
    shadow ray hits an object closer than the light, 0 otherwise. *)
Lemma cast_ray_opaque_value (self : Raycaster R) orig direction recursion m h lgt a0 a1 si :
  scene_intersect (scene self) orig direction = Some (m, h) ->
  (recursion < MAX_RECURSION_DEPTH)%nat -> albedo m = [a0; a1; 0; 0] -> light self = Some lgt ->
  let ld := Vec.norm (Vec.sub (position lgt) (point h)) in
  let so := offset_orig (point h) (Vec.mul (normal h) (11 / 10)) ld (normal h) in
  (scene_intersect (scene self) so ld = None /\ si = 0) \/
  (exists m' h', scene_intersect (scene self) so ld = Some (m', h') /\
     (Vec.length (Vec.sub (point h') so) < Vec.length (Vec.sub (position lgt) (point h)) /\ si = 9 / 10 \/
      ~ Vec.length (Vec.sub (point h') so) < Vec.length (Vec.sub (position lgt) (point h)) /\ si = 0)) ->
  cast_ray self orig direction recursion =
  Ok (Color.add (Color.add (Color.add
        (Color.mul (Color.mul (diffuse m) (intensity lgt * Rmax 0 (Vec.dot ld (normal h)) * (1 - si))) a0)
        (Color.mul (Color.mul (Color.mkcolor 255 255 255)
           (intensity lgt * Rmax 0 (- Vec.dot (Vec.reflect ld (normal h)) direction) ^ spec m)) a1))
        (Color.mul (Color.mkcolor 0 0 0) 0)) (Color.mul (Color.mkcolor 0 0 0) 0)).
Proof.
  intros Hs Hr Ha Hl ld so Hsh. unfold cast_ray. cbn [cast_ray_fuel]. unfold cast_ray_body.
  rewrite Hs. destruct (Nat.leb_spec MAX_RECURSION_DEPTH recursion); [lia|].
  rewrite Ha, Hl. destruct (py_getitem_four a0 a1 0 0 []) as (G0 & G1 & G2 & G3).
  rewrite G2, G3, G0, G1. cbn [res_bind py_attr]. rsimpl.
  destruct (Rltb_spec 0 0) as [Hz|_]; [lra|]. cbn [res_bind].
  fold ld so. destruct Hsh as [[-> ->] | (m' & h' & -> & [[Hlt ->] | [Hlt ->]])].
  - reflexivity.
  - rcase; [reflexivity | contradiction].
  - rcase; [contradiction | reflexivity].
Qed.

(** The two scenes of the shadow test: the same primary hit, the shadow
    ray unobstructed in the first and stopped before the light in the
    second. *)
Lemma cast_ray_shadow_channels (self1 self2 : Raycaster R) orig direction recursion m h lgt a0 a1 :
  light self1 = Some lgt -> light self2 = Some lgt ->
  scene_intersect (scene self1) orig direction = Some (m, h) ->
  scene_intersect (scene self2) orig direction = Some (m, h) ->
  (recursion < MAX_RECURSION_DEPTH)%nat -> albedo m = [a0; a1; 0; 0] ->
  let ld := Vec.norm (Vec.sub (position lgt) (point h)) in
  let so := offset_orig (point h) (Vec.mul (normal h) (11 / 10)) ld (normal h) in
  scene_intersect (scene self1) so ld = None ->
  (exists m' h', scene_intersect (scene self2) so ld = Some (m', h') /\
     Vec.length (Vec.sub (point h') so) < Vec.length (Vec.sub (position lgt) (point h))) ->
  let k := 9 / 10 * (intensity lgt * Rmax 0 (Vec.dot ld (normal h)) * a0) in
  exists c1 c2, cast_ray self1 orig direction recursion = Ok c1 /\
    cast_ray self2 orig direction recursion = Ok c2 /\
    Color.r c2 = Color.r c1 - k * Color.r (diffuse m) /\
    Color.g c2 = Color.g c1 - k * Color.g (diffuse m) /\
    Color.b c2 = Color.b c1 - k * Color.b (diffuse m).
Proof.
  intros Hl1 Hl2 Hs1 Hs2 Hr Ha ld so Hfree (m' & h' & Hblk & Hlt) k.
  rewrite (cast_ray_opaque_value self1 orig direction recursion m h lgt a0 a1 0 Hs1 Hr Ha Hl1)
    by (left; split; [exact Hfree | reflexivity]).
  rewrite (cast_ray_opaque_value self2 orig direction recursion m h lgt a0 a1 (9 / 10) Hs2 Hr Ha Hl2)
    by (right; exists m', h'; split; [exact Hblk | left; split; [exact Hlt | reflexivity]]).
  do 2 eexists. split_and!; [reflexivity | reflexivity | ..]; unfold Color.add, Color.mul; cbn [Color.r Color.g Color.b]; rsimpl; unfold k, ld; ring.
Qed.

(** C5: the shadow test of the spec.  Take two scenes in which the
    primary ray hits the same opaque point with the same light, the
    shadow ray reaching the light in the first and stopped by an object
    closer than the light in the second.  If the light's intensity, the
    diffuse weight and the cosine of the light direction with the normal
    are positive and the diffuse colour is non-negative and not black,
    [cast_ray] returns a colour in both scenes, the shadowed one no
    brighter in any channel and strictly darker in total. *)
Theorem cast_ray_shadow_darker (self1 self2 : Raycaster R) orig direction recursion m h lgt a0 a1 :
  light self1 = Some lgt -> light self2 = Some lgt ->
  scene_intersect (scene self1) orig direction = Some (m, h) ->
  scene_intersect (scene self2) orig direction = Some (m, h) ->
  (recursion < MAX_RECURSION_DEPTH)%nat -> albedo m = [a0; a1; 0; 0] ->
  let ld := Vec.norm (Vec.sub (position lgt) (point h)) in
  let so := offset_orig (point h) (Vec.mul (normal h) (11 / 10)) ld (normal h) in
  scene_intersect (scene self1) so ld = None ->
  (exists m' h', scene_intersect (scene self2) so ld = Some (m', h') /\
     Vec.length (Vec.sub (point h') so) < Vec.length (Vec.sub (position lgt) (point h))) ->
  0 < intensity lgt -> 0 < a0 -> 0 < Vec.dot ld (normal h) ->
  0 <= Color.r (diffuse m) -> 0 <= Color.g (diffuse m) -> 0 <= Color.b (diffuse m) ->
  0 < Color.r (diffuse m) + Color.g (diffuse m) + Color.b (diffuse m) ->
  exists c1 c2, cast_ray self1 orig direction recursion = Ok c1 /\
    cast_ray self2 orig direction recursion = Ok c2 /\
    Color.r c2 <= Color.r c1 /\ Color.g c2 <= Color.g c1 /\ Color.b c2 <= Color.b c1 /\
    Color.r c2 + Color.g c2 + Color.b c2 < Color.r c1 + Color.g c1 + Color.b c1.
Proof.
  intros Hl1 Hl2 Hs1 Hs2 Hr Ha ld so Hfree Hblk Hi Ha0 Hd Hdr Hdg Hdb Hsum.
  destruct (cast_ray_shadow_channels self1 self2 orig direction recursion m h lgt a0 a1
              Hl1 Hl2 Hs1 Hs2 Hr Ha Hfree Hblk) as (c1 & c2 & E1 & E2 & Er & Eg & Eb).
  assert (0 < 9 / 10 * (intensity lgt * Rmax 0 (Vec.dot ld (normal h)) * a0)) as Hk.
  { rewrite Rmax_right by lra. apply Rmult_lt_0_compat; [lra|]. apply Rmult_lt_0_compat; [|lra].
    apply Rmult_lt_0_compat; lra. }
  set (k := 9 / 10 * _) in Hk. fold ld k in Er, Eg, Eb.
  exists c1, c2. split_and!; [exact E1 | exact E2 | nra | nra | nra | nra].
Qed.

(** C6: the shadow attenuates the diffuse term only.  In the same two
    scenes, a material with a black diffuse colour (a pure highlight)
    shades exactly the same in shadow as in the light: the factor
    [1 - shadow_intensity] multiplies [intensity] and never
    [specular_intensity]. *)
Theorem cast_ray_shadow_spares_specular (self1 self2 : Raycaster R) orig direction recursion m h lgt a0 a1 :
  light self1 = Some lgt -> light self2 = Some lgt ->
  scene_intersect (scene self1) orig direction = Some (m, h) ->
  scene_intersect (scene self2) orig direction = Some (m, h) ->
  (recursion < MAX_RECURSION_DEPTH)%nat -> albedo m = [a0; a1; 0; 0] ->
  diffuse m = Color.mkcolor 0 0 0 ->
  let ld := Vec.norm (Vec.sub (position lgt) (point h)) in
  let so := offset_orig (point h) (Vec.mul (normal h) (11 / 10)) ld (normal h) in
  scene_intersect (scene self1) so ld = None ->
  (exists m' h', scene_intersect (scene self2) so ld = Some (m', h') /\
     Vec.length (Vec.sub (point h') so) < Vec.length (Vec.sub (position lgt) (point h))) ->
  cast_ray self2 orig direction recursion = cast_ray self1 orig direction recursion.
Proof.
  intros Hl1 Hl2 Hs1 Hs2 Hr Ha Hdiff ld so Hfree Hblk.
  destruct (cast_ray_shadow_channels self1 self2 orig direction recursion m h lgt a0 a1
              Hl1 Hl2 Hs1 Hs2 Hr Ha Hfree Hblk) as (c1 & c2 & -> & -> & Er & Eg & Eb).
  rewrite Hdiff in Er, Eg, Eb. cbn in Er, Eg, Eb. f_equal. destruct c1, c2; cbn in * . f_equal; lra.
Qed.

(** ** Witnesses *)

Lemma cast_ray_terminates_witness :
  cast_ray_fuel 10 mirror_raycaster origin minus_z 0 = cast_ray mirror_raycaster origin minus_z 0 /\
  cast_ray mirror_raycaster origin minus_z 0 <> Err OutOfFuel.
Proof. apply cast_ray_terminates. vm_compute. lia. Defined.

Lemma cast_ray_depth_reached_witness :
  cast_ray_fuel MAX_RECURSION_DEPTH mirror_raycaster origin minus_z 0 = Err OutOfFuel.
Proof.
  apply cast_ray_depth_reached; [|unfold MAX_RECURSION_DEPTH; lia].
  intros o d. do 3 eexists. split; [reflexivity|]. split; reflexivity.
Defined.

Lemma cast_ray_depth_limit_witness :
  cast_ray mirror_raycaster origin minus_z 3 = Ok (background_color mirror_raycaster).
Proof. apply cast_ray_depth_limit. vm_compute. lia. Defined.

Definition short_material : Material binary64 :=
  mkMaterial (Color.mkcolor (sZ 255) (sZ 0) (sZ 0)) [sZ 0; sZ 0] 5 None.
Definition short_raycaster : Raycaster binary64 :=
  mkRaycaster 1 1 BLACK 1%positive [mkObj (ray_intersect mirror_obj) short_material]
    (Some (mkLight (Vec.mkV3 (sZ 0) (sZ 0) (sZ 10)) (sZ 1))) [] {[1%positive := BLACK]} 2%positive.

Lemma cast_ray_short_albedo_witness :
  cast_ray short_raycaster origin minus_z 0 = Err IndexError.
Proof.
  apply (cast_ray_short_albedo _ _ _ _ short_material
    (mkIntersect (sZ 1) (Vec.mkV3 (sZ 0) (sZ 0) (sZ 0)) (Vec.mkV3 (sZ 0) (sZ 0) (sZ 1))));
    [vm_compute; reflexivity | vm_compute; lia | vm_compute; lia].
Defined.

Definition rc_R (objs : list (Obj R)) (lgt : option (Light R)) : Raycaster R :=
  mkRaycaster 1 1 BLACK 1%positive objs lgt [] {[1%positive := BLACK]} 2%positive.
Definition lamp : Light R := mkLight (Vec.mkV3 0 10 0) 1.
Definition glass_no_index : Material R := Material_init (Color.mkcolor 255 255 255) [0; 0; 0; 1] 5.

Lemma cast_ray_miss_witness :
  cast_ray (rc_R [] (Some lamp)) (Vec.mkV3 0 0 0) (Vec.mkV3 0 0 (-1)) 0 = Ok BLACK.
Proof. apply (cast_ray_miss (rc_R [] (Some lamp))). intros obj []. Defined.

Lemma init_scene_one (m : Material R) (dc : Color.color R) (al : list R) (sp : nat) :
  m = Material_init dc al sp -> (4 <= length al)%nat -> init_scene (rc_R [const_obj m] (Some lamp)).
Proof. intros -> Hl obj [<- | []]. eauto. Qed.

Lemma cast_ray_missing_refractive_index_witness :
  cast_ray (rc_R [const_obj glass_no_index] (Some lamp)) (Vec.mkV3 0 0 0) (Vec.mkV3 0 0 (-1)) 0
  = Err AttributeError.
Proof.
  apply (cast_ray_missing_refractive_index _ _ _ _ glass_no_index hit0 1);
    [apply (init_scene_one _ (Color.mkcolor 255 255 255) [0; 0; 0; 1] 5); [reflexivity | simpl; lia]
    | reflexivity | unfold MAX_RECURSION_DEPTH; lia | reflexivity | rsimpl; rcase; [reflexivity | lra]].
Defined.

Lemma cast_ray_missing_light_witness :
  cast_ray (rc_R [const_obj red_matte] None) (Vec.mkV3 0 0 0) (Vec.mkV3 0 0 (-1)) 0
  = Err AttributeError.
Proof.
  apply (cast_ray_missing_light _ _ _ _ red_matte hit0);
    [intros obj [<- | []]; exists (Color.mkcolor 255 0 0), [1; 0; 0; 0], 5%nat; split; [reflexivity | simpl; lia]
    | reflexivity | reflexivity | unfold MAX_RECURSION_DEPTH; lia].
Defined.

Lemma cast_ray_opaque_no_recursion_witness :
  cast_ray_fuel 1 (rc_R [const_obj red_matte] (Some lamp)) (Vec.mkV3 0 0 0) (Vec.mkV3 0 0 (-1)) 0 =
  cast_ray (rc_R [const_obj red_matte] (Some lamp)) (Vec.mkV3 0 0 0) (Vec.mkV3 0 0 (-1)) 0.
Proof.
  apply cast_ray_opaque_no_recursion. intros obj [<- | []].
  exists 1, 0, 0, 0. repeat split; lra.
Defined.

Lemma cast_ray_safe_witness :
  exists c, cast_ray (rc_R [const_obj red_matte] (Some lamp)) (Vec.mkV3 0 0 0) (Vec.mkV3 0 0 (-1)) 0 = Ok c.
Proof.
  apply cast_ray_safe. split; [eexists; reflexivity|]. intros obj [<- | []].
  exists 1, 0, 0, 0. split; [reflexivity|]. rsimpl. rcase; [lra | reflexivity].
Defined.

(** The shadow scenes: [target] is hit by rays going down [z], [blocker]
    by rays going up it, at their origin; the light is 10 units above
    [hit0]. *)
Definition shadow_light : Light R := mkLight (Vec.mkV3 0 0 8) 1.
Definition target_obj (m : Material R) : Obj R :=
  mkObj (fun _ d => if Rltb (Vec.z d) 0 then Some hit0 else None) m.
Definition blocker_obj : Obj R :=
  mkObj (fun o d => if Rltb 0 (Vec.z d) then Some (mkIntersect 0 o d) else None) red_matte.
Definition gloss : Material R := Material_init (Color.mkcolor 0 0 0) [0; 1; 0; 0] 5.

Lemma shadow_light_dir : Vec.norm (Vec.sub (position shadow_light) (point hit0)) = Vec.mkV3 0 0 1.
Proof.
  replace (Vec.sub _ _) with (Vec.mul (Vec.mkV3 0 0 1) 10) by (cbn; Vec.vext; ring).
  rewrite Vec.norm_mul_pos by lra. apply Vec.norm_unit, Vec.length_e3.
Qed.

Ltac shadow_scene :=
  unfold scene_intersect, scene_intersect_step;
  cbv [fold_left scene rc_R ray_intersect material target_obj blocker_obj Vec.z hit0 closer fst snd
       distance s_lt_inf s_ltb s_of_Z R_scalar];
  repeat (rcase; try lra); reflexivity.

Lemma length_sub_self (v : Vec.V3 R) : Vec.length (Vec.sub v v) = 0.
Proof.
  unfold Vec.length. Vec.vsimpl. rewrite !Rminus_diag, !Rmult_0_l, !Rplus_0_l. apply sqrt_0.
Qed.

Lemma cast_ray_shadow_darker_witness :
  exists c1 c2, cast_ray (rc_R [target_obj red_matte] (Some shadow_light)) (Vec.mkV3 0 0 0) (Vec.mkV3 0 0 (-1)) 0 = Ok c1 /\
    cast_ray (rc_R [target_obj red_matte; blocker_obj] (Some shadow_light)) (Vec.mkV3 0 0 0) (Vec.mkV3 0 0 (-1)) 0 = Ok c2 /\
    Color.r c2 <= Color.r c1 /\ Color.g c2 <= Color.g c1 /\ Color.b c2 <= Color.b c1 /\
    Color.r c2 + Color.g c2 + Color.b c2 < Color.r c1 + Color.g c1 + Color.b c1.
Proof.
  apply (cast_ray_shadow_darker _ _ _ _ 0 red_matte hit0 shadow_light 1 0);
    try reflexivity; try (unfold MAX_RECURSION_DEPTH; lia); try (cbn; lra);
    rewrite ?shadow_light_dir.
  - shadow_scene.
  - shadow_scene.
  - shadow_scene.
  - set (so := offset_orig _ _ _ _). exists red_matte, (mkIntersect 0 so (Vec.mkV3 0 0 1)). split.
    + shadow_scene.
    + cbn [point]. rewrite length_sub_self. unfold Vec.length. rsimpl. apply sqrt_pos_of_pos.
      cbn [position shadow_light point hit0]. Vec.vsimpl. lra.
  - cbn [normal hit0]. Vec.vsimpl. lra.
Defined.

Lemma cast_ray_shadow_spares_specular_witness :
  cast_ray (rc_R [target_obj gloss; blocker_obj] (Some shadow_light)) (Vec.mkV3 0 0 0) (Vec.mkV3 0 0 (-1)) 0 =
  cast_ray (rc_R [target_obj gloss] (Some shadow_light)) (Vec.mkV3 0 0 0) (Vec.mkV3 0 0 (-1)) 0.
Proof.
  apply (cast_ray_shadow_spares_specular _ _ _ _ 0 gloss hit0 shadow_light 0 1);
    try reflexivity; try (unfold MAX_RECURSION_DEPTH; lia); rewrite ?shadow_light_dir.
  - shadow_scene.
  - shadow_scene.
  - shadow_scene.
  - set (so := offset_orig _ _ _ _). exists red_matte, (mkIntersect 0 so (Vec.mkV3 0 0 1)). split.
    + shadow_scene.
    + cbn [point]. rewrite length_sub_self. unfold Vec.length. rsimpl. apply sqrt_pos_of_pos.
      cbn [position shadow_light point hit0]. Vec.vsimpl. lra.
Defined.

End Shading.
