(* ===== verification/Pack.v ===== *)
(** The byte packing helpers of src/lib.py: [char], [word], [dword].

    [struct.pack] with the format ['=c'], ['=h'] and ['=l'] writes one
    byte, a 16-bit and a 32-bit signed integer in native byte order with
    standard sizes.  The model takes the native order to be little endian
    (the x86 and ARM hosts CPython runs on) and uses coqutil's [le_split]
    for the layout.  [struct.pack] raises [struct.error] (here
    [StructError]) for an integer outside the signed range and for a
    ['c'] argument that is not one byte; [c.encode('ascii')] raises
    [UnicodeEncodeError] for a non-ASCII character.

    Theorems: [word] and [dword] succeed exactly on the signed range, give
    2 and 4 bytes, and [struct.unpack] of their output gives back the
    integer; [char] accepts exactly the one-character ASCII strings and
    returns that character's byte, and its errors say why it rejects
    the others. *)

From S2P Require Import Prelude.
From Stdlib Require Import String Ascii.
From coqutil Require Import Word.LittleEndianList.

Module Pack.

(** [c.encode('ascii')] *)
Fixpoint encode_ascii (c : string) : res (list byte) :=
  match c with
  | EmptyString => Ok []
  | String a c' =>
      if (nat_of_ascii a <? 128)%nat then
        let* rest := encode_ascii c' in Ok (byte_of_ascii a :: rest)
      else Err UnicodeEncodeError
  end.

(** [char(c) = struct.pack('=c', c.encode('ascii'))] *)
Definition char (c : string) : res (list byte) :=
  let* bs := encode_ascii c in
  match bs with
  | [b] => Ok [b]
  | _ => Err StructError
  end.

(** [word(c) = struct.pack('=h', c)] *)
Definition word (c : Z) : res (list byte) :=
  if (- 2 ^ 15 <=? c)%Z && (c <? 2 ^ 15)%Z then Ok (le_split 2 c) else Err StructError.

(** [dword(c) = struct.pack('=l', c)] *)
Definition dword (c : Z) : res (list byte) :=
  if (- 2 ^ 31 <=? c)%Z && (c <? 2 ^ 31)%Z then Ok (le_split 4 c) else Err StructError.

(** [struct.unpack('=h', bs)] and [struct.unpack('=l', bs)]: the readers'
    side, used to state the round trips. *)
Definition unpack_signed (n : nat) (bs : list byte) : Z :=
  let v := le_combine bs in
  if (v <? 2 ^ (8 * Z.of_nat n - 1))%Z then v else (v - 2 ^ (8 * Z.of_nat n))%Z.

Lemma unpack_signed_split (n : nat) (c : Z) :
  (0 < n)%nat -> (- 2 ^ (8 * Z.of_nat n - 1) <= c < 2 ^ (8 * Z.of_nat n - 1))%Z ->
  unpack_signed n (le_split n c) = c.
Proof.
  intros Hn Hc. unfold unpack_signed. rewrite le_combine_split.
  replace (Z.of_nat n * 8)%Z with (8 * Z.of_nat n)%Z by lia.
  assert (2 ^ (8 * Z.of_nat n) = 2 * 2 ^ (8 * Z.of_nat n - 1))%Z as E.
  { rewrite <- Z.pow_succ_r by lia. f_equal. lia. }
  rewrite E in * . set (h := (2 ^ (8 * Z.of_nat n - 1))%Z) in * .
  assert (0 < h)%Z by (apply Z.pow_pos_nonneg; lia).
  destruct (Z.leb_spec 0 c).
  - rewrite Z.mod_small by lia. destruct (Z.ltb_spec c h); lia.
  - replace (c mod (2 * h))%Z with (c + 2 * h)%Z.
    + destruct (Z.ltb_spec (c + 2 * h) h); lia.
    + apply Z.mod_unique with (-1)%Z; lia.
Qed.

(** C31: [dword] packs exactly the signed 32-bit integers, into four bytes
    that [struct.unpack('=l', ...)] reads back as the same integer;
    outside that range it raises [struct.error]. *)
Theorem dword_roundtrip (c : Z) :
  ((- 2 ^ 31 <= c < 2 ^ 31)%Z ->
     exists bs, dword c = Ok bs /\ List.length bs = 4%nat /\ unpack_signed 4 bs = c) /\
  ((c < - 2 ^ 31 \/ 2 ^ 31 <= c)%Z -> dword c = Err StructError).
Proof.
  unfold dword. split.
  - intros Hc. destruct (Z.leb_spec (- 2 ^ 31) c), (Z.ltb_spec c (2 ^ 31)); simpl; try lia.
    eexists; split; [reflexivity|]. split; [apply length_le_split|].
    apply unpack_signed_split; [lia | simpl; lia].
  - intros Hc. destruct (Z.leb_spec (- 2 ^ 31) c), (Z.ltb_spec c (2 ^ 31)); simpl; lia || reflexivity.
Qed.

(** The same for [word] and 16-bit integers. *)
Theorem word_roundtrip (c : Z) :
  ((- 2 ^ 15 <= c < 2 ^ 15)%Z ->
     exists bs, word c = Ok bs /\ List.length bs = 2%nat /\ unpack_signed 2 bs = c) /\
  ((c < - 2 ^ 15 \/ 2 ^ 15 <= c)%Z -> word c = Err StructError).
Proof.
  unfold word. split.
  - intros Hc. destruct (Z.leb_spec (- 2 ^ 15) c), (Z.ltb_spec c (2 ^ 15)); simpl; try lia.
    eexists; split; [reflexivity|]. split; [apply length_le_split|].
    apply unpack_signed_split; [lia | simpl; lia].
  - intros Hc. destruct (Z.leb_spec (- 2 ^ 15) c), (Z.ltb_spec c (2 ^ 15)); simpl; lia || reflexivity.
Qed.

(** For a non-negative value the unsigned reading gives it back too. *)
Lemma le_combine_dword (c : Z) (bs : list byte) :
  (0 <= c < 2 ^ 31)%Z -> dword c = Ok bs -> le_combine bs = c.
Proof.
  intros Hc. unfold dword.
  destruct (Z.leb_spec (- 2 ^ 31) c), (Z.ltb_spec c (2 ^ 31)); simpl; try lia.
  intros [= <-]. rewrite le_combine_split. apply Z.mod_small. simpl. lia.
Qed.

Lemma le_combine_word (c : Z) (bs : list byte) :
  (0 <= c < 2 ^ 15)%Z -> word c = Ok bs -> le_combine bs = c.
Proof.
  intros Hc. unfold word.
  destruct (Z.leb_spec (- 2 ^ 15) c), (Z.ltb_spec c (2 ^ 15)); simpl; try lia.
  intros [= <-]. rewrite le_combine_split. apply Z.mod_small. simpl. lia.
Qed.

Lemma length_dword (c : Z) (bs : list byte) : dword c = Ok bs -> List.length bs = 4%nat.
Proof. unfold dword. case_match; [intros [= <-]; apply length_le_split | discriminate]. Qed.

Lemma length_word (c : Z) (bs : list byte) : word c = Ok bs -> List.length bs = 2%nat.
Proof. unfold word. case_match; [intros [= <-]; apply length_le_split | discriminate]. Qed.

(** ** The argument type of [char] *)

(** [c.encode('ascii')] succeeds exactly on strings of ASCII characters,
    with one byte per character; otherwise it raises
    [UnicodeEncodeError]. *)
Lemma encode_ascii_Ok (c : string) :
  Forall (fun a => nat_of_ascii a < 128)%nat (list_ascii_of_string c) ->
  encode_ascii c = Ok (map byte_of_ascii (list_ascii_of_string c)).
Proof.
  induction c as [|a c IH]; simpl; [reflexivity|]. intros [Ha Hc]%Forall_cons.
  apply Nat.ltb_lt in Ha. rewrite Ha, IH by exact Hc. reflexivity.
Qed.

Lemma encode_ascii_Err (c : string) :
  Exists (fun a => 128 <= nat_of_ascii a)%nat (list_ascii_of_string c) ->
  encode_ascii c = Err UnicodeEncodeError.
Proof.
  induction c as [|a c IH]; simpl; intros Hex; [inversion Hex|].
  destruct (Nat.ltb_spec (nat_of_ascii a) 128) as [Ha|Ha]; [|reflexivity].
  apply Exists_cons in Hex as [Hex|Hex]; [lia|]. rewrite IH by exact Hex. reflexivity.
Qed.

Lemma ascii_or_not (c : string) :
  Forall (fun a => nat_of_ascii a < 128)%nat (list_ascii_of_string c) \/
  Exists (fun a => 128 <= nat_of_ascii a)%nat (list_ascii_of_string c).
Proof.
  induction (list_ascii_of_string c) as [|a l [IH|IH]]; [left; constructor| |].
  - destruct (Nat.lt_ge_cases (nat_of_ascii a) 128); [left; constructor; assumption|].
    right. constructor. assumption.
  - right. apply Exists_cons_tl, IH.
Qed.

(** C30: the argument type of [char]: [struct.pack('=c', ...)] accepts a
    bytes object of length one, so [char] returns one byte exactly for a
    one-character ASCII string (that character's code), raises
    [UnicodeEncodeError] when some character is not ASCII, raises
    [struct.error] for an ASCII string of another length, and raises
    nothing else. *)
Theorem char_type (c : string) :
  (forall bs, char c = Ok bs <->
     exists a, c = String a EmptyString /\ (nat_of_ascii a < 128)%nat /\ bs = [byte_of_ascii a]) /\
  (char c = Err UnicodeEncodeError <->
     Exists (fun a => 128 <= nat_of_ascii a)%nat (list_ascii_of_string c)) /\
  (char c = Err StructError <->
     Forall (fun a => nat_of_ascii a < 128)%nat (list_ascii_of_string c) /\ String.length c <> 1%nat) /\
  (forall e, char c = Err e -> e = UnicodeEncodeError \/ e = StructError).
Proof.
  unfold char. destruct (ascii_or_not c) as [Hf|He].
  - rewrite (encode_ascii_Ok c Hf). cbn [res_bind].
    assert (~ Exists (fun a => 128 <= nat_of_ascii a)%nat (list_ascii_of_string c)) as Hne.
    { rewrite Exists_exists. intros (x & Hin & Hx). rewrite Forall_forall in Hf. specialize (Hf x Hin). lia. }
    destruct c as [|a [|b c']]; cbn [list_ascii_of_string map String.length] in * .
    + split_and!.
      * intros bs. split; [discriminate|intros (a & ? & _); discriminate].
      * split; [discriminate| intros Hx; destruct (Hne Hx)].
      * split; [intros _; split; [exact Hf|lia]|reflexivity].
      * intros e [= <-]; auto.
    + apply Forall_cons in Hf as [Ha _]. split_and!.
      * intros bs. split; [intros [= <-]; eauto| intros (a' & [= <-] & _ & ->); reflexivity].
      * split; [discriminate| intros Hx; destruct (Hne Hx)].
      * split; [discriminate| intros [_ []]; reflexivity].
      * intros e [=].
    + split_and!.
      * intros bs. split; [discriminate|intros (a' & ? & _); discriminate].
      * split; [discriminate| intros Hx; destruct (Hne Hx)].
      * split; [intros _; split; [exact Hf|lia] | reflexivity].
      * intros e [= <-]; auto.
  - rewrite (encode_ascii_Err c He). cbn [res_bind].
    split_and!; [intros bs; split; [discriminate|] | tauto | split; [discriminate|] | intros e [= <-]; auto].
    + intros (a & -> & Ha & _). cbn in He. apply Exists_cons in He as [He|He]; [lia|inversion He].
    + intros [Hf _]. rewrite Exists_exists in He. destruct He as (x & Hin & Hx).
      rewrite Forall_forall in Hf. specialize (Hf x Hin). lia.
Qed.

Example char_B : char "B" = Ok [Byte.x42].
Proof. reflexivity. Qed.

Example char_errors : char "BM" = Err StructError /\ char "" = Err StructError.
Proof. split; reflexivity. Qed.

Example dword_examples :
  dword (-1) = Ok [Byte.xff; Byte.xff; Byte.xff; Byte.xff] /\ dword (2 ^ 31) = Err StructError.
Proof. split; vm_compute; reflexivity. Qed.

End Pack.
