(* ===== verification/FrameBuffer.v ===== *)
(** The frame buffer of [Raycaster] in src/ray.py: [__init__], [glClear]
    and [point].

    [pixels] is a list of [height] rows of [width] references to colour
    objects.  [glClear] fills it with the background object itself, so
    every cell shares one object; [point] stores a reference to the colour
    object it is given, or to the background object when it is given
    [None].  [point] wraps its assignment in a bare [try/except], so an
    [IndexError] leaves the buffer unchanged, but Python's negative
    subscripts count from the end of a row or of the buffer.

    The invariant [wf] says that the buffer is [height] rows of [width]
    cells, that every cell refers to an object of the store, and that the
    background identity holds the background colour.  It holds after
    [__init__] and is preserved by [glClear] and [point].  [point] writes
    in-range cells, ignores writes far out of range, and writes a
    negative column [x] of [-width, 0) to column [width + x]. *)

From S2P Require Import Prelude ScalarR ScalarFloat Vec Color Scene Shading.

Module FrameBuffer.
Import Scene Shading.

Section Ops.
Context {F : Type} `{Scalar F}.

Definition set_pixels (self : Raycaster F) (p : list (list loc)) : Raycaster F :=
  mkRaycaster (width self) (height self) (background_color self) (background_loc self)
    (scene self) (light self) p (objects self) (next_loc self).

(** A new colour object, such as the one [color(...)] or [a + b] returns. *)
Definition alloc (self : Raycaster F) (c : Color.color F) : loc * Raycaster F :=
  let l := next_loc self in
  (l, mkRaycaster (width self) (height self) (background_color self) (background_loc self)
        (scene self) (light self) (pixels self) (<[l := c]> (objects self)) (Pos.succ l)).

(** [glClear]: every cell refers to the background object. *)
Definition glClear (self : Raycaster F) : Raycaster F :=
  set_pixels self
    (map (fun _ => map (fun _ => background_loc self) (py_range (width self))) (py_range (height self))).

(** [Raycaster(width, height)]: the module constant [BLACK] is the object
    at identity [1]; [scene] is empty and [light] is not set. *)
Definition Raycaster_init (width height : Z) : Raycaster F :=
  glClear (mkRaycaster width height BLACK 1%positive [] None [] {[1%positive := BLACK]} 2%positive).

(** [color or self.background_color]: a colour object is always true. *)
Definition color_or_background (self : Raycaster F) (color : option loc) : loc :=
  match color with Some l => l | None => background_loc self end.

(** [point(x, y, color)]: [self.pixels[y][x] = color or self.background_color]
    inside [try: ... except: pass]. *)
Definition point (self : Raycaster F) (x y : Z) (color : option loc) : Raycaster F :=
  py_try_pass
    (let* p := py_setitem2 (pixels self) y x (color_or_background self color) in Ok (set_pixels self p))
    self.
End Ops.

(** ** The invariant *)

Definition wf {F : Type} (self : Raycaster F) : Prop :=
  length (pixels self) = Z.to_nat (height self) /\
  Forall (fun row => length row = Z.to_nat (width self)) (pixels self) /\
  Forall (fun row => Forall (fun l => is_Some (objects self !! l)) row) (pixels self) /\
  objects self !! background_loc self = Some (background_color self) /\
  (forall l, is_Some (objects self !! l) -> (l < next_loc self)%positive).

Section Props.
Context {F : Type} `{Scalar F}.

Lemma wf_row (self : Raycaster F) (k : nat) (row : list loc) :
  wf self -> pixels self !! k = Some row -> length row = Z.to_nat (width self).
Proof. intros (_ & Hrows & _) Hk. rewrite Forall_lookup in Hrows. eauto. Qed.

Lemma point_Ok (self : Raycaster F) x y color p :
  py_setitem2 (pixels self) y x (color_or_background self color) = Ok p ->
  point self x y color = set_pixels self p.
Proof. intros E. unfold point. rewrite E. reflexivity. Qed.

Lemma point_Err (self : Raycaster F) x y color e :
  py_setitem2 (pixels self) y x (color_or_background self color) = Err e ->
  point self x y color = self.
Proof. intros E. unfold point. rewrite E. reflexivity. Qed.

(** [glClear] establishes the invariant from a store that holds the
    background colour at its identity and a fresh-identity counter above
    every allocated object. *)
Lemma glClear_wf (self : Raycaster F) :
  objects self !! background_loc self = Some (background_color self) ->
  (forall l, is_Some (objects self !! l) -> (l < next_loc self)%positive) ->
  wf (glClear self).
Proof.
  intros Hbg Hnext. unfold wf, glClear, set_pixels. simpl.
  split; [rewrite length_map, length_py_range; reflexivity|].
  split; [apply Forall_forall; intros row Hrow; apply list_elem_of_In, in_map_iff in Hrow as (? & <- & _);
          rewrite length_map, length_py_range; reflexivity|].
  split; [|split; [exact Hbg | exact Hnext]].
  apply Forall_forall. intros row Hrow. apply list_elem_of_In, in_map_iff in Hrow as (? & <- & _).
  apply Forall_forall. intros l Hl. apply list_elem_of_In, in_map_iff in Hl as (? & <- & _).
  rewrite Hbg. eauto.
Qed.

Lemma Raycaster_init_store (w h : Z) :
  wf (Raycaster_init (F := F) w h).
Proof.
  apply glClear_wf; simpl; [apply lookup_singleton_eq|].
  intros l [c Hc]. apply lookup_singleton_Some in Hc as [<- _]. lia.
Qed.

Lemma wf_cell_store (self : Raycaster F) (i j : nat) (l : loc) :
  wf self -> cell (pixels self) i j = Some l -> is_Some (objects self !! l).
Proof.
  intros (_ & _ & Hcells & _) Hc. unfold cell in Hc.
  destruct (pixels self !! i) as [row|] eqn:Hrow; [|discriminate].
  rewrite Forall_lookup in Hcells. specialize (Hcells _ _ Hrow). rewrite Forall_lookup in Hcells.
  exact (Hcells _ _ Hc).
Qed.

(** [alloc] keeps the invariant and returns an identity no object had. *)
Lemma alloc_wf (self : Raycaster F) (c : Color.color F) :
  wf self ->
  wf (snd (alloc self c)) /\ fst (alloc self c) = next_loc self /\ objects self !! next_loc self = None /\
  objects (snd (alloc self c)) = <[next_loc self := c]> (objects self).
Proof.
  intros (Hlen & Hrows & Hcells & Hbg & Hnext).
  assert (objects self !! next_loc self = None) as Hfree.
  { destruct (objects self !! next_loc self) eqn:Ef; [exfalso|reflexivity].
    specialize (Hnext (next_loc self) ltac:(eexists; exact Ef)). lia. }
  split; [|split; [reflexivity | split; [exact Hfree | reflexivity]]].
  unfold wf, alloc; simpl. split; [exact Hlen|]. split; [exact Hrows|]. split; [|split].
  - eapply Forall_impl; [exact Hcells|]. intros row Hrow. eapply Forall_impl; [exact Hrow|].
    intros l [c' Hl]. destruct (decide (l = next_loc self)) as [->|Hne]; [congruence|].
    rewrite lookup_insert_ne by congruence. eauto.
  - rewrite lookup_insert_ne; [exact Hbg|]. intros E. rewrite E in Hfree. congruence.
  - intros l [c' Hl]. destruct (decide (l = next_loc self)) as [->|Hne]; [lia|].
    rewrite lookup_insert_ne in Hl by congruence. specialize (Hnext l ltac:(eauto)). lia.
Qed.

(** [Raycaster(width, height)] establishes the invariant, for any
    integers (negative sizes give an empty buffer, as [range] does), with
    the background object [BLACK] as the only object. *)
Theorem Raycaster_init_wf (w h : Z) :
  wf (Raycaster_init (F := F) w h) /\ objects (Raycaster_init (F := F) w h) = {[1%positive := BLACK]} /\
  background_loc (Raycaster_init (F := F) w h) = 1%positive.
Proof. split; [apply Raycaster_init_store | split; reflexivity]. Qed.

(** C21: [glClear] keeps the invariant and makes every cell of the
    [height] x [width] buffer refer to the one background object. *)
Theorem glClear_shares_background (self : Raycaster F) :
  wf self ->
  wf (glClear self) /\
  forall i j, (i < Z.to_nat (height self))%nat -> (j < Z.to_nat (width self))%nat ->
    cell (pixels (glClear self)) i j = Some (background_loc self).
Proof.
  intros (_ & _ & _ & Hbg & Hnext). split; [apply glClear_wf; assumption|].
  intros i j Hi Hj. unfold cell, glClear, set_pixels. simpl.
  rewrite lookup_map_option, lookup_py_range by exact Hi. simpl.
  rewrite lookup_map_option, lookup_py_range by exact Hj. reflexivity.
Qed.

(** Storing an identity of the store in a cell keeps the invariant. *)
Lemma set_cell_wf (self : Raycaster F) (x y : Z) (l : loc) (p : list (list loc)) :
  wf self -> is_Some (objects self !! l) -> py_setitem2 (pixels self) y x l = Ok p ->
  wf (set_pixels self p).
Proof.
  intros (Hlen & Hrows & Hcells & Hbg & Hnext) Hl E.
  apply py_setitem2_Ok in E as (k & row & j & Hk & Hrow & Hj & ->).
  unfold wf, set_pixels; simpl.
  split; [rewrite length_insert; exact Hlen|].
  split; [apply Forall_length_insert2; assumption|].
  split; [|split; assumption].
  apply Forall2_insert2; assumption.
Qed.

(** [point] keeps the invariant when it is given a colour object of
    the store (or [None]). *)
Theorem point_wf (self : Raycaster F) (x y : Z) (color : option loc) :
  wf self -> (forall l, color = Some l -> is_Some (objects self !! l)) ->
  wf (point self x y color).
Proof.
  intros Hwf Hcol. destruct (py_setitem2 (pixels self) y x (color_or_background self color)) as [p|e] eqn:E;
    [|rewrite (point_Err _ _ _ _ _ E); exact Hwf].
  rewrite (point_Ok _ _ _ _ _ E). apply (set_cell_wf _ x y (color_or_background self color) _ Hwf); [|exact E].
  pose proof Hwf as (_ & _ & _ & Hbg & _).
  unfold color_or_background. destruct color as [l|]; [apply Hcol; reflexivity | rewrite Hbg; eauto].
Qed.

Lemma point_cells (self : Raycaster F) (x y : Z) (color : option loc) (k j : nat) :
  wf self -> py_index (length (pixels self)) y = Some k ->
  (forall row, pixels self !! k = Some row -> py_index (length row) x = Some j) ->
  forall i j', cell (pixels (point self x y color)) i j' =
    if decide (i = k /\ j' = j) then Some (color_or_background self color) else cell (pixels self) i j'.
Proof.
  intros Hwf Hk Hj i j'.
  assert (k < length (pixels self))%nat as Hkl by (eapply py_index_lt; eauto).
  destruct (lookup_lt_is_Some_2 _ _ Hkl) as [row Hrow].
  specialize (Hj row Hrow).
  assert (py_setitem2 (pixels self) y x (color_or_background self color) =
          Ok (<[k := <[j := color_or_background self color]> row]> (pixels self))) as E
    by (apply py_setitem2_Ok; eauto 10).
  rewrite (point_Ok _ _ _ _ _ E). unfold set_pixels; simpl.
  apply cell_insert2; [exact Hrow | eapply py_index_lt; eauto].
Qed.

(** C34: a write inside the buffer sets exactly the cell [(y, x)]. *)
Theorem point_in_range (self : Raycaster F) (x y : Z) (color : option loc) :
  wf self -> (0 <= x < width self)%Z -> (0 <= y < height self)%Z ->
  forall i j, cell (pixels (point self x y color)) i j =
    if decide (i = Z.to_nat y /\ j = Z.to_nat x) then Some (color_or_background self color)
    else cell (pixels self) i j.
Proof.
  intros Hwf Hx Hy. pose proof Hwf as (Hlen & _).
  apply point_cells; [exact Hwf | apply py_index_in_range; lia |].
  intros row Hrow. rewrite (wf_row _ _ _ Hwf Hrow). apply py_index_in_range. lia.
Qed.

(** C19: a negative column [x] of [-width, 0) is not ignored: Python's
    subscript counts from the end of the row, so [point] writes the cell
    [(y, width + x)]. *)
Theorem point_negative_column (self : Raycaster F) (x y : Z) (color : option loc) :
  wf self -> (- width self <= x < 0)%Z -> (0 <= y < height self)%Z ->
  cell (pixels (point self x y color)) (Z.to_nat y) (Z.to_nat (width self + x)) =
  Some (color_or_background self color).
Proof.
  intros Hwf Hx Hy. pose proof Hwf as (Hlen & _).
  rewrite (point_cells self x y color (Z.to_nat y) (Z.to_nat (width self + x)) Hwf).
  - case_decide; [reflexivity | tauto].
  - apply py_index_in_range. lia.
  - intros row Hrow. rewrite (wf_row _ _ _ Hwf Hrow). rewrite py_index_negative by lia.
    f_equal. lia.
Qed.

(** C20: a write outside [[-width, width) x [-height, height)] raises
    [IndexError], which the bare [except] swallows: the raycaster is
    unchanged. *)
Theorem point_out_of_range (self : Raycaster F) (x y : Z) (color : option loc) :
  wf self -> (x < - width self \/ width self <= x \/ y < - height self \/ height self <= y)%Z ->
  point self x y color = self.
Proof.
  intros Hwf Hout. pose proof Hwf as (Hlen & _).
  destruct (py_setitem2 (pixels self) y x (color_or_background self color)) as [p|e] eqn:E;
    [|exact (point_Err _ _ _ _ _ E)].
  exfalso. apply py_setitem2_Ok in E as (k & row & j & Hk & Hrow & Hj & _).
  rewrite (wf_row _ _ _ Hwf Hrow) in Hj. rewrite Hlen in Hk.
  destruct Hout as [Hx | [Hx | Hy]].
  - rewrite py_index_out in Hj by lia. discriminate.
  - rewrite py_index_out in Hj by lia. discriminate.
  - rewrite py_index_out in Hk by lia. discriminate.
Qed.
End Props.

(** ** Witnesses, on a 2 x 2 buffer *)

Definition rc2x2 : Raycaster R := Raycaster_init 2 2.

Lemma glClear_shares_background_witness :
  wf (glClear rc2x2) /\
  forall i j, (i < Z.to_nat (height rc2x2))%nat -> (j < Z.to_nat (width rc2x2))%nat ->
    cell (pixels (glClear rc2x2)) i j = Some (background_loc rc2x2).
Proof. apply glClear_shares_background, Raycaster_init_store. Defined.

Lemma point_wf_witness : wf (point rc2x2 1 0 (Some 1%positive)).
Proof.
  apply point_wf; [apply Raycaster_init_store|].
  intros l [= <-]. unfold rc2x2. simpl. rewrite lookup_singleton_eq. eauto.
Defined.

Lemma point_in_range_witness :
  cell (pixels (point rc2x2 1 0 None)) 0 1 = Some (color_or_background rc2x2 None) /\
  cell (pixels (point rc2x2 1 0 None)) 1 1 = cell (pixels rc2x2) 1 1.
Proof.
  pose proof (point_in_range rc2x2 1 0 None (Raycaster_init_store 2 2) ltac:(simpl; lia) ltac:(simpl; lia)) as E.
  split; rewrite E; [apply decide_True | apply decide_False]; simpl; lia.
Defined.

Lemma point_negative_column_witness :
  cell (pixels (point rc2x2 (-1) 0 None)) (Z.to_nat 0) (Z.to_nat (width rc2x2 + -1)) =
  Some (color_or_background rc2x2 None).
Proof. apply point_negative_column; [apply Raycaster_init_store | simpl; lia | simpl; lia]. Defined.

Lemma point_out_of_range_witness : point rc2x2 5 0 None = rc2x2.
Proof. apply point_out_of_range; [apply Raycaster_init_store | simpl; lia]. Defined.

End FrameBuffer.
