(* ===== verification/Bmp.v ===== *)
(** The BMP writer [Raycaster.finish] of src/ray.py.

    [finish] opens the file, writes a 14-byte file header and a 40-byte
    info header with [char], [dword] and [word], then, for [x] in
    [range(width)] and [y] in [range(height)], writes
    [self.pixels[x][y].toBytes()].  The model threads the state
    [(file contents, raycaster)] through the writes: [toBytes] clamps the
    colour object it is called on, which every cell sharing that object
    sees, and a write that raises leaves what was written before in the
    file.

    Theorems: the header carries the fields of the spec at their offsets
    (signature, file size, data offset, info size, width, height, planes,
    bit depth, compression, image size); on a square, well-formed buffer
    [finish] succeeds and writes the header followed by the clamped
    bytes of the cells in row order, even though cells share colour
    objects that [toBytes] mutates; on a non-square buffer it raises
    [IndexError] and leaves a truncated file; rows are never padded to a
    multiple of four bytes. *)

From S2P Require Import Prelude ScalarR ScalarFloat Vec Color Scene Shading Pack FrameBuffer.
From Stdlib Require String.
From coqutil Require Import Word.LittleEndianList.

Module Bmp.
Import Scene Shading FrameBuffer.

(** The string literals of [finish]. *)
Module Lit.
Import String.
Definition B : string := "B".
Definition M : string := "M".
End Lit.

Section Writer.
Context {F : Type} `{Scalar F}.

(** The state of [finish]: the bytes written to the file so far and the
    raycaster, whose colour objects [toBytes] mutates. *)
Abbreviation fstate := (list byte * Raycaster F)%type.

Definition set_objects (self : Raycaster F) (o : gmap loc (Color.color F)) : Raycaster F :=
  mkRaycaster (width self) (height self) (background_color self) (background_loc self)
    (scene self) (light self) (pixels self) o (next_loc self).

(** [f.write(e)] for an expression [e] that may raise. *)
Definition write (e : res (list byte)) : st fstate unit :=
  let! bs := st_lift e in
  st_modify (fun s => (fst s ++ bs, snd s)).

(** Lines 41-60: the file header and the info header. *)
Definition finish_header (w h : Z) : st fstate unit :=
  let! _ := write (Pack.char Lit.B) in
  let! _ := write (Pack.char Lit.M) in
  let! _ := write (Pack.dword (14 + 40 + w * h * 3)) in
  let! _ := write (Pack.dword 0) in
  let! _ := write (Pack.dword (14 + 40)) in
  let! _ := write (Pack.dword 40) in
  let! _ := write (Pack.dword w) in
  let! _ := write (Pack.dword h) in
  let! _ := write (Pack.word 1) in
  let! _ := write (Pack.word 24) in
  let! _ := write (Pack.dword 0) in
  let! _ := write (Pack.dword (w * h * 3)) in
  let! _ := write (Pack.dword 0) in
  let! _ := write (Pack.dword 0) in
  let! _ := write (Pack.dword 0) in
  write (Pack.dword 0).

(** Line 66: [f.write(self.pixels[x][y].toBytes())].  [toBytes] assigns
    the clamped channels to the object the cell refers to.  A reference
    missing from the store cannot occur in Python; [wf] excludes it. *)
Definition finish_pixel (x y : Z) : st fstate unit :=
  fun s =>
    let self := snd s in
    match py_getitem2 (pixels self) x y with
    | Err e => (Err e, s)
    | Ok l =>
        match objects self !! l with
        | None => (Err AttributeError, s)
        | Some c =>
            match Color.toBytes c with
            | Err e => (Err e, s)
            | Ok (bs, c') => (Ok tt, (fst s ++ bs, set_objects self (<[l := c']> (objects self))))
            end
        end
    end.

Definition finish_body (self : Raycaster F) : st fstate unit :=
  let! _ := finish_header (width self) (height self) in
  st_for (py_range (width self)) (fun x =>
    st_for (py_range (height self)) (fun y => finish_pixel x y)).

(** [finish(filename)]: the file starts empty; the result is the outcome
    and the file's contents with the raycaster afterwards. *)
Definition finish (self : Raycaster F) : res unit * fstate :=
  finish_body self ([], self).
End Writer.

(** ** The header *)

(** The bytes [finish_header] writes when every field is in range. *)
Definition bmp_header (w h : Z) : list byte :=
  [Byte.x42; Byte.x4d] ++ le_split 4 (14 + 40 + w * h * 3) ++ le_split 4 0 ++ le_split 4 (14 + 40) ++
  le_split 4 40 ++ le_split 4 w ++ le_split 4 h ++ le_split 2 1 ++ le_split 2 24 ++
  le_split 4 0 ++ le_split 4 (w * h * 3) ++ le_split 4 0 ++ le_split 4 0 ++ le_split 4 0 ++ le_split 4 0.

(** The sizes [finish] can pack: [struct.pack('=l', ...)] accepts them. *)
Definition header_ok (w h : Z) : Prop :=
  (0 <= w < 2 ^ 31)%Z /\ (0 <= h < 2 ^ 31)%Z /\ (14 + 40 + w * h * 3 < 2 ^ 31)%Z.

(** The little-endian field of [n] bytes at offset [off] of a file. *)
Definition field (file : list byte) (off n : nat) : Z := le_combine (firstn n (skipn off file)).

Lemma write_Ok {F : Type} (bs : list byte) (s : list byte * Raycaster F) :
  write (Ok bs) s = (Ok tt, (fst s ++ bs, snd s)).
Proof. reflexivity. Qed.

Lemma st_bind_write {F B : Type} (bs : list byte) (k : unit -> st (list byte * Raycaster F) B) s :
  st_bind (write (Ok bs)) k s = k tt (fst s ++ bs, snd s).
Proof. reflexivity. Qed.

Lemma header_char_B : Pack.char Lit.B = Ok [Byte.x42].
Proof. reflexivity. Qed.

Lemma header_char_M : Pack.char Lit.M = Ok [Byte.x4d].
Proof. reflexivity. Qed.

Lemma dword_ok (c : Z) : (- 2 ^ 31 <= c < 2 ^ 31)%Z -> Pack.dword c = Ok (le_split 4 c).
Proof.
  intros Hc. unfold Pack.dword.
  destruct (Z.leb_spec (- 2 ^ 31) c), (Z.ltb_spec c (2 ^ 31)); simpl; reflexivity || lia.
Qed.

Lemma word_ok (c : Z) : (- 2 ^ 15 <= c < 2 ^ 15)%Z -> Pack.word c = Ok (le_split 2 c).
Proof.
  intros Hc. unfold Pack.word.
  destruct (Z.leb_spec (- 2 ^ 15) c), (Z.ltb_spec c (2 ^ 15)); simpl; reflexivity || lia.
Qed.

Lemma finish_header_Ok {F : Type} (w h : Z) (s : list byte * Raycaster F) :
  header_ok w h -> finish_header w h s = (Ok tt, (fst s ++ bmp_header w h, snd s)).
Proof.
  intros (Hw & Hh & Hs).
  assert (0 <= w * h)%Z by lia.
  unfold finish_header.
  rewrite header_char_B, header_char_M, !dword_ok, !word_ok by lia.
  destruct s as [file self]. cbv [st_bind write st_lift st_modify fst snd].
  unfold bmp_header. rewrite <- !app_assoc. reflexivity.
Qed.

Lemma field_cons (bt : byte) (l : list byte) (off n : nat) :
  field (bt :: l) (S off) n = field l off n.
Proof. reflexivity. Qed.

Lemma field_app_skip (a l : list byte) (off n : nat) :
  (length a <= off)%nat -> field (a ++ l) off n = field l (off - length a) n.
Proof. intros Ho. unfold field. rewrite skipn_app, skipn_all2 by lia. reflexivity. Qed.

Lemma field_le_split_head (k : nat) (c : Z) (l : list byte) :
  field (le_split k c ++ l) 0 k = (c mod 2 ^ (Z.of_nat k * 8))%Z.
Proof.
  unfold field. rewrite drop_0, take_app_length' by (rewrite length_le_split; lia).
  apply le_combine_split.
Qed.

Lemma field_app_prefix (a l : list byte) (off n : nat) :
  (off + n <= length a)%nat -> field (a ++ l) off n = field a off n.
Proof.
  intros Hn. unfold field. rewrite skipn_app, take_app_le by (rewrite length_drop; lia).
  reflexivity.
Qed.

Lemma length_bmp_header (w h : Z) : length (bmp_header w h) = 54%nat.
Proof. unfold bmp_header. rewrite !length_app, !length_le_split. reflexivity. Qed.

(** Read the field at a constant offset of [bmp_header]. *)
Ltac read_field :=
  unfold bmp_header;
  repeat (rewrite field_app_skip by (rewrite ?length_le_split; simpl; lia);
          rewrite ?length_le_split; simpl Nat.sub);
  rewrite field_le_split_head; apply Z.mod_small; simpl (2 ^ _)%Z; lia.

(** The layout of [bmp_header]: the shared core of the theorems below. *)
Lemma bmp_header_layout (w h : Z) :
  header_ok w h ->
  length (bmp_header w h) = 54%nat /\
  bmp_header w h !! 0%nat = Some Byte.x42 /\ bmp_header w h !! 1%nat = Some Byte.x4d /\
  field (bmp_header w h) 2 4 = (54 + w * h * 3)%Z /\ field (bmp_header w h) 10 4 = 54%Z /\
  field (bmp_header w h) 14 4 = 40%Z /\ field (bmp_header w h) 18 4 = w /\
  field (bmp_header w h) 22 4 = h /\ field (bmp_header w h) 26 2 = 1%Z /\
  field (bmp_header w h) 28 2 = 24%Z /\ field (bmp_header w h) 30 4 = 0%Z /\
  field (bmp_header w h) 34 4 = (w * h * 3)%Z.
Proof.
  intros (Hw & Hh & Hs). assert (0 <= w * h)%Z by lia.
  split; [apply length_bmp_header|]. split; [reflexivity|]. split; [reflexivity|].
  repeat split; read_field.
Qed.

(** C13: the header [finish] writes, when its fields fit, is 54 bytes with
    the layout of the spec: the signature [BM], the file size
    [54 + w*h*3] at offset 2, the pixel data offset 54 at 10, the info
    header size 40 at 14, the width at 18, the height at 22, one plane at
    26, 24 bits per pixel at 28, no compression at 30 and the image size
    [w*h*3] at 34. *)
Theorem bmp_header_fields {F : Type} (w h : Z) (s : list byte * Raycaster F) :
  header_ok w h ->
  exists hd, finish_header w h s = (Ok tt, (fst s ++ hd, snd s)) /\
  length hd = 54%nat /\ hd !! 0%nat = Some Byte.x42 /\ hd !! 1%nat = Some Byte.x4d /\
  field hd 2 4 = (54 + w * h * 3)%Z /\ field hd 10 4 = 54%Z /\ field hd 14 4 = 40%Z /\
  field hd 18 4 = w /\ field hd 22 4 = h /\ field hd 26 2 = 1%Z /\ field hd 28 2 = 24%Z /\
  field hd 30 4 = 0%Z /\ field hd 34 4 = (w * h * 3)%Z.
Proof.
  intros Hok. exists (bmp_header w h). split; [apply finish_header_Ok, Hok|].
  apply bmp_header_layout, Hok.
Qed.

(** ** The pixel data, on the reals *)

Section Pixels.
Import Color.

(** The colour [toBytes] leaves in an object, and the bytes it returns. *)
Definition clamped (c : color R) : color R :=
  mkcolor (IZR (clampZ (r c))) (IZR (clampZ (g c))) (IZR (clampZ (b c))).

Definition bytes_of (c : color R) : list byte :=
  match toBytes c with Ok (bs, _) => bs | Err _ => [] end.

(** The bytes of the object a cell refers to, in the original store. *)
Definition pixel_bytes (self : Raycaster R) (l : loc) : list byte :=
  match objects self !! l with Some c => bytes_of c | None => [] end.

(** The bytes of the cells of [pixels], row by row. *)
Definition image_bytes (self : Raycaster R) : list byte :=
  concat (map (fun row => concat (map (pixel_bytes self) row)) (pixels self)).

(** What [finish] may have done to the raycaster so far: the buffer is the
    same and every object is the original one or its clamped version. *)
Definition clamped_from (self rc : Raycaster R) : Prop :=
  pixels rc = pixels self /\
  forall l, objects rc !! l = objects self !! l \/ objects rc !! l = clamped <$> objects self !! l.

Lemma toBytes_R (c : color R) : toBytes c = Ok (bytes_of c, clamped c).
Proof.
  destruct (toBytes_of_ints c _ _ _ eq_refl eq_refl eq_refl) as (bs & E & _).
  unfold bytes_of, clamped. rewrite E. reflexivity.
Qed.

Lemma clamped_idem (c : color R) : clamped (clamped c) = clamped c.
Proof. unfold clamped. simpl. rewrite !clampZ_IZR by apply clampZ_range. reflexivity. Qed.

Lemma bytes_of_clamped (c : color R) : bytes_of (clamped c) = bytes_of c.
Proof.
  destruct (toBytes_of_ints c _ _ _ eq_refl eq_refl eq_refl) as (bs & E & Hbs).
  destruct (toBytes_of_ints (clamped c) (clampZ (r c)) (clampZ (g c)) (clampZ (b c)))
    as (bs' & E' & Hbs'); try (simpl; apply clampZ_IZR, clampZ_range).
  unfold bytes_of. rewrite E, E'. apply byte_value_inj. congruence.
Qed.

Lemma clamped_from_refl (self : Raycaster R) : clamped_from self self.
Proof. split; [reflexivity|]. intros l. left. reflexivity. Qed.

Lemma wf_cell_object (self : Raycaster R) (x y : Z) (l : loc) :
  wf self -> py_getitem2 (pixels self) x y = Ok l -> exists c, objects self !! l = Some c.
Proof.
  intros (_ & _ & Hcells & _) E. unfold py_getitem2 in E.
  destruct (py_getitem (pixels self) x) as [row|] eqn:Er; [|discriminate]. simpl in E.
  apply py_getitem_Ok in Er as (k & _ & Hk), E as (j & _ & Hj).
  rewrite Forall_lookup in Hcells. specialize (Hcells _ _ Hk). rewrite Forall_lookup in Hcells.
  exact (Hcells _ _ Hj).
Qed.

(** One iteration of the loop reads the cell from the unchanged buffer,
    writes the bytes of its original object and clamps that object. *)
Lemma finish_pixel_Ok (self : Raycaster R) (x y : Z) (l : loc) (file : list byte) (rc : Raycaster R) :
  wf self -> clamped_from self rc -> py_getitem2 (pixels self) x y = Ok l ->
  exists rc', finish_pixel x y (file, rc) = (Ok tt, (file ++ pixel_bytes self l, rc')) /\ clamped_from self rc'.
Proof.
  intros Hwf [Hpix Hobj] E. destruct (wf_cell_object _ _ _ _ Hwf E) as [c Hc].
  unfold finish_pixel. simpl. rewrite Hpix, E.
  assert (exists c', objects rc !! l = Some c' /\ bytes_of c' = bytes_of c /\ clamped c' = clamped c)
    as (c' & Hc' & Hb & Hcl).
  { destruct (Hobj l) as [-> | ->]; rewrite Hc; simpl; eexists; split; [reflexivity| |reflexivity|].
    - auto.
    - split; [apply bytes_of_clamped | apply clamped_idem]. }
  rewrite Hc', toBytes_R. eexists. split.
  - unfold pixel_bytes. rewrite Hc, Hb. reflexivity.
  - split; [exact Hpix|]. intros l'. simpl. destruct (decide (l' = l)) as [->|Hne].
    + right. rewrite lookup_insert_eq, Hc, Hcl. reflexivity.
    + rewrite lookup_insert_ne by congruence. apply Hobj.
Qed.

Lemma length_bytes_of (c : color R) : length (bytes_of c) = 3%nat.
Proof.
  destruct (toBytes_of_ints c _ _ _ eq_refl eq_refl eq_refl) as (bs & E & Hbs).
  unfold bytes_of. rewrite E. apply (f_equal length) in Hbs. rewrite length_map in Hbs. exact Hbs.
Qed.

(** One iteration from a state [clamped_from self]: either the cell is
    out of range and the iteration raises [IndexError] with nothing
    written, or it writes three bytes and keeps [clamped_from self]. *)
Lemma finish_pixel_step (self : Raycaster R) (x y : Z) (s s' : list byte * Raycaster R) (r : res unit) :
  wf self -> clamped_from self (snd s) -> finish_pixel x y s = (r, s') ->
  clamped_from self (snd s') /\ (r = Ok tt /\ length (fst s') = (length (fst s) + 3)%nat \/
                                 r = Err IndexError /\ s' = s).
Proof.
  intros Hwf Hs E. destruct (py_getitem2 (pixels self) x y) as [l|e] eqn:El.
  - destruct s as [file rc].
    destruct (finish_pixel_Ok self x y l file rc Hwf Hs El) as (rc' & E' & Hrc').
    rewrite E' in E. injection E as <- <-. split; [exact Hrc'|]. left. split; [reflexivity|].
    simpl. rewrite length_app. unfold pixel_bytes.
    destruct (wf_cell_object _ _ _ _ Hwf El) as [c ->]. rewrite length_bytes_of. reflexivity.
  - unfold finish_pixel in E. destruct Hs as [Hpix Hobj]. rewrite Hpix, El in E.
    injection E as <- <-. split; [split; assumption|]. right. split; [|reflexivity].
    f_equal. eapply py_getitem2_Err; eauto.
Qed.

(** The rows of a square, well-formed buffer, read by [x] and [y] in
    [range(n)], give the bytes of [image_bytes]. *)
Lemma finish_loop_square (self : Raycaster R) (n : Z) (file : list byte) (rc : Raycaster R) :
  wf self -> width self = n -> height self = n -> clamped_from self rc ->
  exists rc', st_for (py_range n) (fun x => st_for (py_range n) (fun y => finish_pixel x y)) (file, rc) =
    (Ok tt, (file ++ image_bytes self, rc')) /\ clamped_from self rc'.
Proof.
  intros Hwf Hw Hh Hrc. pose proof Hwf as (Hlen & Hrows & _).
  unfold image_bytes. rewrite <- (map_py_range_lookup _ [] (pixels self) n) by congruence.
  revert file rc Hrc. apply st_for_append.
  intros x file t (i & Hin & ->)%In_py_range Ht. rewrite Nat2Z.id.
  destruct (lookup_lt_is_Some_2 (pixels self) i) as [row Hrow]; [lia|]. rewrite Hrow.
  rewrite <- (map_py_range_lookup _ [] row n) by (rewrite (wf_row _ _ _ Hwf Hrow); congruence).
  revert file t Ht. apply st_for_append.
  intros y file t (j & Hjn & ->)%In_py_range Ht. rewrite Nat2Z.id.
  destruct (lookup_lt_is_Some_2 row j) as [l Hl]; [rewrite (wf_row _ _ _ Hwf Hrow); lia|]. rewrite Hl.
  apply finish_pixel_Ok; [exact Hwf | exact Ht |].
  unfold py_getitem2. rewrite (py_getitem_nat _ _ _ Hrow). simpl. exact (py_getitem_nat _ _ _ Hl).
Qed.

(** C9: on a well-formed square buffer whose header fields fit,
    [finish] succeeds and the file is the header followed by the clamped
    B, G, R bytes of every cell, row by row.  Cells share colour objects,
    which the loop clamps in place as it goes; each cell is still written
    with the bytes of the object it referred to when [finish] began. *)
Theorem finish_square (self : Raycaster R) (n : Z) :
  wf self -> width self = n -> height self = n -> header_ok n n ->
  exists self', finish self = (Ok tt, (bmp_header n n ++ image_bytes self, self')) /\
    pixels self' = pixels self.
Proof.
  intros Hwf Hw Hh Hok. unfold finish, finish_body. unfold st_bind at 1.
  rewrite Hw, Hh, finish_header_Ok by exact Hok. simpl.
  destruct (finish_loop_square self n (bmp_header n n) self Hwf Hw Hh (clamped_from_refl self))
    as (rc & -> & Hpix & _).
  eexists. split; [reflexivity | exact Hpix].
Qed.
Lemma finish_pixel_out (self : Raycaster R) (x y : Z) (s : list byte * Raycaster R) (e : exn) :
  clamped_from self (snd s) -> py_getitem2 (pixels self) x y = Err e -> finish_pixel x y s = (Err e, s).
Proof. intros [Hpix _] E. unfold finish_pixel. rewrite Hpix, E. reflexivity. Qed.

(** The inner loop [for y in range(h)] from a state [clamped_from self]:
    it keeps that relation, writes at most three bytes a cell, fewer when
    it raises, and raises only [IndexError]. *)
Lemma finish_row_step (self : Raycaster R) (h x : Z) (s s' : list byte * Raycaster R) (r : res unit) :
  wf self -> clamped_from self (snd s) ->
  st_for (py_range h) (fun y => finish_pixel x y) s = (r, s') ->
  clamped_from self (snd s') /\
  (length (fst s') <= length (fst s) + 3 * Z.to_nat h /\
   (r <> Ok tt -> length (fst s') < length (fst s) + 3 * Z.to_nat h))%nat /\
  (forall e, r = Err e -> e = IndexError).
Proof.
  intros Hwf Hs E.
  assert (forall y s r s', clamped_from self (snd s) -> finish_pixel x y s = (r, s') -> clamped_from self (snd s'))
    as HP by (intros; eapply finish_pixel_step; eauto).
  split; [|split].
  - pose proof (st_for_P (fun y => finish_pixel x y) (fun s => clamped_from self (snd s)) HP (py_range h) s Hs)
      as H'.
    rewrite E in H'. exact H'.
  - rewrite <- (length_py_range h). eapply (st_for_bound _ _ HP (fun s => length (fst s)) 3); [|exact Hs|exact E].
    intros y s0 s1 r0 Hs0 E0. destruct (finish_pixel_step _ _ _ _ _ _ Hwf Hs0 E0) as [_ [[-> ->]|[-> ->]]].
    + split; [lia | congruence].
    + split; [lia | intros; lia].
  - intros e ->.
    apply (st_for_Err (fun y => finish_pixel x y) (fun s => clamped_from self (snd s)) HP (py_range h)
             (fun e => e = IndexError) s s' e); [|exact Hs|exact E].
    intros y s0 e0 s1 Hs0 E0. destruct (finish_pixel_step _ _ _ _ _ _ Hwf Hs0 E0) as [_ [[? _]|[? _]]]; congruence.
Qed.

(** A non-square buffer has a cell the loops read out of range: row [h]
    when [w > h], column [w] of row [0] when [w < h]. *)
Lemma finish_bad_cell (self : Raycaster R) (w h : Z) :
  wf self -> width self = w -> height self = h -> (0 < w)%Z -> (0 < h)%Z -> w <> h ->
  exists x y, In x (py_range w) /\ In y (py_range h) /\ py_getitem2 (pixels self) x y = Err IndexError.
Proof.
  intros Hwf Hw Hh Hw0 Hh0 Hne. pose proof Hwf as (Hlen & _).
  destruct (Z.lt_total h w) as [Hlt|[Heq|Hlt]]; [|lia|].
  - exists h, 0%Z. split; [apply In_py_range_2; lia|]. split; [apply In_py_range_2; lia|].
    unfold py_getitem2. rewrite py_getitem_out by lia. reflexivity.
  - destruct (lookup_lt_is_Some_2 (pixels self) 0) as [row Hrow]; [lia|].
    exists 0%Z, w. split; [apply In_py_range_2; lia|]. split; [apply In_py_range_2; lia|].
    unfold py_getitem2. rewrite (py_getitem_nat _ 0 _ Hrow : py_getitem _ 0%Z = _). simpl.
    apply py_getitem_out. rewrite (wf_row _ _ _ Hwf Hrow). lia.
Qed.

(** C10: on a well-formed buffer that is not square, [finish] raises
    [IndexError]: its loops read [self.pixels[x][y]] with [x] up to the
    width, but the buffer has [height] rows of [width] cells.  The file
    it leaves is shorter than the size its header declares. *)
Theorem finish_non_square (self : Raycaster R) (w h : Z) :
  wf self -> width self = w -> height self = h -> header_ok w h -> (0 < w)%Z -> (0 < h)%Z -> w <> h ->
  exists file self', finish self = (Err IndexError, (file, self')) /\
    (length file < Z.to_nat (54 + w * h * 3))%nat.
Proof.
  intros Hwf Hw Hh Hok Hw0 Hh0 Hne.
  set (P := fun s : list byte * Raycaster R => clamped_from self (snd s)).
  assert (forall x s r s', P s -> st_for (py_range h) (fun y => finish_pixel x y) s = (r, s') -> P s')
    as HP by (intros; eapply finish_row_step; eauto).
  assert (forall x y s r s', P s -> finish_pixel x y s = (r, s') -> P s')
    as HPp by (intros; eapply finish_pixel_step; eauto).
  unfold finish, finish_body. unfold st_bind at 1. rewrite Hw, Hh, finish_header_Ok by exact Hok. simpl.
  destruct (finish_bad_cell self w h Hwf Hw Hh Hw0 Hh0 Hne) as (x0 & y0 & Hx0 & Hy0 & Ebad).
  destruct (st_for_stuck _ P HP (py_range w) x0 (fun e => e = IndexError) (bmp_header w h, self) Hx0)
    as (e & [file rc] & E & ->).
  - intros s Hs.
    destruct (st_for_stuck (fun y => finish_pixel x0 y) P (HPp x0) (py_range h) y0 (fun _ => True) s Hy0)
      as (e & s' & -> & _).
    + intros s1 Hs1. rewrite (finish_pixel_out _ _ _ _ _ Hs1 Ebad). discriminate.
    + trivial.
    + exact Hs.
    + discriminate.
  - intros x s e s' Hs E. eapply finish_row_step; eauto.
  - apply clamped_from_refl.
  - exists file, rc. split; [exact E|].
    destruct (st_for_bound _ P HP (fun s => length (fst s)) (3 * Z.to_nat h) (py_range w)
                (bmp_header w h, self) (file, rc) (Err IndexError)
                (fun x s s' r Hs E => proj1 (proj2 (finish_row_step self h x s s' r Hwf Hs E)))
                (clamped_from_refl self) E) as [_ Hlt].
    specialize (Hlt ltac:(discriminate)). cbn [fst] in Hlt. rewrite length_bmp_header, length_py_range in Hlt.
    destruct Hok as (_ & _ & Hs). rewrite Z2Nat.inj_add, !Z2Nat.inj_mul by lia. simpl (Z.to_nat 54). lia.
Qed.
Lemma length_image_bytes (self : Raycaster R) :
  wf self -> length (image_bytes self) = (3 * Z.to_nat (width self) * Z.to_nat (height self))%nat.
Proof.
  intros Hwf. pose proof Hwf as (Hlen & Hrows & Hcells & _). unfold image_bytes.
  rewrite (length_concat_map_const _ _ (3 * Z.to_nat (width self))), Hlen; [reflexivity|].
  intros row Hrow. apply list_elem_of_In in Hrow.
  rewrite Forall_forall in Hrows, Hcells. rewrite <- (Hrows row Hrow).
  apply length_concat_map_const. intros l Hl. apply list_elem_of_In in Hl.
  specialize (Hcells row Hrow). rewrite Forall_forall in Hcells.
  destruct (Hcells l Hl) as [c Hc]. unfold pixel_bytes. rewrite Hc. apply length_bytes_of.
Qed.

(** The length of a row of a 24-bit BMP file, padded to four bytes. *)
Definition bmp_row_stride (w : Z) : Z := (3 * w + 3) / 4 * 4.

(** C14: on a square buffer of side [n], the file [finish] writes is
    [54 + 3 n^2] bytes long, which is the size its header declares.  Its
    rows are not padded: when [n] is not a multiple of 4, the file is
    shorter than a BMP file whose rows are [bmp_row_stride n] bytes. *)
Theorem finish_file_size (self : Raycaster R) (n : Z) :
  wf self -> width self = n -> height self = n -> header_ok n n ->
  exists file self', finish self = (Ok tt, (file, self')) /\
    Z.of_nat (length file) = (54 + n * n * 3)%Z /\ field file 2 4 = Z.of_nat (length file) /\
    ((n mod 4 <> 0)%Z -> (Z.of_nat (length file) < 54 + n * bmp_row_stride n)%Z).
Proof.
  intros Hwf Hw Hh Hok.
  assert (exists self', finish self = (Ok tt, (bmp_header n n ++ image_bytes self, self'))) as (self' & E).
  { unfold finish, finish_body. unfold st_bind at 1. rewrite Hw, Hh, finish_header_Ok by exact Hok. simpl.
    destruct (finish_loop_square self n (bmp_header n n) self Hwf Hw Hh (clamped_from_refl self)) as (rc & -> & _).
    eauto. }
  assert (Z.of_nat (length (bmp_header n n ++ image_bytes self)) = 54 + n * n * 3)%Z as Hl.
  { rewrite length_app, length_bmp_header, length_image_bytes, Hw, Hh by exact Hwf.
    destruct Hok as (Hn & _). rewrite !Nat2Z.inj_add, !Nat2Z.inj_mul, Z2Nat.id by lia. lia. }
  exists (bmp_header n n ++ image_bytes self), self'. split; [exact E|]. split; [exact Hl|]. split.
  - rewrite Hl, field_app_prefix by (rewrite length_bmp_header; lia).
    destruct (bmp_header_layout n n Hok) as (_ & _ & _ & Hf & _). exact Hf.
  - intros Hmod. rewrite Hl. unfold bmp_row_stride. destruct Hok as (Hn & _).
    pose proof (Z.mod_pos_bound n 4 ltac:(lia)).
    pose proof (Z.div_mod (3 * n + 3) 4 ltac:(lia)). pose proof (Z.mod_pos_bound (3 * n + 3) 4 ltac:(lia)).
    pose proof (Z.div_mod n 4 ltac:(lia)).
    assert (3 * n < (3 * n + 3) / 4 * 4)%Z by lia. nia.
Qed.
End Pixels.

(** ** Running the model on binary64 *)

(** A 2 x 2 image of the background [BLACK]: the header, then twelve
    zero bytes. *)
Example finish_float_black :
  fst (finish (Raycaster_init (F := binary64) 2 2)) = Ok tt /\
  fst (snd (finish (Raycaster_init (F := binary64) 2 2))) = bmp_header 2 2 ++ repeat Byte.x00 12.
Proof. vm_compute. split; reflexivity. Qed.

(** One colour object shared by the cells [(0, 0)] and [(1, 1)]: the first
    [toBytes] clamps it in place, the second writes the same bytes. *)
Example finish_float_shared :
  let (l, rc) := alloc (Raycaster_init (F := binary64) 2 2) (Color.mkcolor (sZ 300) (sZ (-5)) (lit 107 10)) in
  fst (snd (finish (point (point rc 0 0 (Some l)) 1 1 (Some l)))) =
  bmp_header 2 2 ++ [Byte.x0a; Byte.x00; Byte.xff] ++ repeat Byte.x00 6 ++ [Byte.x0a; Byte.x00; Byte.xff].
Proof. vm_compute. reflexivity. Qed.

(** A 3 x 2 image: the loops reach [self.pixels[2]] of a buffer of two
    rows after four cells, and the file stops at 66 of the 72 bytes its
    header declares. *)
Example finish_float_non_square :
  fst (finish (Raycaster_init (F := binary64) 3 2)) = Err IndexError /\
  length (fst (snd (finish (Raycaster_init (F := binary64) 3 2)))) = 66%nat.
Proof. vm_compute. split; reflexivity. Qed.

(** ** Witnesses *)

Lemma header_ok_2 : header_ok 2 2.
Proof. unfold header_ok. lia. Qed.

Lemma bmp_header_fields_witness :
  exists hd, finish_header 640 480 ([], rc2x2) = (Ok tt, ([] ++ hd, rc2x2)) /\
    field hd 18 4 = 640%Z /\ field hd 22 4 = 480%Z.
Proof.
  destruct (bmp_header_fields 640 480 ([], rc2x2) ltac:(unfold header_ok; lia))
    as (hd & E & _ & _ & _ & _ & _ & _ & Hw & Hh & _).
  exists hd. split; [exact E|]. split; [exact Hw | exact Hh].
Defined.

Lemma finish_square_witness :
  exists self', finish rc2x2 = (Ok tt, (bmp_header 2 2 ++ image_bytes rc2x2, self')) /\
    pixels self' = pixels rc2x2.
Proof. apply finish_square; [apply Raycaster_init_store | reflexivity | reflexivity | exact header_ok_2]. Defined.

Lemma finish_non_square_witness :
  exists file self', finish (Raycaster_init (F := R) 3 2) = (Err IndexError, (file, self')) /\
    (length file < Z.to_nat (54 + 3 * 2 * 3))%nat.
Proof.
  apply finish_non_square; [apply Raycaster_init_store | reflexivity | reflexivity | unfold header_ok; lia | lia | lia | lia].
Defined.

Lemma finish_file_size_witness :
  exists file self', finish rc2x2 = (Ok tt, (file, self')) /\
    Z.of_nat (length file) = (54 + 2 * 2 * 3)%Z /\ field file 2 4 = Z.of_nat (length file) /\
    ((2 mod 4 <> 0)%Z -> (Z.of_nat (length file) < 54 + 2 * bmp_row_stride 2)%Z).
Proof. apply finish_file_size; [apply Raycaster_init_store | reflexivity | reflexivity | exact header_ok_2]. Defined.

End Bmp.
