(* ===== verification/Render.v ===== *)
(** The render loop [Raycaster.render] of src/ray.py.

    [render] computes [fov = int(pi/2)] once, then, for [y] in
    [range(height)] and [x] in [range(width)], builds the camera ray
    through the pixel, casts it from the two eye points [(0.3, 0, 0)] and
    [(-0.3, 0, 0)], tints each result red or blue unless it compares equal
    to the background, and stores the sum, a new colour object, at
    [self.pixels[y][x]].  The model threads the raycaster: each pixel
    allocates its object in the store and writes its identity into the
    buffer; an exception of [cast_ray] stops the loop with the pixels
    written so far.

    Theorems: [fov] is [1] (radian), not [pi/2], so every primary ray
    lies within a vertical half-angle of half a radian, below the 45
    degrees [pi/2] suggests; [render] keeps the frame-buffer invariant on
    every path; when it returns, every cell
    refers to a new object holding the colour of that pixel, and no two
    cells share an object; on an empty scene with a grey background it
    returns, and every pixel is the background added to itself. *)

From S2P Require Import Prelude ScalarR ScalarFloat Vec Color Scene Shading FrameBuffer.
From Stdlib Require Import FunctionalExtensionality.

Module Render.
Import Scene Shading FrameBuffer.

Section Defs.
Context {F : Type} `{Scalar F}.

(** [int(v)] of a float: [ValueError] for NaN. *)
Definition py_int (v : F) : res Z :=
  match s_trunc v with Some n => Ok n | None => Err ValueError end.

(** Line 141: [fov = int(pi/2)]. *)
Definition render_fov : res Z := py_int (s_pi /. sZ 2).

(** Lines 144-146: the primary ray through pixel [(x, y)]; [t] is
    [tan(fov/2)]. *)
Definition camera_direction (self : Raycaster F) (t : F) (x y : Z) : res (Vec.V3 F) :=
  let* i0 := py_div (sZ 2 *. (sZ x +. lit 1 2)) (sZ (width self)) in
  let* i := py_div ((i0 -. sZ 1) *. t *. sZ (width self)) (sZ (height self)) in
  let* j0 := py_div (sZ 2 *. (sZ y +. lit 1 2)) (sZ (height self)) in
  let j := (j0 -. sZ 1) *. t in
  Ok (Vec.norm (Vec.mkV3 i j (sZ (-1)))).

(** Lines 149 and 153: [(c * 0.5 + tint) if c != self.background_color
    else c]. *)
Definition tint (self : Raycaster F) (c tint_color : Color.color F) : Color.color F :=
  if Color.ne c (Some (background_color self)) then Color.add (Color.mul c (lit 1 2)) tint_color else c.

(** Lines 144-155: [luz_total] for pixel [(x, y)]. *)
Definition pixel_color (self : Raycaster F) (t : F) (x y : Z) : res (Color.color F) :=
  let* direction := camera_direction self t x y in
  let* ver_rojo := cast_ray self (Vec.mkV3 (lit 3 10) (sZ 0) (sZ 0)) direction 0 in
  let luz_roja := tint self ver_rojo (Color.mkcolor (sZ 100) (sZ 0) (sZ 0)) in
  let* ver_azul := cast_ray self (Vec.mkV3 (s_opp (lit 3 10)) (sZ 0) (sZ 0)) direction 0 in
  let luz_azul := tint self ver_azul (Color.mkcolor (sZ 0) (sZ 0) (sZ 100)) in
  Ok (Color.add luz_roja luz_azul).

(** Line 156: [self.pixels[y][x] = luz_total], the sum being a new
    object. *)
Definition render_pixel (t : F) (x y : Z) : st (Raycaster F) unit :=
  fun self =>
    match pixel_color self t x y with
    | Err e => (Err e, self)
    | Ok c =>
        let (l, self1) := alloc self c in
        match py_setitem2 (pixels self1) y x l with
        | Ok p => (Ok tt, set_pixels self1 p)
        | Err e => (Err e, self1)
        end
    end.

(** [render()] *)
Definition render (self : Raycaster F) : res unit * Raycaster F :=
  match render_fov with
  | Err e => (Err e, self)
  | Ok fov =>
      let t := s_tan (sZ fov /. sZ 2) in
      st_for (py_range (height self)) (fun y =>
        st_for (py_range (width self)) (fun x => render_pixel t x y)) self
  end.
End Defs.

(** ** The field of view *)

Lemma PI_lt_4 : (PI < 4)%R.
Proof. pose proof (PI_ineq 1) as [_ Hpi]. unfold tg_alt, PI_tg in Hpi. simpl in Hpi. lra. Qed.

(** ** The loop *)

Section Loop.
Context {F : Type} `{Scalar F}.

(** The attributes [cast_ray] and the camera read. *)
Definition same_view (s1 s2 : Raycaster F) : Prop :=
  width s1 = width s2 /\ height s1 = height s2 /\ background_color s1 = background_color s2 /\
  scene s1 = scene s2 /\ light s1 = light s2.

Lemma cast_ray_fuel_view (n : nat) (s1 s2 : Raycaster F) :
  same_view s1 s2 -> cast_ray_fuel n s1 = cast_ray_fuel n s2.
Proof.
  intros Hv. pose proof Hv as (_ & _ & Hbg & Hsc & Hl).
  induction n as [|n IH]; extensionality o; extensionality d; extensionality r; simpl; [reflexivity|].
  rewrite IH. unfold cast_ray_body. rewrite Hbg, Hsc, Hl. reflexivity.
Qed.

Lemma pixel_color_view (s1 s2 : Raycaster F) t x y :
  same_view s1 s2 -> pixel_color s1 t x y = pixel_color s2 t x y.
Proof.
  intros Hv. pose proof Hv as (Hw & Hh & Hbg & _).
  unfold pixel_color, camera_direction, tint, cast_ray. rewrite Hw, Hh, Hbg, (cast_ray_fuel_view _ s1 s2 Hv).
  reflexivity.
Qed.

Variables (self0 : Raycaster F) (t : F).

(** The state after the pixels [P] (pairs [(y, x)]) have been rendered:
    each of their cells refers to an object, allocated by [render], that
    holds the pixel's colour, and no two of them share an object. *)
Definition rendered (P : list (Z * Z)) (s : Raycaster F) : Prop :=
  same_view s self0 /\ wf s /\ (next_loc self0 <= next_loc s)%positive /\
  (forall i j, In (Z.of_nat i, Z.of_nat j) P -> exists l c,
     cell (pixels s) i j = Some l /\ objects s !! l = Some c /\
     pixel_color self0 t (Z.of_nat j) (Z.of_nat i) = Ok c /\ (next_loc self0 <= l)%positive) /\
  (forall i j i' j' l, In (Z.of_nat i, Z.of_nat j) P -> In (Z.of_nat i', Z.of_nat j') P ->
     cell (pixels s) i j = Some l -> cell (pixels s) i' j' = Some l -> i = i' /\ j = j').

Lemma rendered_start : wf self0 -> rendered [] self0.
Proof.
  intros Hwf. split; [repeat split; reflexivity|]. split; [exact Hwf|]. split; [lia|].
  split; intros *; simpl; tauto.
Qed.

Lemma In_snoc_pair (P : list (Z * Z)) (i j i' j' : nat) :
  In (Z.of_nat i', Z.of_nat j') (P ++ [(Z.of_nat i, Z.of_nat j)]) ->
  (i' = i /\ j' = j) \/ In (Z.of_nat i', Z.of_nat j') P.
Proof. rewrite in_app_iff. simpl. intros [Hp|[Hp|[]]]; [right; exact Hp | left; injection Hp; lia]. Qed.

(** One pixel from a rendered state: it raises what [pixel_color]
    raises, with nothing changed, or renders the pixel. *)
Lemma render_pixel_step (P : list (Z * Z)) (s : Raycaster F) (i j : nat) :
  rendered P s -> (i < Z.to_nat (height self0))%nat -> (j < Z.to_nat (width self0))%nat ->
  (forall e, pixel_color self0 t (Z.of_nat j) (Z.of_nat i) = Err e ->
     render_pixel t (Z.of_nat j) (Z.of_nat i) s = (Err e, s)) /\
  (forall c, pixel_color self0 t (Z.of_nat j) (Z.of_nat i) = Ok c ->
     exists s', render_pixel t (Z.of_nat j) (Z.of_nat i) s = (Ok tt, s') /\
       rendered (P ++ [(Z.of_nat i, Z.of_nat j)]) s').
Proof.
  intros (Hv & Hwf & Hnext & Hcells & Hinj) Hi Hj.
  unfold render_pixel. rewrite (pixel_color_view s self0) by exact Hv.
  split; [intros e ->; reflexivity|]. intros c Hpc. rewrite Hpc.
  destruct (alloc_wf s c Hwf) as (Hwf1 & Hl & Hfree & Hobj1).
  destruct (alloc s c) as [l s1] eqn:Ea. simpl in Hwf1, Hl, Hobj1. subst l.
  assert (pixels s1 = pixels s /\ same_view s1 self0 /\ next_loc s1 = Pos.succ (next_loc s)) as (Hp1 & Hv1 & Hn1)
    by (unfold alloc in Ea; injection Ea as <-; exact (conj eq_refl (conj Hv eq_refl))).
  pose proof Hwf as (Hlen & _). pose proof Hv as (Hw & Hh & _).
  destruct (lookup_lt_is_Some_2 (pixels s) i) as [row Hrow]; [lia|].
  assert (length row = Z.to_nat (width self0)) as Hrl by (rewrite <- Hw; eapply wf_row; eauto).
  assert (py_setitem2 (pixels s1) (Z.of_nat i) (Z.of_nat j) (next_loc s) =
          Ok (<[i := <[j := next_loc s]> row]> (pixels s))) as E.
  { rewrite Hp1. apply py_setitem2_Ok. exists i, row, j.
    rewrite !py_index_in_range by lia. rewrite !Nat2Z.id. auto. }
  rewrite E. eexists. split; [reflexivity|].
  assert (Hcell : forall i' j', cell (<[i := <[j := next_loc s]> row]> (pixels s)) i' j' =
            if decide (i' = i /\ j' = j) then Some (next_loc s) else cell (pixels s) i' j')
    by (intros; apply cell_insert2; [exact Hrow | lia]).
  assert (Hold : forall i' j' l', cell (pixels s) i' j' = Some l' -> l' <> next_loc s).
  { intros i' j' l' Hc ->. destruct (wf_cell_store _ _ _ _ Hwf Hc) as [? Hs]. congruence. }
  split; [exact Hv1|]. split; [exact (set_cell_wf _ _ _ _ _ Hwf1 ltac:(rewrite Hobj1, lookup_insert_eq; eauto) E)|].
  split; [unfold set_pixels; simpl; lia|]. unfold set_pixels; simpl pixels; simpl objects. rewrite Hobj1.
  split.
  - intros i' j' Hin. rewrite Hcell. case_decide as Hd.
    + destruct Hd as [-> ->]. exists (next_loc s), c. rewrite lookup_insert_eq. repeat split; auto.
    + destruct (In_snoc_pair _ _ _ _ _ Hin) as [?|HP]; [tauto|].
      destruct (Hcells _ _ HP) as (l' & c' & Hc & Ho & Hpc' & Hle).
      exists l', c'. rewrite lookup_insert_ne by (apply not_eq_sym; eapply Hold; eauto). repeat split; auto.
  - intros i1 j1 i2 j2 l Hin1 Hin2. rewrite !Hcell.
    case_decide as Hd1; case_decide as Hd2; intros E1 E2.
    + lia.
    + injection E1 as <-. exfalso. eapply Hold; eauto.
    + injection E2 as <-. exfalso. eapply Hold; eauto.
    + destruct (In_snoc_pair _ _ _ _ _ Hin1) as [?|HP1]; [tauto|].
      destruct (In_snoc_pair _ _ _ _ _ Hin2) as [?|HP2]; [tauto|]. eauto.
Qed.
End Loop.

(** The pixels in the order [render] visits them: row by row. *)
Definition render_order (w : Z) (ys : list Z) : list (Z * Z) :=
  concat (map (fun y => map (fun x => (y, x)) (py_range w)) ys).

Lemma render_order_snoc (w : Z) (ys : list Z) (y : Z) :
  render_order w (ys ++ [y]) = render_order w ys ++ map (fun x => (y, x)) (py_range w).
Proof. unfold render_order. rewrite map_app, concat_app. simpl. rewrite app_nil_r. reflexivity. Qed.

Lemma In_render_order (w h : Z) (i j : nat) :
  (i < Z.to_nat h)%nat -> (j < Z.to_nat w)%nat -> In (Z.of_nat i, Z.of_nat j) (render_order w (py_range h)).
Proof.
  intros Hi Hj. unfold render_order. apply in_concat. exists (map (fun x => (Z.of_nat i, x)) (py_range w)).
  split; apply in_map_iff; [exists (Z.of_nat i) | exists (Z.of_nat j)]; split; auto; apply In_py_range_2; lia.
Qed.

Section Rows.
Context {F : Type} `{Scalar F} (self : Raycaster F) (t : F).

Abbreviation rows := (st_for (py_range (height self)) (fun y =>
  st_for (py_range (width self)) (fun x => render_pixel t x y))).

(** The loops of [render], when they return, have rendered every pixel. *)
Lemma render_rows_Ok (self' : Raycaster F) :
  wf self -> rows self = (Ok tt, self') -> rendered self t (render_order (width self) (py_range (height self))) self'.
Proof.
  intros Hwf E.
  apply (st_for_hoare _ (fun ys s => rendered self t (render_order (width self) ys) s) _ ) with (done := []) (s := self) in E;
    [exact E| | apply rendered_start, Hwf].
  intros ys y s s' Hy Hs Ey. rewrite render_order_snoc.
  apply (st_for_hoare _ (fun xs s => rendered self t (render_order (width self) ys ++ map (fun x => (y, x)) xs) s) _)
    with (done := []) (s := s) in Ey; [exact Ey| | simpl; rewrite app_nil_r; exact Hs].
  intros xs x s1 s2 Hx Hs1 Ex. apply In_py_range in Hx as (j & Hj & ->), Hy as (i & Hi & ->).
  destruct (render_pixel_step self t _ s1 i j Hs1 Hi Hj) as [HErr HOk].
  destruct (pixel_color self t (Z.of_nat j) (Z.of_nat i)) as [c|e] eqn:Ec.
  - destruct (HOk c eq_refl) as (s3 & E3 & Hs3). rewrite E3 in Ex. injection Ex as <-.
    rewrite map_app, app_assoc. exact Hs3.
  - rewrite (HErr e eq_refl) in Ex. discriminate.
Qed.

(** The loops return when every pixel's colour can be computed. *)
Lemma render_rows_total :
  wf self ->
  (forall i j, (i < Z.to_nat (height self))%nat -> (j < Z.to_nat (width self))%nat ->
     exists c, pixel_color self t (Z.of_nat j) (Z.of_nat i) = Ok c) ->
  exists self', rows self = (Ok tt, self').
Proof.
  intros Hwf Hpc.
  refine (match st_for_total _ (fun ys s => rendered self t (render_order (width self) ys) s)
                  (py_range (height self)) _ [] self (rendered_start self t Hwf) with
          | ex_intro _ self' (conj E _) => ex_intro _ self' E end).
  intros ys y s Hy Hs. apply In_py_range in Hy as (i & Hi & ->).
  setoid_rewrite render_order_snoc.
  refine (st_for_total _ (fun xs s => rendered self t (render_order (width self) ys ++ map (fun x => (Z.of_nat i, x)) xs) s)
           _ _ [] s _); [| simpl; rewrite app_nil_r; exact Hs].
  intros xs x s1 Hx Hs1. apply In_py_range in Hx as (j & Hj & ->).
  destruct (Hpc i j Hi Hj) as [c Ec].
  destruct (proj2 (render_pixel_step self t _ s1 i j Hs1 Hi Hj) c Ec) as (s2 & E2 & Hs2).
  exists s2. split; [exact E2|]. rewrite map_app, app_assoc. exact Hs2.
Qed.
End Rows.

(** ** Theorems *)

Section Claims.
Context {F : Type} `{Scalar F}.

Lemma render_pixel_wf (t : F) (x y : Z) (s s' : Raycaster F) (r : res unit) :
  wf s -> render_pixel t x y s = (r, s') -> wf s'.
Proof.
  intros Hwf E. unfold render_pixel in E. destruct (pixel_color s t x y) as [c|e]; [|congruence].
  destruct (alloc_wf s c Hwf) as (Hwf1 & Hl & _ & Hobj1). destruct (alloc s c) as [l s1]. simpl in * .
  destruct (py_setitem2 (pixels s1) y x l) as [p|e] eqn:Ep; injection E as <- <-; [|exact Hwf1].
  apply (set_cell_wf _ x y l _ Hwf1); [|exact Ep]. rewrite Hobj1, Hl, lookup_insert_eq. eauto.
Qed.

(** [render] keeps the frame-buffer invariant on every path,
    including when [cast_ray] raises part-way through the image. *)
Theorem render_keeps_wf (self : Raycaster F) : wf self -> wf (snd (render self)).
Proof.
  intros Hwf. unfold render. destruct render_fov as [fov|e]; [|exact Hwf].
  apply (st_for_P _ wf); [|exact Hwf].
  intros y s r s' Hs E.
  pose proof (st_for_P (fun x => render_pixel (s_tan (sZ fov /. sZ 2)) x y) wf
                (fun x s1 r1 s2 Hs1 E1 => render_pixel_wf _ _ _ _ _ _ Hs1 E1) (py_range (width self)) s Hs) as Hp.
  rewrite E in Hp. exact Hp.
Qed.

(** C11: when [render] returns, every cell of the [height] x [width]
    buffer refers to an object allocated by [render] that holds the
    colour [pixel_color] computes for that pixel, with the camera of
    [fov]; no two cells share an object, so the in-place clamping of
    [toBytes] in [finish] affects one pixel only. *)
Theorem render_fills (self self' : Raycaster F) (fov : Z) :
  wf self -> render_fov = Ok fov -> render self = (Ok tt, self') ->
  wf self' /\
  (forall i j, (i < Z.to_nat (height self))%nat -> (j < Z.to_nat (width self))%nat ->
     exists l c, cell (pixels self') i j = Some l /\ objects self' !! l = Some c /\
       pixel_color self (s_tan (sZ fov /. sZ 2)) (Z.of_nat j) (Z.of_nat i) = Ok c /\
       (next_loc self <= l)%positive) /\
  (forall i j i' j' l, (i < Z.to_nat (height self))%nat -> (j < Z.to_nat (width self))%nat ->
     (i' < Z.to_nat (height self))%nat -> (j' < Z.to_nat (width self))%nat ->
     cell (pixels self') i j = Some l -> cell (pixels self') i' j' = Some l -> i = i' /\ j = j').
Proof.
  intros Hwf Hfov E. unfold render in E. rewrite Hfov in E.
  destruct (render_rows_Ok self _ self' Hwf E) as (_ & Hwf' & _ & Hcells & Hinj).
  split; [exact Hwf'|]. split.
  - intros i j Hi Hj. apply Hcells, In_render_order; assumption.
  - intros i j i' j' l Hi Hj Hi' Hj'. apply Hinj; apply In_render_order; assumption.
Qed.
End Claims.

Lemma render_fov_R : render_fov (F := R) = Ok 1%Z.
Proof.
  unfold render_fov, py_int. rsimpl. f_equal.
  pose proof PI2_1. pose proof PI_lt_4.
  pose proof (R_trunc_nonneg (PI / 2) ltac:(lra)) as [H1 H2].
  assert (0 < R_trunc (PI / 2) < 2)%Z as Hb; [|lia].
  split; [apply lt_IZR | apply lt_IZR]; simpl; lra.
Qed.

Section View.
Local Open Scope R_scope.

(** The normalised device coordinate of a pixel centre lies strictly
    inside [-1, 1]. *)
Lemma pixel_ndc (n k : Z) : (0 <= k < n)%Z -> -1 < 2 * (IZR k + 1 / 2) / IZR n - 1 < 1.
Proof.
  intros Hk. assert (0 < IZR n) by (apply IZR_lt; lia). assert (0 <= IZR k) by (apply IZR_le; lia).
  assert (IZR k + 1 <= IZR n) by (rewrite <- plus_IZR; apply IZR_le; lia).
  set (a := 2 * (IZR k + 1 / 2) / IZR n). assert (a * IZR n = 2 * (IZR k + 1 / 2)) by (unfold a; field; lra).
  split; nra.
Qed.

Lemma tan_half_bounds : 0 < tan (1 / 2) < 1.
Proof.
  pose proof PI2_3_2. split; [apply tan_gt_0; lra|].
  apply Rlt_le_trans with (tan (PI / 4)); [apply tan_increasing; lra | rewrite tan_PI4; lra].
Qed.



Lemma abs_scaled_lt (a K q : R) : -1 < a < 1 -> 0 < K -> 0 < q -> Rabs (a * K * q) < K * Rabs (-1 * q).
Proof.
  intros Ha HK Hq. rewrite (Rabs_left (-1 * q)) by lra.
  assert (0 < K * q) by (apply Rmult_lt_0_compat; lra). apply Rabs_def1; nra.
Qed.

(** C12: the view of [render]: with [fov = int(pi/2)], every primary ray
    through a pixel [(x, y)] of the image has a direction [d] whose
    slopes satisfy [|d.y| < tan(1/2) |d.z|] and
    [|d.x| < tan(1/2) (width / height) |d.z|], and [tan(1/2) < 1]: the
    vertical field of view is narrower than the 90 degrees ([tan] of the
    half-angle equal to 1) that [pi/2] suggests. *)
Theorem render_view_bounds (self : Raycaster R) (x y : Z) :
  (0 <= x < width self)%Z -> (0 <= y < height self)%Z ->
  exists fov d, render_fov (F := R) = Ok fov /\
    camera_direction self (s_tan (sZ fov /. sZ 2)) x y = Ok d /\
    Rabs (Vec.x d) < tan (1 / 2) * (IZR (width self) / IZR (height self)) * Rabs (Vec.z d) /\
    Rabs (Vec.y d) < tan (1 / 2) * Rabs (Vec.z d) /\ tan (1 / 2) < 1.
Proof.
  intros Hx Hy. pose proof (pixel_ndc _ _ Hx) as Hi. pose proof (pixel_ndc _ _ Hy) as Hj.
  pose proof tan_half_bounds as Ht.
  assert (0 < IZR (width self)) as Hw by (apply IZR_lt; lia).
  assert (0 < IZR (height self)) as Hh by (apply IZR_lt; lia).
  exists 1%Z. unfold camera_direction. cbn [s_of_Z s_tan s_div R_scalar].
  repeat (rewrite R_py_div by lra; cbn [res_bind]). eexists. split; [exact render_fov_R|]. split; [reflexivity|].
  match goal with |- context [Vec.norm ?v] => set (u := v) end.
  assert (0 < Vec.length u) as HL.
  { pose proof (Vec.length_nonneg u). destruct (Req_dec (Vec.length u) 0) as [H0|]; [|lra].
    apply Vec.length_zero_iff in H0. unfold u in H0. injection H0. rsimpl. lra. }
  rewrite (Vec.norm_as_mul u) by lra. unfold u at 1 3 5. unfold Vec.mul. cbn [Vec.x Vec.y Vec.z]. rsimpl.
  assert (0 < / Vec.length u) as Hq by (apply Rinv_0_lt_compat; exact HL).
  set (q := / Vec.length u) in * . set (t := tan (1 / 2)) in * .
  split_and!; [| apply abs_scaled_lt; lra | lra].
  replace ((2 * (IZR x + 1 / 2) / IZR (width self) - 1) * t * IZR (width self) / IZR (height self) * q)
    with ((2 * (IZR x + 1 / 2) / IZR (width self) - 1) * (t * (IZR (width self) / IZR (height self))) * q)
    by (field; lra).
  apply abs_scaled_lt; [lra | apply Rmult_lt_0_compat; [lra | apply Rdiv_lt_0_compat; lra] | lra].
Qed.
End View.

Example render_fov_float : render_fov (F := binary64) = Ok 1%Z.
Proof. vm_compute. reflexivity. Qed.

(** On an empty scene every ray misses: both eyes see the background. *)
Lemma pixel_color_empty (self : Raycaster R) (t : R) (x y : Z) :
  scene self = [] -> Color.r (background_color self) = Color.g (background_color self) ->
  Color.g (background_color self) = Color.b (background_color self) ->
  (0 < width self)%Z -> (0 < height self)%Z ->
  pixel_color self t x y = Ok (Color.add (background_color self) (background_color self)).
Proof.
  intros Hsc Hrg Hgb Hw Hh.
  assert (forall o d, cast_ray self o d 0 = Ok (background_color self)) as Hmiss.
  { intros o d. unfold cast_ray. simpl. unfold cast_ray_body. rewrite Hsc. reflexivity. }
  unfold pixel_color, camera_direction. cbn [s_of_Z R_scalar].
  assert (IZR (width self) <> 0 /\ IZR (height self) <> 0)%R as [Hw' Hh'] by (split; apply not_0_IZR; lia).
  repeat (rewrite R_py_div by assumption; cbn [res_bind]).
  repeat (rewrite Hmiss; cbn [res_bind]). unfold tint, Color.ne.
  assert (Color.eq (background_color self) (Some (background_color self)) = true) as ->
    by (apply Color.eq_spec_R; repeat split; congruence).
  reflexivity.
Qed.

(** C22: on an empty scene with a grey background (such as [BLACK]),
    [render] returns on a well-formed buffer, and every pixel is a new
    object holding the background added to itself: no tint is applied,
    because both eyes see the background. *)
Theorem render_empty_scene (self : Raycaster R) :
  wf self -> scene self = [] -> Color.r (background_color self) = Color.g (background_color self) ->
  Color.g (background_color self) = Color.b (background_color self) ->
  exists self', render self = (Ok tt, self') /\
    forall i j, (i < Z.to_nat (height self))%nat -> (j < Z.to_nat (width self))%nat ->
      exists l, cell (pixels self') i j = Some l /\
        objects self' !! l = Some (Color.add (background_color self) (background_color self)).
Proof.
  intros Hwf Hsc Hrg Hgb. unfold render. rewrite render_fov_R.
  set (t := s_tan (sZ 1 /. sZ 2)).
  destruct (render_rows_total self t Hwf) as [self' E].
  { intros i j Hi Hj. eexists. apply pixel_color_empty; auto; lia. }
  exists self'. split; [exact E|].
  destruct (render_rows_Ok self t self' Hwf E) as (_ & _ & _ & Hcells & _).
  intros i j Hi Hj. destruct (Hcells i j (In_render_order _ _ _ _ Hi Hj)) as (l & c & Hc & Ho & Hpc & _).
  rewrite pixel_color_empty in Hpc by (auto; lia). injection Hpc as <-. eauto.
Qed.

(** ** Witnesses *)

Definition rc1x1 : Raycaster binary64 := Raycaster_init 1 1.

Lemma render_view_bounds_witness :
  exists fov d, render_fov (F := R) = Ok fov /\
    camera_direction (Raycaster_init 2 2) (s_tan (sZ fov /. sZ 2)) 0 1 = Ok d /\
    (Rabs (Vec.x d) < tan (1 / 2) * (IZR (width (Raycaster_init (F := R) 2 2)) /
                                     IZR (height (Raycaster_init (F := R) 2 2))) * Rabs (Vec.z d))%R /\
    (Rabs (Vec.y d) < tan (1 / 2) * Rabs (Vec.z d))%R /\ (tan (1 / 2) < 1)%R.
Proof. apply render_view_bounds; cbn; lia. Defined.

Lemma render_keeps_wf_witness : wf (snd (render (Raycaster_init (F := R) 2 2))).
Proof. apply render_keeps_wf, Raycaster_init_store. Defined.

Lemma render_fills_witness :
  wf (snd (render rc1x1)) /\
  (forall i j, (i < Z.to_nat (height rc1x1))%nat -> (j < Z.to_nat (width rc1x1))%nat ->
     exists l c, cell (pixels (snd (render rc1x1))) i j = Some l /\ objects (snd (render rc1x1)) !! l = Some c /\
       pixel_color rc1x1 (s_tan (sZ 1 /. sZ 2)) (Z.of_nat j) (Z.of_nat i) = Ok c /\
       (next_loc rc1x1 <= l)%positive) /\
  (forall i j i' j' l, (i < Z.to_nat (height rc1x1))%nat -> (j < Z.to_nat (width rc1x1))%nat ->
     (i' < Z.to_nat (height rc1x1))%nat -> (j' < Z.to_nat (width rc1x1))%nat ->
     cell (pixels (snd (render rc1x1))) i j = Some l -> cell (pixels (snd (render rc1x1))) i' j' = Some l ->
     i = i' /\ j = j').
Proof. apply render_fills; [apply Raycaster_init_store | vm_compute; reflexivity | vm_compute; reflexivity]. Defined.

Lemma render_empty_scene_witness :
  exists self', render (Raycaster_init (F := R) 2 2) = (Ok tt, self') /\
    forall i j, (i < 2)%nat -> (j < 2)%nat ->
      exists l, cell (pixels self') i j = Some l /\ objects self' !! l = Some (Color.add BLACK BLACK).
Proof. apply render_empty_scene; [apply Raycaster_init_store | reflexivity | reflexivity | reflexivity]. Defined.

End Render.
