(* ===== verification/Main.v ===== *)
(** The program entry of src/ray.py (lines 158-173).

    The module-level script builds [r = Raycaster(2000, 2000)], assigns
    [r.light = Light(position=V3(40, 20, 20), intensity=1.5)] and
    [r.scene = [Sphere(V3(0, -1, -10), 2, esferas)]], then calls
    [r.render()] and [r.finish('holaPandai.bmp')].  [main] composes the
    models of these steps: attribute assignments are record updates, an
    exception of [render] ends the script before the file is opened.

    Theorem: on the reals the script runs to completion: [cast_ray] never
    raises on this scene (its light is set, [esferas] has four albedo
    weights and no refractive weight), so [render] returns, and the image
    is square, so [finish] writes the whole file, [54 + 3 * 2000 * 2000]
    bytes, the header followed by the clamped bytes of every rendered
    pixel. *)

From S2P Require Import Prelude ScalarR ScalarFloat Vec Color Scene Sphere Shading Pack FrameBuffer Bmp Render.

Module Main.
Import Scene Sphere Shading FrameBuffer Bmp Render.

Section Defs.
Context {F : Type} `{Scalar F}.

(** [r.light = ...] *)
Definition set_light (self : Raycaster F) (l : Light F) : Raycaster F :=
  mkRaycaster (width self) (height self) (background_color self) (background_loc self)
    (scene self) (Some l) (pixels self) (objects self) (next_loc self).

(** [r.scene = ...] *)
Definition set_scene (self : Raycaster F) (sc : list (Obj F)) : Raycaster F :=
  mkRaycaster (width self) (height self) (background_color self) (background_loc self)
    sc (light self) (pixels self) (objects self) (next_loc self).

(** Lines 158-169: the raycaster, its light and its one-sphere scene. *)
Definition main_raycaster : Raycaster F :=
  set_scene
    (set_light (Raycaster_init 2000 2000)
       (Light_init (Vec.mkV3 (sZ 40) (sZ 20) (sZ 20)) (lit 15 10)))
    [to_obj (mkSphere (Vec.mkV3 (sZ 0) (sZ (-1)) (sZ (-10))) (sZ 2) esferas)].

(** Lines 172-173: [r.render()], then [r.finish(...)]; the outcome, the
    file written and the raycaster at the end. *)
Definition main : res unit * (list byte * Raycaster F) :=
  let (r1, rc1) := render main_raycaster in
  match r1 with
  | Err e => (Err e, ([], rc1))
  | Ok _ => finish rc1
  end.
End Defs.

(** ** The script on the reals *)

Open Scope R_scope.

Lemma main_raycaster_wf {F : Type} `{Scalar F} : wf (main_raycaster (F := F)).
Proof. exact (Raycaster_init_store 2000 2000). Qed.

Lemma main_raycaster_size {F : Type} `{Scalar F} :
  width (main_raycaster (F := F)) = 2000%Z /\ height (main_raycaster (F := F)) = 2000%Z.
Proof. split; reflexivity. Qed.

Lemma main_safe : safe_scene (main_raycaster (F := R)).
Proof.
  split; [eexists; reflexivity|]. intros obj [<-|[]].
  exists (lit 6 10), (lit 3 10), (lit 1 10), (sZ 0). split; [reflexivity|].
  rsimpl. rcase; [lra | reflexivity].
Qed.

Lemma main_cast_ray (orig direction : Vec.V3 R) :
  exists c, cast_ray main_raycaster orig direction 0 = Ok c.
Proof.
  destruct (cast_ray main_raycaster orig direction 0) as [c|e] eqn:E; [eauto|]. exfalso.
  pose proof (cast_ray_fuel_safe _ _ _ _ _ _ main_safe E) as ->.
  exact (cast_ray_fuel_no_oof (MAX_RECURSION_DEPTH - 0) main_raycaster orig direction 0 (le_n _) E).
Qed.

(** Every pixel of the script's image has a colour. *)
Lemma main_pixel_color (t : R) (x y : Z) : exists c, pixel_color main_raycaster t x y = Ok c.
Proof.
  unfold pixel_color, camera_direction. destruct (main_raycaster_size (F := R)) as [-> ->].
  cbn [s_of_Z R_scalar].
  assert (IZR 2000 <> 0) as H2 by (apply not_0_IZR; lia).
  repeat (rewrite R_py_div by exact H2; cbn [res_bind]).
  match goal with |- context [cast_ray _ ?o ?d 0] => destruct (main_cast_ray o d) as [c1 ->] end.
  cbn [res_bind].
  match goal with |- context [cast_ray _ ?o ?d 0] => destruct (main_cast_ray o d) as [c2 ->] end.
  eexists. reflexivity.
Qed.

(** C1: composition.  The script of ray.py runs to completion on the
    reals: [render] returns, and [finish] then writes the header of a
    2000 x 2000 image followed by the clamped bytes of every rendered
    pixel, row by row, [54 + 3 * 2000 * 2000] bytes in all, the size the
    header declares. *)
Theorem main_writes_bmp :
  exists rc rc', render (main_raycaster (F := R)) = (Ok tt, rc) /\
    main (F := R) = (Ok tt, (bmp_header 2000 2000 ++ image_bytes rc, rc')) /\
    Z.of_nat (length (bmp_header 2000 2000 ++ image_bytes rc)) = 12000054%Z.
Proof.
  pose proof (main_raycaster_wf (F := R)) as Hwf.
  assert (exists rc, render (main_raycaster (F := R)) = (Ok tt, rc)) as [rc E].
  { unfold render. rewrite render_fov_R. apply render_rows_total; [exact Hwf|].
    intros. apply main_pixel_color. }
  assert (wf rc /\ width rc = 2000%Z /\ height rc = 2000%Z) as (Hwf' & Hw & Hh).
  { pose proof E as E'. unfold render in E'. rewrite render_fov_R in E'.
    destruct (render_rows_Ok _ _ rc Hwf E') as ((Hw & Hh & _) & Hwf' & _).
    rewrite Hw, Hh. exact (conj Hwf' main_raycaster_size). }
  assert (header_ok 2000 2000) as Hok by (unfold header_ok; lia).
  unfold main. rewrite E. unfold finish, finish_body. unfold st_bind at 1.
  rewrite Hw, Hh, finish_header_Ok by exact Hok. cbn [fst snd app].
  destruct (finish_loop_square rc 2000 (bmp_header 2000 2000) rc Hwf' Hw Hh (clamped_from_refl rc))
    as (rc' & -> & _).
  exists rc, rc'. split; [reflexivity|]. split; [reflexivity|].
  rewrite length_app, length_bmp_header, length_image_bytes, Hw, Hh by exact Hwf'.
  rewrite Nat2Z.inj_add, !Nat2Z.inj_mul, Z2Nat.id by lia. reflexivity.
Qed.

End Main.
